(** * liblpm Python bindings: the [LpmTableIPv4] / [LpmTableIPv6] wrappers

    A shallow embedding of [bindings/python/src/liblpm/table.py] together
    with the parts of Python's [ipaddress] module and of the Cython
    extension [_liblpm] that the wrappers call.  The wrappers are state
    transformers over the table object ([_trie], [_closed]); an exception
    is a [Raise] result. *)

From Stdlib Require Import ZArith Lia Strings.Byte Strings.Ascii DecimalString.
From stdpp Require Import base option list gmap strings.

Local Open Scope Z_scope.

(** ** Bytes and big-endian integers ([int.to_bytes], [int.from_bytes]) *)

Definition byte_of_Z (z : Z) : byte :=
  match Byte.of_N (Z.to_N (z mod 256)) with
  | Some b => b
  | None => Byte.x00
  end.

Definition Z_of_byte (b : byte) : Z := Z.of_N (Byte.to_N b).

(** [z.to_bytes(n, 'big')] for [0 <= z < 256^n] (Python raises
    OverflowError outside that range; the address objects never leave it). *)
Fixpoint int_to_bytes (n : nat) (z : Z) : list byte :=
  match n with
  | O => []
  | S n' => int_to_bytes n' (z / 256) ++ [byte_of_Z z]
  end.

(** [int.from_bytes(bs, 'big')]. *)
Definition int_from_bytes (bs : list byte) : Z :=
  fold_left (fun acc b => acc * 256 + Z_of_byte b) bs 0.

(** ** Exceptions and results *)

Inductive exn :=
| LpmClosedError
| LpmInsertError
| LpmDeleteError
| LpmInvalidPrefixError
| ValueError
| AddressValueError.

Inductive result (A : Type) :=
| Return (a : A)
| Raise (e : exn).
Arguments Return {A} a.
Arguments Raise {A} e.

(** A method of an object of state [S]: it returns or raises, and leaves
    the object in a new state. *)
Definition Py (S A : Type) : Type := S -> result A * S.

Definition ret {S A} (a : A) : Py S A := fun s => (Return a, s).
Definition raise {S A} (e : exn) : Py S A := fun s => (Raise e, s).
Definition bind {S A B} (m : Py S A) (k : A -> Py S B) : Py S B :=
  fun s => match m s with
           | (Return a, s') => k a s'
           | (Raise e, s') => (Raise e, s')
           end.
Definition get {S} : Py S S := fun s => (Return s, s).

Declare Scope py_scope.
Delimit Scope py_scope with py.
Notation "x <- m ;; k" := (bind m (fun x => k))
  (at level 100, m at next level, right associativity) : py_scope.
Notation "m ;;; k" := (bind m (fun _ => k))
  (at level 100, right associativity) : py_scope.

(** Run the methods of a list one after the other, stopping at the first
    exception (a [for] loop whose body is a method call). *)
Fixpoint for_each {S A} (f : A -> Py S unit) (l : list A) : Py S unit :=
  match l with
  | [] => ret tt
  | x :: l' => bind (f x) (fun _ => for_each f l')
  end.

(** ** The [ipaddress] module *)

Module ipaddress.

(** [_BaseV4._ALL_ONES] / [_BaseV6._ALL_ONES] for a family of [W] bits. *)
Definition _ALL_ONES (W : Z) : Z := 2 ^ W - 1.

(** [_ip_int_from_prefix]: the netmask of a prefix length. *)
Definition _ip_int_from_prefix (W prefixlen : Z) : Z :=
  Z.lxor (_ALL_ONES W) (Z.shiftr (_ALL_ONES W) prefixlen).

(** An [IPv4Network] / [IPv6Network] object. *)
Record Network := { network_address : Z; prefixlen : Z }.

(** The address constructors on an integer ([_check_int_address]): it
    must fit the family's width. *)
Definition make_address (W : Z) (addr : Z) : result Z :=
  if negb ((0 <=? addr) && (addr <=? _ALL_ONES W)) then
    Raise AddressValueError
  else Return addr.

(** The [_BaseNetwork] constructors from an already split and read
    [(address, prefix length)] pair: both are checked against the
    family's width ([AddressValueError] and [NetmaskValueError] are
    subclasses of [ValueError]); host bits are an error under [strict]
    and are masked away otherwise. *)
Definition make_network (W : Z) (addr plen : Z) (strict : bool)
  : result Network :=
  if negb ((0 <=? addr) && (addr <=? _ALL_ONES W)) then Raise ValueError else
  if negb ((0 <=? plen) && (plen <=? W)) then Raise ValueError else
  let netmask := _ip_int_from_prefix W plen in
  let packed := addr in
  if negb (Z.land packed netmask =? packed) then
    if strict then Raise ValueError
    else Return {| network_address := Z.land packed netmask;
                   prefixlen := plen |}
  else Return {| network_address := addr; prefixlen := plen |}.

End ipaddress.
Export ipaddress.

(** The textual side of [ipaddress]: how a string is split and its
    digits are read, for an address and for a network (address and prefix
    length). *)
Class Ipaddress := {
  ip4_address_of_string : string -> option Z;
  ip4_network_of_string : string -> option (Z * Z);
  ip6_address_of_string : string -> option Z;
  ip6_network_of_string : string -> option (Z * Z);
}.

(** ** The extension module [_liblpm]

    [table.py] imports [_LpmTrieIPv4], [_LpmTrieIPv6] and
    [INVALID_NEXT_HOP] from the compiled extension [._liblpm].  The
    wrappers are written against the methods of a trie object; [K] is the
    type of a lookup key (a 32-bit integer for IPv4, the 16 packed bytes
    for IPv6) and [E] the state of the engine behind the object. *)

(** Modelled from the spec: the constant [INVALID_NEXT_HOP] that [table.py]
    imports from the extension [._liblpm], which is not among the sources;
    the spec reserves 0xFFFFFFFF as the miss sentinel, and [__init__.py]
    re-exports the same value under the same name. *)
Definition INVALID_NEXT_HOP : Z := 0xFFFFFFFF.

Class LpmTrie (K E : Type) := {
  (** [_LpmTrieIPv4(algo_str)] / [_LpmTrieIPv6(algo_str)] *)
  trie_new : string -> E;
  (** [add(prefix_bytes, prefix_len, next_hop)]: status and new state *)
  trie_add : list byte -> Z -> Z -> E -> Z * E;
  (** [delete(prefix_bytes, prefix_len)]: status and new state *)
  trie_delete : list byte -> Z -> E -> Z * E;
  (** [lookup(key)] *)
  trie_lookup : K -> E -> Z;
  (** [lookup_batch(keys, results)]: the contents of [results] afterwards *)
  trie_lookup_batch : list K -> list Z -> E -> list Z;
  (** [close()] *)
  trie_close : E -> E;
  (** the properties [algorithm] and [num_prefixes] *)
  trie_algorithm : E -> string;
  trie_num_prefixes : E -> Z;
}.

(** The calls a wrapper makes on its [_trie], for the record. *)
Inductive trie_call (K : Type) :=
| CallAdd (prefix_bytes : list byte) (prefix_len next_hop : Z)
| CallDelete (prefix_bytes : list byte) (prefix_len : Z)
| CallLookup (key : K)
| CallLookupBatch (keys : list K) (results : list Z)
| CallClose.
Arguments CallAdd {K}.
Arguments CallDelete {K}.
Arguments CallLookup {K}.
Arguments CallLookupBatch {K}.
Arguments CallClose {K}.

(** A table object: the two slots of the class, and (ghost) the calls made
    on [_trie] so far, oldest first. *)
Record table (K E : Type) := {
  _trie : E;
  _closed : bool;
  engine_calls : list (trie_call K);
}.
Arguments _trie {K E}.
Arguments _closed {K E}.
Arguments engine_calls {K E}.

Section TrieCalls.
Context {K E : Type} `{LpmTrie K E}.

Definition log (c : trie_call K) (e : E) (self : table K E) : table K E :=
  {| _trie := e; _closed := _closed self;
     engine_calls := engine_calls self ++ [c] |}.

Definition call_add (bs : list byte) (len nh : Z) : Py (table K E) Z :=
  fun self => let '(r, e) := trie_add bs len nh (_trie self) in
              (Return r, log (CallAdd bs len nh) e self).

Definition call_delete (bs : list byte) (len : Z) : Py (table K E) Z :=
  fun self => let '(r, e) := trie_delete bs len (_trie self) in
              (Return r, log (CallDelete bs len) e self).

Definition call_lookup (k : K) : Py (table K E) Z :=
  fun self => (Return (trie_lookup k (_trie self)),
               log (CallLookup k) (_trie self) self).

Definition call_lookup_batch (ks : list K) (results : list Z)
  : Py (table K E) (list Z) :=
  fun self => (Return (trie_lookup_batch ks results (_trie self)),
               log (CallLookupBatch ks results) (_trie self) self).

Definition call_close : Py (table K E) unit :=
  fun self => (Return tt, log CallClose (trie_close (_trie self)) self).

Definition set_closed (b : bool) : Py (table K E) unit :=
  fun self => (Return tt,
               {| _trie := _trie self; _closed := b;
                  engine_calls := engine_calls self |}).

(** [result if result != INVALID_NEXT_HOP else None] *)
Definition next_hop_or_None (r : Z) : option Z :=
  if negb (r =? INVALID_NEXT_HOP) then Some r else None.

End TrieCalls.

(** ** Arguments of the wrappers *)

(** [class Algorithm(str, Enum)] *)
Inductive Algorithm := DIR24 | WIDE16 | STRIDE8.

Definition Algorithm_value (a : Algorithm) : string :=
  match a with
  | DIR24 => "dir24"
  | WIDE16 => "wide16"
  | STRIDE8 => "stride8"
  end.

(** [algorithm: Union[Algorithm, str]]; anything else goes through
    [str(algorithm)], so it is represented by that string. *)
Inductive algorithm_arg :=
| AlgEnum (a : Algorithm)
| AlgStr (s : string).

(** The local [algo_str] of both constructors: [algorithm.value] for a
    member of the enumeration, [str(algorithm)] otherwise. *)
Definition algo_str (algorithm : algorithm_arg) : string :=
  match algorithm with
  | AlgEnum a => Algorithm_value a
  | AlgStr s => s
  end.

(** [prefix: Union[IPv4Network, str]] (resp. IPv6); [PrefixOther] is an
    object of any other type. *)
Inductive prefix_arg :=
| PrefixNet (n : Network)
| PrefixStr (s : string)
| PrefixOther.

(** [addr: Union[IPv4Address, str]] (resp. IPv6); an address object is
    its integer [_ip]. *)
Inductive addr_arg :=
| AddrObj (a : Z)
| AddrStr (s : string).

(** [IPv4Network(s, strict=...)], [IPv6Network(s, strict=...)] and
    [IPv4Address(s)], [IPv6Address(s)] on strings.  Every parse error of
    the network constructors is a [ValueError] (or a subclass of it). *)
Definition IPv4Network `{Ipaddress} (s : string) (strict : bool)
  : result Network :=
  match ip4_network_of_string s with
  | Some (addr, plen) => make_network 32 addr plen strict
  | None => Raise ValueError
  end.

Definition IPv6Network `{Ipaddress} (s : string) (strict : bool)
  : result Network :=
  match ip6_network_of_string s with
  | Some (addr, plen) => make_network 128 addr plen strict
  | None => Raise ValueError
  end.

Definition IPv4Address `{Ipaddress} (s : string) : result Z :=
  match ip4_address_of_string s with
  | Some a => make_address 32 a
  | None => Raise AddressValueError
  end.

Definition IPv6Address `{Ipaddress} (s : string) : result Z :=
  match ip6_address_of_string s with
  | Some a => make_address 128 a
  | None => Raise AddressValueError
  end.

(** A pure computation that may raise, run inside a method. *)
Definition lift {S A} (r : result A) : Py S A := fun s => (r, s).

(** ** [class LpmTableIPv4] *)

Module LpmTableIPv4.
Section Methods.
Context `{Ipaddress} {E : Type} `{LpmTrie Z E}.

(** [addr.packed] of an [IPv4Address] *)
Definition packed (a : Z) : list byte := int_to_bytes 4 a.

Definition __init__ (algorithm : algorithm_arg) : result (table Z E) :=
  let algo_str := algo_str algorithm in
  if negb (bool_decide (algo_str ∈ ["dir24"; "stride8"]%string)) then
    Raise ValueError
  else
    Return {| _trie := trie_new algo_str; _closed := false;
              engine_calls := [] |}.

Definition insert (prefix : prefix_arg) (next_hop : Z)
  : Py (table Z E) unit :=
  (self <- get ;;
   if _closed self then raise LpmClosedError else
   if negb ((0 <=? next_hop) && (next_hop <=? 0xFFFFFFFF)) then
     raise ValueError
   else
   prefix <- match prefix with
             | PrefixStr s =>
                 match IPv4Network s false with
                 | Return n => ret (PrefixNet n)
                 | Raise _ => raise LpmInvalidPrefixError
                 end
             | _ => ret prefix
             end ;;
   match prefix with
   | PrefixNet n =>
       let prefix_bytes := packed (network_address n) in
       let prefix_len := prefixlen n in
       result <- call_add prefix_bytes prefix_len next_hop ;;
       if negb (result =? 0) then raise LpmInsertError else ret tt
   | _ => raise LpmInvalidPrefixError
   end)%py.

Definition delete (prefix : prefix_arg) : Py (table Z E) unit :=
  (self <- get ;;
   if _closed self then raise LpmClosedError else
   prefix <- match prefix with
             | PrefixStr s =>
                 match IPv4Network s false with
                 | Return n => ret (PrefixNet n)
                 | Raise _ => raise LpmInvalidPrefixError
                 end
             | _ => ret prefix
             end ;;
   match prefix with
   | PrefixNet n =>
       let prefix_bytes := packed (network_address n) in
       let prefix_len := prefixlen n in
       result <- call_delete prefix_bytes prefix_len ;;
       if negb (result =? 0) then raise LpmDeleteError else ret tt
   | _ => raise LpmInvalidPrefixError
   end)%py.

(** [IPv4Address(addr)] for a string, the object itself otherwise, then
    [int.from_bytes(addr.packed, 'big')]. *)
Definition addr_int_of (addr : addr_arg) : result Z :=
  match addr with
  | AddrStr s =>
      match IPv4Address s with
      | Return a => Return (int_from_bytes (packed a))
      | Raise e => Raise e
      end
  | AddrObj a => Return (int_from_bytes (packed a))
  end.

Definition lookup (addr : addr_arg) : Py (table Z E) (option Z) :=
  (self <- get ;;
   if _closed self then raise LpmClosedError else
   addr_int <- lift (addr_int_of addr) ;;
   result <- call_lookup addr_int ;;
   ret (next_hop_or_None result))%py.

(** The loop that fills [addr_array]; it stops at the first string that
    is not an address. *)
Fixpoint to_addr_array (addrs : list addr_arg) : result (list Z) :=
  match addrs with
  | [] => Return []
  | addr :: rest =>
      match addr_int_of addr with
      | Raise e => Raise e
      | Return addr_int =>
          match to_addr_array rest with
          | Raise e => Raise e
          | Return arr => Return (addr_int :: arr)
          end
      end
  end.

Definition lookup_batch (addrs : list addr_arg)
  : Py (table Z E) (list (option Z)) :=
  (self <- get ;;
   if _closed self then raise LpmClosedError else
   match addrs with
   | [] => ret []
   | _ :: _ =>
       addr_array <- lift (to_addr_array addrs) ;;
       let result_array := replicate (length addrs) 0 in
       result_array <- call_lookup_batch addr_array result_array ;;
       ret (map next_hop_or_None result_array)
   end)%py.

Definition close : Py (table Z E) unit :=
  (self <- get ;;
   if negb (_closed self) then
     (call_close ;;; set_closed true)
   else ret tt)%py.

Definition closed (self : table Z E) : bool := _closed self.
Definition algorithm (self : table Z E) : string :=
  trie_algorithm (_trie self).
Definition num_prefixes (self : table Z E) : Z :=
  trie_num_prefixes (_trie self).

(** [__enter__] returns [self]: the target of [as] is the table the body
    goes on to use, so the object is handed on as it is. *)
Definition __enter__ : Py (table Z E) unit := ret tt.

(** [__exit__(exc_type, exc_val, exc_tb)]: [self.close()], then
    [return False]. *)
Definition __exit__ (exc : option exn) : Py (table Z E) bool :=
  (close ;;; ret false)%py.

(** [__del__].  The object is [None] as long as its slots are unset (an
    [__init__] that raised leaves it so); [hasattr(self, '_trie')] is then
    false and [self._closed] is not read. *)
Definition __del__ : Py (option (table Z E)) unit :=
  fun self =>
    match self with
    | Some s =>
        if negb (_closed s) then
          let '(r, s') := close s in (r, Some s')
        else (Return tt, Some s)
    | None => (Return tt, None)
    end.

End Methods.
End LpmTableIPv4.

(** ** [class LpmTableIPv6] *)

Module LpmTableIPv6.
Section Methods.
Context `{Ipaddress} {E : Type} `{LpmTrie (list byte) E}.

(** [addr.packed] of an [IPv6Address] *)
Definition packed (a : Z) : list byte := int_to_bytes 16 a.

Definition __init__ (algorithm : algorithm_arg)
  : result (table (list byte) E) :=
  let algo_str := algo_str algorithm in
  if negb (bool_decide (algo_str ∈ ["wide16"; "stride8"]%string)) then
    Raise ValueError
  else
    Return {| _trie := trie_new algo_str; _closed := false;
              engine_calls := [] |}.

Definition insert (prefix : prefix_arg) (next_hop : Z)
  : Py (table (list byte) E) unit :=
  (self <- get ;;
   if _closed self then raise LpmClosedError else
   if negb ((0 <=? next_hop) && (next_hop <=? 0xFFFFFFFF)) then
     raise ValueError
   else
   prefix <- match prefix with
             | PrefixStr s =>
                 match IPv6Network s false with
                 | Return n => ret (PrefixNet n)
                 | Raise _ => raise LpmInvalidPrefixError
                 end
             | _ => ret prefix
             end ;;
   match prefix with
   | PrefixNet n =>
       let prefix_bytes := packed (network_address n) in
       let prefix_len := prefixlen n in
       result <- call_add prefix_bytes prefix_len next_hop ;;
       if negb (result =? 0) then raise LpmInsertError else ret tt
   | _ => raise LpmInvalidPrefixError
   end)%py.

Definition delete (prefix : prefix_arg) : Py (table (list byte) E) unit :=
  (self <- get ;;
   if _closed self then raise LpmClosedError else
   prefix <- match prefix with
             | PrefixStr s =>
                 match IPv6Network s false with
                 | Return n => ret (PrefixNet n)
                 | Raise _ => raise LpmInvalidPrefixError
                 end
             | _ => ret prefix
             end ;;
   match prefix with
   | PrefixNet n =>
       let prefix_bytes := packed (network_address n) in
       let prefix_len := prefixlen n in
       result <- call_delete prefix_bytes prefix_len ;;
       if negb (result =? 0) then raise LpmDeleteError else ret tt
   | _ => raise LpmInvalidPrefixError
   end)%py.

(** [IPv6Address(addr)] for a string, the object itself otherwise, then
    [addr.packed]. *)
Definition addr_bytes_of (addr : addr_arg) : result (list byte) :=
  match addr with
  | AddrStr s =>
      match IPv6Address s with
      | Return a => Return (packed a)
      | Raise e => Raise e
      end
  | AddrObj a => Return (packed a)
  end.

Definition lookup (addr : addr_arg) : Py (table (list byte) E) (option Z) :=
  (self <- get ;;
   if _closed self then raise LpmClosedError else
   addr_bytes <- lift (addr_bytes_of addr) ;;
   result <- call_lookup addr_bytes ;;
   ret (next_hop_or_None result))%py.

(** The loop that fills [addr_list]. *)
Fixpoint to_addr_list (addrs : list addr_arg) : result (list (list byte)) :=
  match addrs with
  | [] => Return []
  | addr :: rest =>
      match addr_bytes_of addr with
      | Raise e => Raise e
      | Return addr_bytes =>
          match to_addr_list rest with
          | Raise e => Raise e
          | Return l => Return (addr_bytes :: l)
          end
      end
  end.

Definition lookup_batch (addrs : list addr_arg)
  : Py (table (list byte) E) (list (option Z)) :=
  (self <- get ;;
   if _closed self then raise LpmClosedError else
   match addrs with
   | [] => ret []
   | _ :: _ =>
       addr_list <- lift (to_addr_list addrs) ;;
       let result_array := replicate (length addrs) 0 in
       result_array <- call_lookup_batch addr_list result_array ;;
       ret (map next_hop_or_None result_array)
   end)%py.

Definition close : Py (table (list byte) E) unit :=
  (self <- get ;;
   if negb (_closed self) then
     (call_close ;;; set_closed true)
   else ret tt)%py.

Definition closed (self : table (list byte) E) : bool := _closed self.
Definition algorithm (self : table (list byte) E) : string :=
  trie_algorithm (_trie self).
Definition num_prefixes (self : table (list byte) E) : Z :=
  trie_num_prefixes (_trie self).

(** [__enter__] returns [self]: the target of [as] is the table the body
    goes on to use, so the object is handed on as it is. *)
Definition __enter__ : Py (table (list byte) E) unit := ret tt.

(** [__exit__(exc_type, exc_val, exc_tb)]: [self.close()], then
    [return False]. *)
Definition __exit__ (exc : option exn) : Py (table (list byte) E) bool :=
  (close ;;; ret false)%py.

(** [__del__].  The object is [None] as long as its slots are unset (an
    [__init__] that raised leaves it so); [hasattr(self, '_trie')] is then
    false and [self._closed] is not read. *)
Definition __del__ : Py (option (table (list byte) E)) unit :=
  fun self =>
    match self with
    | Some s =>
        if negb (_closed s) then
          let '(r, s') := close s in (r, Some s')
        else (Return tt, Some s)
    | None => (Return tt, None)
    end.

End Methods.
End LpmTableIPv6.

(** ** The engine behind [_LpmTrieIPv4] and [_LpmTrieIPv6] *)

Module Engine.

(** Modelled from the spec: the trie object of the extension [_liblpm]
    (the Cython classes [_LpmTrieIPv4] / [_LpmTrieIPv6] and the C engine
    under them), of which only the callers and the tests are among the
    sources.  The model keeps what the spec fixes of a table at its
    interface (sections 3 and 6): the stored prefixes, keyed by
    [(network, length)], each with its next hop, and the algorithm tag
    chosen at construction.  The three layouts of section 4 have to agree
    on every result (section 8), so the tag does not change the
    behaviour; memory is not bounded, so no allocation fails. *)
Record lpm_trie := {
  lpm_algorithm : string;
  lpm_routes : gmap (Z * Z) Z;
}.

(** Modelled from the spec: construct(algorithm) gives a new empty table. *)
Definition lpm_new (algorithm : string) : lpm_trie :=
  {| lpm_algorithm := algorithm; lpm_routes := ∅ |}.

(** Modelled from the spec: insert(network_bytes, length, next_hop) of the
    engine interface; it fails on a length outside the family's range, and
    an insert of an existing [(network, length)] overwrites its next hop.
    The host bits are the caller's business, and so is the next hop. *)
Definition lpm_add (W : Z) (prefix_bytes : list byte) (prefix_len next_hop : Z)
  (t : lpm_trie) : Z * lpm_trie :=
  if (0 <=? prefix_len) && (prefix_len <=? W) then
    (0, {| lpm_algorithm := lpm_algorithm t;
           lpm_routes := <[(int_from_bytes prefix_bytes, prefix_len) := next_hop]>
                           (lpm_routes t) |})
  else (-1, t).

(** Modelled from the spec: delete(network_bytes, length) of the engine
    interface; it fails if the prefix is not present. *)
Definition lpm_delete (W : Z) (prefix_bytes : list byte) (prefix_len : Z)
  (t : lpm_trie) : Z * lpm_trie :=
  match lpm_routes t !! (int_from_bytes prefix_bytes, prefix_len) with
  | Some _ =>
      (0, {| lpm_algorithm := lpm_algorithm t;
             lpm_routes := base.delete (int_from_bytes prefix_bytes, prefix_len)
                             (lpm_routes t) |})
  | None => (-1, t)
  end.

(** Modelled from the spec: the network of length [len] that covers a
    [W]-bit address, its first [len] bits with the others cleared. *)
Definition truncate (W : Z) (a : Z) (len : Z) : Z :=
  Z.shiftl (Z.shiftr a (W - len)) (W - len).

(** Modelled from the spec: lookup(address) of the engine interface, the
    next hop of the most specific covering prefix or the sentinel.  The
    lengths are tried from [n] down to 0; the first one under which the
    address, cut to that length, is a stored network decides. *)
Fixpoint lpm_search (W : Z) (routes : gmap (Z * Z) Z) (a : Z) (n : nat) : Z :=
  match routes !! (truncate W a (Z.of_nat n), Z.of_nat n) with
  | Some next_hop => next_hop
  | None =>
      match n with
      | O => INVALID_NEXT_HOP
      | S n' => lpm_search W routes a n'
      end
  end.

Definition lpm_lookup (W : Z) (a : Z) (t : lpm_trie) : Z :=
  lpm_search W (lpm_routes t) a (Z.to_nat W).

(** Modelled from the spec: the batch lookup dispatcher (section 4.4).  It
    iterates the address array against one engine instance and writes the
    result of address [i] into slot [i] of the caller's output array. *)
Fixpoint lpm_batch_loop {K} (look : K -> Z) (addrs : list K) (i : nat)
  (results : list Z) : list Z :=
  match addrs with
  | [] => results
  | a :: rest => lpm_batch_loop look rest (S i) (<[i := look a]> results)
  end.

Definition lpm_lookup_batch {K} (look : K -> Z) (addrs : list K)
  (results : list Z) : list Z :=
  lpm_batch_loop look addrs 0%nat results.

(** Modelled from the spec: close releases all the memory the table owns. *)
Definition lpm_close (t : lpm_trie) : lpm_trie :=
  {| lpm_algorithm := lpm_algorithm t; lpm_routes := ∅ |}.

(** Modelled from the spec: stats, the prefix count. *)
Definition lpm_num_prefixes (t : lpm_trie) : Z :=
  Z.of_nat (size (lpm_routes t)).

(** Modelled from the spec: the class [_LpmTrieIPv4] of the extension, as
    [table.py] calls it; [lookup] takes the address as a 32-bit integer. *)
#[export] Instance lpm_ipv4 : LpmTrie Z lpm_trie := {|
  trie_new := lpm_new;
  trie_add := lpm_add 32;
  trie_delete := lpm_delete 32;
  trie_lookup := lpm_lookup 32;
  trie_lookup_batch := fun ks rs t => lpm_lookup_batch (fun k => lpm_lookup 32 k t) ks rs;
  trie_close := lpm_close;
  trie_algorithm := lpm_algorithm;
  trie_num_prefixes := lpm_num_prefixes;
|}.

(** Modelled from the spec: the class [_LpmTrieIPv6] of the extension, as
    [table.py] calls it; [lookup] takes the 16 packed bytes of the
    address. *)
#[export] Instance lpm_ipv6 : LpmTrie (list byte) lpm_trie := {|
  trie_new := lpm_new;
  trie_add := lpm_add 128;
  trie_delete := lpm_delete 128;
  trie_lookup := fun bs => lpm_lookup 128 (int_from_bytes bs);
  trie_lookup_batch := fun ks rs t =>
    lpm_lookup_batch (fun bs => lpm_lookup 128 (int_from_bytes bs) t) ks rs;
  trie_close := lpm_close;
  trie_algorithm := lpm_algorithm;
  trie_num_prefixes := lpm_num_prefixes;
|}.

End Engine.

(** ** A reading of the textual forms

    An instance of [Ipaddress] for the usual forms: dotted quad and
    colon-separated hextets with at most one [::], an optional [/] and a
    decimal prefix length.  It follows [_ip_int_from_string] and
    [_prefix_from_prefix_string]; netmask notation, IPv4 suffixes and
    scope ids are not read, and an octet may start with a zero (as
    before Python 3.9.5).  The properties hold for any instance; this one
    runs the examples. *)

Module Text.

(** [s.split(c)], with [cur] the piece being read *)
Fixpoint split_on (c : ascii) (s : string) (cur : string) : list string :=
  match s with
  | EmptyString => [cur]
  | String x s' =>
      if Ascii.eqb x c then cur :: split_on c s' EmptyString
      else split_on c s' (cur +:+ String x EmptyString)
  end.

Definition digit_of (base : Z) (c : ascii) : option Z :=
  let n := Z.of_nat (nat_of_ascii c) in
  let d := if (48 <=? n) && (n <=? 57) then n - 48
           else if (97 <=? n) && (n <=? 102) then n - 87
           else if (65 <=? n) && (n <=? 70) then n - 55
           else -1 in
  if (0 <=? d) && (d <? base) then Some d else None.

Fixpoint number_from (base : Z) (s : string) (acc : Z) : option Z :=
  match s with
  | EmptyString => Some acc
  | String c s' =>
      match digit_of base c with
      | Some d => number_from base s' (acc * base + d)
      | None => None
      end
  end.

(** a non-empty run of at most [maxlen] digits *)
Definition number (base : Z) (maxlen : nat) (s : string) : option Z :=
  if bool_decide (s = EmptyString) || (maxlen <? String.length s)%nat
  then None else number_from base s 0.

(** [_parse_octet] and the loop of [_ip_int_from_string] (IPv4) *)
Definition parse_octet (s : string) : option Z :=
  match number 10 3 s with
  | Some n => if n <=? 255 then Some n else None
  | None => None
  end.

Fixpoint join_parts (parse : string -> option Z) (shift : Z)
  (parts : list string) (acc : Z) : option Z :=
  match parts with
  | [] => Some acc
  | p :: rest =>
      match parse p with
      | Some v => join_parts parse shift rest (Z.lor (Z.shiftl acc shift) v)
      | None => None
      end
  end.

Definition ip4_int_from_string (s : string) : option Z :=
  let octets := split_on "." s EmptyString in
  if negb (length octets =? 4)%nat then None
  else join_parts parse_octet 8 octets 0.

(** [_parse_hextet] and [_ip_int_from_string] (IPv6) *)
Definition parse_hextet (s : string) : option Z := number 16 4 s.

Definition ip6_int_from_string (s : string) : option Z :=
  let parts := split_on ":" s EmptyString in
  let n := length parts in
  if (n <? 3)%nat || (9 <? n)%nat then None else
  let first_empty := bool_decide (parts !! 0%nat = Some EmptyString) in
  let last_empty := bool_decide (parts !! (n - 1)%nat = Some EmptyString) in
  match filter (fun i => parts !! i = Some EmptyString) (seq 1 (n - 2)) with
  | [] =>
      if negb (n =? 8)%nat || first_empty || last_empty then None
      else join_parts parse_hextet 16 parts 0
  | [skip_index] =>
      let parts_hi := if first_empty then (skip_index - 1)%nat else skip_index in
      let parts_lo :=
        if last_empty then (n - skip_index - 2)%nat
        else (n - skip_index - 1)%nat in
      if first_empty && negb (parts_hi =? 0)%nat then None
      else if last_empty && negb (parts_lo =? 0)%nat then None
      else if (8 <=? parts_hi + parts_lo)%nat then None
      else
        let parts_skipped := (8 - (parts_hi + parts_lo))%nat in
        match join_parts parse_hextet 16
                (if first_empty then [] else take skip_index parts) 0 with
        | Some hi =>
            join_parts parse_hextet 16
              (if last_empty then [] else drop (S skip_index) parts)
              (Z.shiftl hi (16 * Z.of_nat parts_skipped))
        | None => None
        end
  | _ => None
  end.

(** [_prefix_from_prefix_string] *)
Definition prefix_from_string (max_prefixlen : Z) (s : string) : option Z :=
  match number 10 (String.length s) s with
  | Some n => if n <=? max_prefixlen then Some n else None
  | None => None
  end.

(** [_split_addr_prefix]: the address, and the prefix length after an
    optional [/] (the whole width without one) *)
Definition network_from_string (addr_of : string -> option Z)
  (max_prefixlen : Z) (s : string) : option (Z * Z) :=
  match split_on "/" s EmptyString with
  | [a] =>
      match addr_of a with
      | Some ip => Some (ip, max_prefixlen)
      | None => None
      end
  | [a; m] =>
      match addr_of a, prefix_from_string max_prefixlen m with
      | Some ip, Some l => Some (ip, l)
      | _, _ => None
      end
  | _ => None
  end.

#[export] Instance text_ipaddress : Ipaddress := {|
  ip4_address_of_string := ip4_int_from_string;
  ip4_network_of_string := network_from_string ip4_int_from_string 32;
  ip6_address_of_string := ip6_int_from_string;
  ip6_network_of_string := network_from_string ip6_int_from_string 128;
|}.

End Text.

(** ** Vocabulary of the properties *)

(** The invariant of a network object of [ipaddress]: address and prefix
    length fit the family, and no host bit is set. *)
Definition valid_network (W : Z) (n : Network) : Prop :=
  0 <= network_address n < 2 ^ W /\
  0 <= prefixlen n <= W /\
  Z.land (network_address n) (_ip_int_from_prefix W (prefixlen n))
  = network_address n.

(** The invariant of an address object. *)
Definition valid_address (W : Z) (a : Z) : Prop := 0 <= a < 2 ^ W.

(** The prefix [net/len] covers the address [a]: under the netmask of
    [len], [a] is [net]. *)
Definition covers (W : Z) (net len : Z) (a : Z) : Prop :=
  0 <= len <= W /\ Z.land a (_ip_int_from_prefix W len) = net.

(** No host bit: the [W - len] low bits are zero. *)
Definition host_bits_zero (W : Z) (net len : Z) : Prop :=
  forall i, 0 <= i < W - len -> Z.testbit net i = false.

(** The network a wrapper makes of its [prefix] argument. *)
Definition network_of4 `{Ipaddress} (p : prefix_arg) : option Network :=
  match p with
  | PrefixNet n => Some n
  | PrefixStr s =>
      match IPv4Network s false with
      | Return n => Some n
      | Raise _ => None
      end
  | PrefixOther => None
  end.

Definition network_of6 `{Ipaddress} (p : prefix_arg) : option Network :=
  match p with
  | PrefixNet n => Some n
  | PrefixStr s =>
      match IPv6Network s false with
      | Return n => Some n
      | Raise _ => None
      end
  | PrefixOther => None
  end.

(** A [prefix] argument that is a network object is a genuine one. *)
Definition genuine_prefix (W : Z) (p : prefix_arg) : Prop :=
  match p with
  | PrefixNet n => valid_network W n
  | _ => True
  end.

(** An [addr] argument that is an address object is a genuine one. *)
Definition genuine_addr (W : Z) (x : addr_arg) : Prop :=
  match x with
  | AddrObj a => valid_address W a
  | AddrStr _ => True
  end.

(** The calls that change what a table stores. *)
Inductive update :=
| Insert (prefix : prefix_arg) (next_hop : Z)
| Delete (prefix : prefix_arg).

Definition update_prefix (u : update) : prefix_arg :=
  match u with
  | Insert p _ => p
  | Delete p => p
  end.

Definition apply4 `{Ipaddress} `{LpmTrie Z E} (u : update)
  : Py (table Z E) unit :=
  match u with
  | Insert p nh => LpmTableIPv4.insert p nh
  | Delete p => LpmTableIPv4.delete p
  end.

Definition apply6 `{Ipaddress} `{LpmTrie (list byte) E} (u : update)
  : Py (table (list byte) E) unit :=
  match u with
  | Insert p nh => LpmTableIPv6.insert p nh
  | Delete p => LpmTableIPv6.delete p
  end.

(** After the updates [us], the prefix [net/len] is stored with next hop
    [nh]: the last update that names it is an insert of [nh]. *)
Definition stored_after (network_of : prefix_arg -> option Network)
  (us : list update) (net len nh : Z) : Prop :=
  exists us1 us2 p,
    us = us1 ++ Insert p nh :: us2 /\
    network_of p = Some {| network_address := net; prefixlen := len |} /\
    Forall (fun u => network_of (update_prefix u)
                     <> Some {| network_address := net; prefixlen := len |})
           us2.

(** Among the prefixes singled out by [P], [net/len] with next hop [nh]
    is the longest one that covers the address [a]. *)
Definition longest_among (P : Z -> Z -> Z -> Prop) (W : Z) (a : Z)
  (net len nh : Z) : Prop :=
  P net len nh /\ covers W net len a /\
  forall net' len' nh', P net' len' nh' -> covers W net' len' a -> len' <= len.

(** The address a wrapper makes of its [addr] argument. *)
Definition address_of4 `{Ipaddress} (x : addr_arg) : option Z :=
  match x with
  | AddrObj a => Some a
  | AddrStr s =>
      match IPv4Address s with
      | Return a => Some a
      | Raise _ => None
      end
  end.

Definition address_of6 `{Ipaddress} (x : addr_arg) : option Z :=
  match x with
  | AddrObj a => Some a
  | AddrStr s =>
      match IPv6Address s with
      | Return a => Some a
      | Raise _ => None
      end
  end.

(** What a table over the modelled engine stores. *)
Definition stored {K} (t : table K Engine.lpm_trie) (net len nh : Z) : Prop :=
  Engine.lpm_routes (_trie t) !! (net, len) = Some nh.

(** The contract of the engine's batch call (spec, section 4.4): slot [i]
    of the output array receives the single lookup of address [i]. *)
Definition batch_as_single (K E : Type) `{LpmTrie K E} : Prop :=
  forall (ks : list K) (rs : list Z) (e : E),
    length rs = length ks ->
    trie_lookup_batch ks rs e = map (fun k => trie_lookup k e) ks.

(** ** Example tables

    The scenarios of the tests and of the spec, over the modelled engine
    and the textual forms read by [Text]. *)

Module Examples.
Import Engine Text.

Definition new4 : table Z lpm_trie :=
  {| _trie := lpm_new "dir24"; _closed := false; engine_calls := [] |}.

Definition new6 : table (list byte) lpm_trie :=
  {| _trie := lpm_new "wide16"; _closed := false; engine_calls := [] |}.

(** [test_lookup_longest_prefix_match] of [test_ipv4.py] *)
Definition scenario4 : list update :=
  [Insert (PrefixStr "192.168.0.0/16") 16;
   Insert (PrefixStr "192.168.1.0/24") 24;
   Insert (PrefixStr "192.168.1.128/25") 25].

(** [test_batch_lookup_longest_prefix] of [test_batch.py] (IPv6) *)
Definition scenario6 : list update :=
  [Insert (PrefixStr "2001:db8::/32") 32;
   Insert (PrefixStr "2001:db8:1::/48") 48].

Definition table4 : table Z lpm_trie := snd (for_each apply4 scenario4 new4).

Definition table6 : table (list byte) lpm_trie :=
  snd (for_each apply6 scenario6 new6).

(** A table on which the sentinel was inserted as a next hop. *)
Definition sentinel4 : table Z lpm_trie :=
  snd (LpmTableIPv4.insert (PrefixStr "10.0.0.0/8") 0xFFFFFFFF new4).

Definition sentinel6 : table (list byte) lpm_trie :=
  snd (LpmTableIPv6.insert (PrefixStr "fd00::/8") 0xFFFFFFFF new6).

Definition closed4 : table Z lpm_trie := snd (LpmTableIPv4.close table4).

Definition closed6 : table (list byte) lpm_trie :=
  snd (LpmTableIPv6.close table6).

End Examples.

(** ** [exceptions.py]: the classes and what they derive from *)

Module exceptions.

(** The classes of [exceptions.py], and the built-in ones they and the
    errors of [ipaddress] derive from. *)
Inductive exception_class :=
| Exception
| ValueError
| AddressValueError
| LpmError
| LpmInsertError
| LpmDeleteError
| LpmClosedError
| LpmInvalidPrefixError
| LpmMemoryError.

(** The class named in the [class] statement
    ([class LpmInsertError(LpmError)], ...); in [ipaddress],
    [class AddressValueError(ValueError)]. *)
Definition base (c : exception_class) : option exception_class :=
  match c with
  | Exception => None
  | ValueError => Some Exception
  | AddressValueError => Some ValueError
  | LpmError => Some Exception
  | LpmInsertError => Some LpmError
  | LpmDeleteError => Some LpmError
  | LpmClosedError => Some LpmError
  | LpmInvalidPrefixError => Some LpmError
  | LpmMemoryError => Some LpmError
  end.

Definition same_class (c d : exception_class) : bool :=
  match c, d with
  | Exception, Exception | ValueError, ValueError
  | AddressValueError, AddressValueError | LpmError, LpmError
  | LpmInsertError, LpmInsertError | LpmDeleteError, LpmDeleteError
  | LpmClosedError, LpmClosedError
  | LpmInvalidPrefixError, LpmInvalidPrefixError
  | LpmMemoryError, LpmMemoryError => true
  | _, _ => false
  end.

(** [c] and the classes above it, nearest first; [n] bounds the climb. *)
Fixpoint mro (n : nat) (c : exception_class) : list exception_class :=
  c :: match n, base c with
       | S n', Some b => mro n' b
       | _, _ => []
       end.

(** [issubclass(c, d)] *)
Definition issubclass (c d : exception_class) : bool :=
  existsb (same_class d) (mro 3 c).

End exceptions.

(** The class of a raised exception. *)
Definition type_of (e : exn) : exceptions.exception_class :=
  match e with
  | LpmClosedError => exceptions.LpmClosedError
  | LpmInsertError => exceptions.LpmInsertError
  | LpmDeleteError => exceptions.LpmDeleteError
  | LpmInvalidPrefixError => exceptions.LpmInvalidPrefixError
  | ValueError => exceptions.ValueError
  | AddressValueError => exceptions.AddressValueError
  end.

(** [isinstance(e, c)]: what an [except c] clause catches. *)
Definition isinstance (e : exn) (c : exceptions.exception_class) : bool :=
  exceptions.issubclass (type_of e) c.

(** An outcome that a handler [except LpmError] lets through. *)
Definition escapes_LpmError {A} (r : result A) : Prop :=
  exists e, r = Raise e /\ isinstance e exceptions.LpmError = false.

(** ** The [with] statement and sequences of calls *)

(** [with self as x: body], for a context manager given by its
    [__enter__] and [__exit__] (PEP 343).  [__exit__] runs whether the body
    returns or raises; an exception of the body is raised again unless
    [__exit__] returns a true value, and the block then has no value
    ([None]). *)
Definition with_ {S A} (enter : Py S unit) (exit : option exn -> Py S bool)
  (body : Py S A) : Py S (option A) :=
  fun s =>
    match enter s with
    | (Raise e, s1) => (Raise e, s1)
    | (Return _, s1) =>
        match body s1 with
        | (Return a, s2) =>
            match exit None s2 with
            | (Return _, s3) => (Return (Some a), s3)
            | (Raise e, s3) => (Raise e, s3)
            end
        | (Raise e, s2) =>
            match exit (Some e) s2 with
            | (Return true, s3) => (Return None, s3)
            | (Return false, s3) => (Raise e, s3)
            | (Raise e', s3) => (Raise e', s3)
            end
        end
    end.

(** A method call whose value is dropped. *)
Definition void {S A} (m : Py S A) : Py S unit := (m ;;; ret tt)%py.

(** The calls a user makes on a table. *)
Inductive method_call :=
| MInsert (prefix : prefix_arg) (next_hop : Z)
| MDelete (prefix : prefix_arg)
| MLookup (addr : addr_arg)
| MLookupBatch (addrs : list addr_arg)
| MClose
| MEnter
| MExit (exc : option exn).

Definition call4 `{Ipaddress} `{LpmTrie Z E} (c : method_call)
  : Py (table Z E) unit :=
  match c with
  | MInsert p nh => LpmTableIPv4.insert p nh
  | MDelete p => LpmTableIPv4.delete p
  | MLookup a => void (LpmTableIPv4.lookup a)
  | MLookupBatch l => void (LpmTableIPv4.lookup_batch l)
  | MClose => LpmTableIPv4.close
  | MEnter => LpmTableIPv4.__enter__
  | MExit exc => void (LpmTableIPv4.__exit__ exc)
  end.

Definition call6 `{Ipaddress} `{LpmTrie (list byte) E} (c : method_call)
  : Py (table (list byte) E) unit :=
  match c with
  | MInsert p nh => LpmTableIPv6.insert p nh
  | MDelete p => LpmTableIPv6.delete p
  | MLookup a => void (LpmTableIPv6.lookup a)
  | MLookupBatch l => void (LpmTableIPv6.lookup_batch l)
  | MClose => LpmTableIPv6.close
  | MEnter => LpmTableIPv6.__enter__
  | MExit exc => void (LpmTableIPv6.__exit__ exc)
  end.

(** The calls that close a table: [close()] itself, and leaving a
    [with] block. *)
Definition closes (c : method_call) : bool :=
  match c with
  | MClose | MExit _ => true
  | _ => false
  end.

(** The object after a sequence of calls made by a caller who goes on
    after an exception (each call in a [try] of its own). *)
Fixpoint run {S C} (f : C -> Py S unit) (cs : list C) (s : S) : S :=
  match cs with
  | [] => s
  | c :: cs' => run f cs' (snd (f c s))
  end.

(** How a table may use its engine: nothing is called on it once it has
    been closed, and it is closed once.  On an open table no [close] has
    been made; on a closed one the [close] is the last call of all. *)
Definition engine_protocol {K E} (t : table K E) : Prop :=
  if _closed t then
    exists calls, engine_calls t = calls ++ [CallClose] /\ CallClose ∉ calls
  else CallClose ∉ engine_calls t.

(** A session on a table, with calls after the close and bad arguments. *)
Module Sessions.

Definition session4 : list method_call :=
  [MEnter;
   MInsert (PrefixStr "10.0.0.0/8") 1;
   MInsert (PrefixStr "10.1.0.0/16") (-1);
   MInsert PrefixOther 2;
   MLookup (AddrStr "10.1.2.3");
   MLookup (AddrStr "10.1.2");
   MLookupBatch [AddrStr "10.1.2.3"; AddrObj 1];
   MDelete (PrefixStr "10.0.0.0/8");
   MDelete (PrefixStr "10.0.0.0/8");
   MExit None;
   MLookup (AddrStr "10.1.2.3");
   MInsert (PrefixStr "10.0.0.0/8") 1;
   MClose].

Definition session6 : list method_call :=
  [MEnter;
   MInsert (PrefixStr "2001:db8::/32") 1;
   MInsert (PrefixStr "2001:db8::/129") 2;
   MLookup (AddrStr "2001:db8::1");
   MLookup (AddrStr "2001:db8:::1");
   MLookupBatch [AddrStr "2001:db8::1"; AddrObj 1];
   MDelete (PrefixStr "2001:db8::/32");
   MExit (Some ValueError);
   MLookup (AddrStr "2001:db8::1");
   MClose].

End Sessions.

(** ** [examples/batch_lookup.py]: the generators of test data *)

Module batch_lookup.

(** [range(n)] *)
Definition range (n : Z) : list Z := map Z.of_nat (seq 0 (Z.to_nat n)).

(** [str(n)] of an [int], as an f-string shows it. *)
Definition str (n : Z) : string := NilZero.string_of_int (Z.to_int n).

(** A [for] loop over [xs] inside a function.  Its body goes on with the
    new value of the variables ([inr]), returns from the function ([inl])
    or raises; the loop stops at the first body that does not go on. *)
Fixpoint for_in {X R A} (xs : list X) (body : X -> A -> result (R + A))
  (a : A) : result (R + A) :=
  match xs with
  | [] => Return (inr a)
  | x :: xs' =>
      match body x a with
      | Return (inr a') => for_in xs' body a'
      | r => r
      end
  end.

(** The value of a function that ends, after its loops, with a [return]
    of the variable the loops return as well. *)
Definition returned {A} (r : result (A + A)) : result A :=
  match r with
  | Return (inl a) | Return (inr a) => Return a
  | Raise e => Raise e
  end.

Definition generate_test_routes (count : Z) : result (list (string * Z)) :=
  let routes := [] in
  returned
    (for_in (range (Z.min count 256)) (fun i routes =>
       for_in (range (Z.min (count / 256 + 1) 256)) (fun j routes =>
         let prefix := str i +:+ "." +:+ str j +:+ ".0.0/16" in
         let next_hop := i * 256 + j in
         let routes := routes ++ [(prefix, next_hop)] in
         if Z.of_nat (length routes) >=? count then Return (inl routes)
         else Return (inr routes)) routes) routes).

Definition generate_test_addresses `{Ipaddress} (count : Z)
  : result (list Z) :=
  let addresses := [] in
  returned
    (for_in (range 256) (fun i addresses =>
       for_in (range 256) (fun j addresses =>
         for_in (range (count / 65536 + 1)) (fun k addresses =>
           match IPv4Address
                   (str i +:+ "." +:+ str j +:+ "." +:+ str k +:+ ".1") with
           | Raise e => Raise e
           | Return addr =>
               let addresses := addresses ++ [addr] in
               if Z.of_nat (length addresses) >=? count
               then Return (inl addresses)
               else Return (inr addresses)
           end) addresses) addresses) addresses).

(** The loop of [compare_single_vs_batch] that loads the table,
    [for prefix, next_hop in routes: table.insert(prefix, next_hop)]. *)
Definition insert_routes `{Ipaddress} `{LpmTrie Z E}
  (routes : list (string * Z)) : Py (table Z E) unit :=
  for_each (fun '(prefix, next_hop) =>
              LpmTableIPv4.insert (PrefixStr prefix) next_hop) routes.

End batch_lookup.

(** [l.append(v)] followed by [if len(l) >= count: return l], the end of
    the loop bodies of both generators. *)
Definition append_and_check {V} (count : Z) (v : V) (l : list V)
  : result (list V + list V) :=
  let l := l ++ [v] in
  if Z.of_nat (length l) >=? count then Return (inl l) else Return (inr l).

(** A piece of code [B] appends the items [vs], one at a time, to a list
    of fewer than [count] items, and returns the list from the function as
    soon as it holds [count] of them. *)
Definition appends {V} (count : Z) (B : list V -> result (list V + list V))
  (vs : list V) : Prop :=
  forall acc, Z.of_nat (length acc) < count ->
    B acc = if Z.of_nat (length acc + length vs) >=? count
            then Return (inl (acc ++ take (Z.to_nat count - length acc) vs))
            else Return (inr (acc ++ vs)).

(** The dotted quad of four octets, as an integer. *)
Definition quad (a b c d : Z) : Z := ((a * 256 + b) * 256 + c) * 256 + d.

(** The grid the loops of [generate_test_routes] walk through. *)
Definition route_grid (count : Z) : list (string * Z) :=
  batch_lookup.range (Z.min count 256) ≫= fun i =>
  batch_lookup.range (Z.min (count / 256 + 1) 256) ≫= fun j =>
  [(batch_lookup.str i +:+ "." +:+ batch_lookup.str j +:+ ".0.0/16", i * 256 + j)].

(** The grid the loops of [generate_test_addresses] walk through. *)
Definition address_grid (count : Z) : list Z :=
  batch_lookup.range 256 ≫= fun i =>
  batch_lookup.range 256 ≫= fun j =>
  batch_lookup.range (count / 65536 + 1) ≫= fun k => [quad i j k 1].

(** The routes an engine holds after the inserts of a list of generated
    routes: each next hop under the key of its network, of length 16. *)
Definition route_map (routes : list (string * Z)) : gmap (Z * Z) Z :=
  foldl (fun R r => <[(r.2 * 65536, 16) := r.2]> R) ∅ routes.

(** What a table loaded with the routes answers for the address [a]. *)
Definition served (routes : list (string * Z)) (a : Z) : option Z :=
  if decide (a / 65536 ∈ routes.*2) then Some (a / 65536) else None.

(** A string without the character [c]. *)
Fixpoint free_of (c : ascii) (s : string) : bool :=
  match s with
  | EmptyString => true
  | String x s' => negb (Ascii.eqb x c) && free_of c s'
  end.

(** Unfolding of the method combinators. *)
Ltac py_unfold :=
  unfold bind, get, ret, raise, lift, call_add, call_delete, call_lookup,
    call_lookup_batch, call_close, set_closed; simpl.

(** The cases of a membership in an explicit list. *)
Ltac scenario_cases Hin :=
  repeat (apply elem_of_cons in Hin as [Hin|Hin]);
  [..|apply elem_of_nil in Hin; destruct Hin].

(** * Properties *)

(** ** Bytes and masks *)

Lemma Z_of_byte_of_Z z : Z_of_byte (byte_of_Z z) = z mod 256.
Proof.
  unfold Z_of_byte, byte_of_Z.
  assert (Hr : 0 <= z mod 256 < 256) by (apply Z.mod_pos_bound; lia).
  destruct (Byte.of_N (Z.to_N (z mod 256))) as [b|] eqn:Hb.
  - apply Byte.to_of_N in Hb. rewrite Hb. lia.
  - apply Byte.of_N_None_iff in Hb. lia.
Qed.

Lemma int_from_bytes_snoc bs b :
  int_from_bytes (bs ++ [b]) = int_from_bytes bs * 256 + Z_of_byte b.
Proof. unfold int_from_bytes. by rewrite fold_left_app. Qed.

Lemma int_from_to_bytes n z :
  int_from_bytes (int_to_bytes n z) = z mod 256 ^ Z.of_nat n.
Proof.
  revert z. induction n as [|n IH]; intros z.
  - simpl. by rewrite Z.mod_1_r.
  - cbn [int_to_bytes]. rewrite int_from_bytes_snoc, IH, Z_of_byte_of_Z.
    rewrite Nat2Z.inj_succ, Z.pow_succ_r by lia.
    rewrite Z.rem_mul_r by lia. lia.
Qed.

Lemma int_from_to_bytes_small n z :
  0 <= z < 2 ^ (8 * Z.of_nat n) ->
  int_from_bytes (int_to_bytes n z) = z.
Proof.
  intros Hz. rewrite int_from_to_bytes.
  replace (256 ^ Z.of_nat n) with (2 ^ (8 * Z.of_nat n)).
  - by apply Z.mod_small.
  - rewrite Z.pow_mul_r by lia. reflexivity.
Qed.

Lemma ALL_ONES_ones W : 0 <= W -> _ALL_ONES W = Z.ones W.
Proof. intros HW. unfold _ALL_ONES. rewrite Z.ones_equiv. lia. Qed.

Lemma testbit_above W a i : 0 <= a < 2 ^ W -> W <= i -> Z.testbit a i = false.
Proof.
  intros Ha Hi. destruct (Z_lt_le_dec W 0) as [HW|HW].
  - rewrite Z.pow_neg_r in Ha by lia. lia.
  - rewrite <- (Z.mod_small a (2 ^ W)) by lia.
    apply Z.mod_pow2_bits_high. lia.
Qed.

Lemma netmask_testbit W len i :
  0 <= len <= W -> 0 <= i ->
  Z.testbit (_ip_int_from_prefix W len) i = (W - len <=? i) && (i <? W).
Proof.
  intros Hl Hi. unfold _ip_int_from_prefix. rewrite ALL_ONES_ones by lia.
  rewrite Z.lxor_spec, Z.shiftr_spec by lia.
  rewrite !Z.testbit_ones by lia.
  destruct (W - len <=? i) eqn:H1, (i <? W) eqn:H2,
    (0 <=? i) eqn:H3, (0 <=? i + len) eqn:H4, (i + len <? W) eqn:H5;
    simpl; try reflexivity; lia.
Qed.

Lemma masked_range W a len :
  0 <= a < 2 ^ W -> 0 <= len <= W ->
  0 <= Z.land a (_ip_int_from_prefix W len) < 2 ^ W.
Proof.
  intros Ha Hl.
  assert (Hnn : 0 <= Z.land a (_ip_int_from_prefix W len))
    by (apply Z.land_nonneg; lia).
  split; [done|].
  assert (Heq : Z.land a (_ip_int_from_prefix W len)
                = Z.land a (_ip_int_from_prefix W len) mod 2 ^ W).
  { apply Z.bits_inj'. intros i Hi.
    destruct (Z_lt_le_dec i W) as [Hlt|Hge].
    - by rewrite Z.mod_pow2_bits_low by lia.
    - rewrite Z.mod_pow2_bits_high by lia.
      rewrite Z.land_spec, (testbit_above W a i) by lia. done. }
  rewrite Heq. apply Z.mod_pos_bound. lia.
Qed.

Lemma masked_idempotent a m : Z.land (Z.land a m) m = Z.land a m.
Proof. by rewrite <- Z.land_assoc, Z.land_diag. Qed.

Lemma masked_host_bits_zero W a len :
  0 <= len <= W ->
  host_bits_zero W (Z.land a (_ip_int_from_prefix W len)) len.
Proof.
  intros Hl i Hi. rewrite Z.land_spec, netmask_testbit by lia.
  destruct (W - len <=? i) eqn:H1; [lia|]. by rewrite andb_false_r.
Qed.

Lemma masked_truncate W a len :
  0 <= a < 2 ^ W -> 0 <= len <= W ->
  Z.land a (_ip_int_from_prefix W len) = Engine.truncate W a len.
Proof.
  intros Ha Hl. unfold Engine.truncate. apply Z.bits_inj'. intros i Hi.
  rewrite Z.land_spec, netmask_testbit, Z.shiftl_spec by lia.
  destruct (Z_lt_le_dec i (W - len)) as [Hlt|Hge].
  - rewrite (Z.testbit_neg_r _ (i - (W - len))) by lia.
    destruct (W - len <=? i) eqn:H1; [lia|]. by rewrite andb_false_r.
  - rewrite Z.shiftr_spec by lia. replace (i - (W - len) + (W - len)) with i by lia.
    destruct (W - len <=? i) eqn:H1; [|lia].
    destruct (i <? W) eqn:H2; simpl; [by rewrite andb_true_r|].
    rewrite (testbit_above W a i) by lia. done.
Qed.

Lemma make_network_masks W addr plen :
  0 <= addr < 2 ^ W -> 0 <= plen <= W ->
  make_network W addr plen false
  = Return {| network_address := Z.land addr (_ip_int_from_prefix W plen);
              prefixlen := plen |}.
Proof.
  intros Ha Hl. unfold make_network, _ALL_ONES.
  destruct (0 <=? addr) eqn:H1; [|lia].
  destruct (addr <=? 2 ^ W - 1) eqn:H2; [|lia].
  destruct (0 <=? plen) eqn:H3; [|lia].
  destruct (plen <=? W) eqn:H4; [|lia]. simpl.
  destruct (Z.land addr (_ip_int_from_prefix W plen) =? addr) eqn:H5; simpl.
  - apply Z.eqb_eq in H5. by rewrite H5.
  - done.
Qed.

Lemma make_network_valid W addr plen strict n :
  make_network W addr plen strict = Return n -> valid_network W n.
Proof.
  unfold make_network, _ALL_ONES.
  destruct (0 <=? addr) eqn:H1; [|discriminate].
  destruct (addr <=? 2 ^ W - 1) eqn:H2; [|discriminate].
  destruct (0 <=? plen) eqn:H3; [|discriminate].
  destruct (plen <=? W) eqn:H4; [|discriminate]. simpl.
  assert (Ha : 0 <= addr < 2 ^ W) by lia.
  assert (Hl : 0 <= plen <= W) by lia.
  destruct (Z.land addr (_ip_int_from_prefix W plen) =? addr) eqn:H5; simpl.
  - apply Z.eqb_eq in H5. intros [= <-]. by repeat split; simpl; try lia.
  - destruct strict; [discriminate|]. intros [= <-].
    repeat split; simpl; try lia; try apply masked_range; try done.
    apply masked_idempotent.
Qed.

Lemma make_address_valid W a r :
  make_address W a = Return r -> r = a /\ valid_address W a.
Proof.
  unfold make_address, _ALL_ONES, valid_address.
  destruct (0 <=? a) eqn:H1; [|discriminate].
  destruct (a <=? 2 ^ W - 1) eqn:H2; [|discriminate]. simpl.
  intros [= <-]. split; [done|lia].
Qed.

Section Wrapper.
Context `{Ipaddress} {E4 E6 : Type}.
Context `{LpmTrie Z E4} `{LpmTrie (list byte) E6}.

Lemma insert4_closed (t : table Z E4) p nh :
  _closed t = true -> LpmTableIPv4.insert p nh t = (Raise LpmClosedError, t).
Proof. intros Hc. unfold LpmTableIPv4.insert, bind, get. simpl. by rewrite Hc. Qed.

Lemma delete4_closed (t : table Z E4) p :
  _closed t = true -> LpmTableIPv4.delete p t = (Raise LpmClosedError, t).
Proof. intros Hc. unfold LpmTableIPv4.delete, bind, get. simpl. by rewrite Hc. Qed.

Lemma lookup4_closed (t : table Z E4) a :
  _closed t = true -> LpmTableIPv4.lookup a t = (Raise LpmClosedError, t).
Proof. intros Hc. unfold LpmTableIPv4.lookup, bind, get. simpl. by rewrite Hc. Qed.

Lemma lookup_batch4_closed (t : table Z E4) l :
  _closed t = true ->
  LpmTableIPv4.lookup_batch l t = (Raise LpmClosedError, t).
Proof.
  intros Hc. unfold LpmTableIPv4.lookup_batch, bind, get. simpl. by rewrite Hc.
Qed.

Lemma insert6_closed (t : table (list byte) E6) p nh :
  _closed t = true -> LpmTableIPv6.insert p nh t = (Raise LpmClosedError, t).
Proof. intros Hc. unfold LpmTableIPv6.insert, bind, get. simpl. by rewrite Hc. Qed.

Lemma delete6_closed (t : table (list byte) E6) p :
  _closed t = true -> LpmTableIPv6.delete p t = (Raise LpmClosedError, t).
Proof. intros Hc. unfold LpmTableIPv6.delete, bind, get. simpl. by rewrite Hc. Qed.

Lemma lookup6_closed (t : table (list byte) E6) a :
  _closed t = true -> LpmTableIPv6.lookup a t = (Raise LpmClosedError, t).
Proof. intros Hc. unfold LpmTableIPv6.lookup, bind, get. simpl. by rewrite Hc. Qed.

Lemma lookup_batch6_closed (t : table (list byte) E6) l :
  _closed t = true ->
  LpmTableIPv6.lookup_batch l t = (Raise LpmClosedError, t).
Proof.
  intros Hc. unfold LpmTableIPv6.lookup_batch, bind, get. simpl. by rewrite Hc.
Qed.

Lemma close4_sets_closed (t : table Z E4) :
  fst (LpmTableIPv4.close t) = Return tt /\
  _closed (snd (LpmTableIPv4.close t)) = true.
Proof.
  unfold LpmTableIPv4.close, bind, get. simpl.
  destruct (_closed t) eqn:Hc; simpl; auto.
Qed.

Lemma close6_sets_closed (t : table (list byte) E6) :
  fst (LpmTableIPv6.close t) = Return tt /\
  _closed (snd (LpmTableIPv6.close t)) = true.
Proof.
  unfold LpmTableIPv6.close, bind, get. simpl.
  destruct (_closed t) eqn:Hc; simpl; auto.
Qed.

Lemma close4_closed (t : table Z E4) :
  _closed t = true -> LpmTableIPv4.close t = (Return tt, t).
Proof. intros Hc. unfold LpmTableIPv4.close, bind, get. simpl. by rewrite Hc. Qed.

Lemma close6_closed (t : table (list byte) E6) :
  _closed t = true -> LpmTableIPv6.close t = (Return tt, t).
Proof. intros Hc. unfold LpmTableIPv6.close, bind, get. simpl. by rewrite Hc. Qed.

(** C6.  Once [close()] has been called, the table is closed, and on a
    closed table each of [insert], [delete], [lookup] and [lookup_batch]
    raises [LpmClosedError] and leaves the table as it was: slots, engine
    state and the record of engine calls are unchanged, so no call
    reaches the engine.  This holds for both classes and any engine. *)
Theorem closed_table_rejects_operations :
  (forall t : table Z E4, _closed (snd (LpmTableIPv4.close t)) = true) /\
  (forall t : table (list byte) E6,
      _closed (snd (LpmTableIPv6.close t)) = true) /\
  (forall (t : table Z E4) prefix next_hop addr addrs,
      LpmTableIPv4.closed t = true ->
      LpmTableIPv4.insert prefix next_hop t = (Raise LpmClosedError, t) /\
      LpmTableIPv4.delete prefix t = (Raise LpmClosedError, t) /\
      LpmTableIPv4.lookup addr t = (Raise LpmClosedError, t) /\
      LpmTableIPv4.lookup_batch addrs t = (Raise LpmClosedError, t)) /\
  (forall (t : table (list byte) E6) prefix next_hop addr addrs,
      LpmTableIPv6.closed t = true ->
      LpmTableIPv6.insert prefix next_hop t = (Raise LpmClosedError, t) /\
      LpmTableIPv6.delete prefix t = (Raise LpmClosedError, t) /\
      LpmTableIPv6.lookup addr t = (Raise LpmClosedError, t) /\
      LpmTableIPv6.lookup_batch addrs t = (Raise LpmClosedError, t)).
Proof.
  split; [intros t; apply close4_sets_closed|].
  split; [intros t; apply close6_sets_closed|].
  split.
  - intros t p nh a l Hc. unfold LpmTableIPv4.closed in Hc.
    auto using insert4_closed, delete4_closed, lookup4_closed,
      lookup_batch4_closed.
  - intros t p nh a l Hc. unfold LpmTableIPv6.closed in Hc.
    auto using insert6_closed, delete6_closed, lookup6_closed,
      lookup_batch6_closed.
Qed.

(** C7.  [close()] is idempotent.  The first call returns without error
    and leaves the table closed; any number of further calls return
    without error and change nothing: the table, closed flag included,
    stays exactly as the first call left it, and the engine's [close] is
    not called again. *)
Theorem close_idempotent :
  (forall (t : table Z E4) (n : nat),
      let t1 := snd (LpmTableIPv4.close t) in
      fst (LpmTableIPv4.close t) = Return tt /\
      LpmTableIPv4.closed t1 = true /\
      LpmTableIPv4.close t1 = (Return tt, t1) /\
      Nat.iter n (fun s => snd (LpmTableIPv4.close s)) t1 = t1) /\
  (forall (t : table (list byte) E6) (n : nat),
      let t1 := snd (LpmTableIPv6.close t) in
      fst (LpmTableIPv6.close t) = Return tt /\
      LpmTableIPv6.closed t1 = true /\
      LpmTableIPv6.close t1 = (Return tt, t1) /\
      Nat.iter n (fun s => snd (LpmTableIPv6.close s)) t1 = t1).
Proof.
  split.
  - intros t n t1. destruct (close4_sets_closed t) as [Hr Hc].
    repeat split; auto.
    + by apply close4_closed.
    + induction n as [|n IH]; simpl; [done|].
      rewrite IH. subst t1. by rewrite close4_closed.
  - intros t n t1. destruct (close6_sets_closed t) as [Hr Hc].
    repeat split; auto.
    + by apply close6_closed.
    + induction n as [|n IH]; simpl; [done|].
      rewrite IH. subst t1. by rewrite close6_closed.
Qed.

Lemma insert4_str (t : table Z E4) s n nh :
  IPv4Network s false = Return n ->
  LpmTableIPv4.insert (PrefixStr s) nh t
  = LpmTableIPv4.insert (PrefixNet n) nh t.
Proof.
  intros Hn. unfold LpmTableIPv4.insert. py_unfold.
  destruct (_closed t); [done|].
  destruct (negb ((0 <=? nh) && (nh <=? 4294967295))); [done|].
  by rewrite Hn.
Qed.

Lemma insert6_str (t : table (list byte) E6) s n nh :
  IPv6Network s false = Return n ->
  LpmTableIPv6.insert (PrefixStr s) nh t
  = LpmTableIPv6.insert (PrefixNet n) nh t.
Proof.
  intros Hn. unfold LpmTableIPv6.insert. py_unfold.
  destruct (_closed t); [done|].
  destruct (negb ((0 <=? nh) && (nh <=? 4294967295))); [done|].
  by rewrite Hn.
Qed.

Lemma delete4_str (t : table Z E4) s n :
  IPv4Network s false = Return n ->
  LpmTableIPv4.delete (PrefixStr s) t = LpmTableIPv4.delete (PrefixNet n) t.
Proof.
  intros Hn. unfold LpmTableIPv4.delete. py_unfold.
  destruct (_closed t); [done|]. by rewrite Hn.
Qed.

Lemma delete6_str (t : table (list byte) E6) s n :
  IPv6Network s false = Return n ->
  LpmTableIPv6.delete (PrefixStr s) t = LpmTableIPv6.delete (PrefixNet n) t.
Proof.
  intros Hn. unfold LpmTableIPv6.delete. py_unfold.
  destruct (_closed t); [done|]. by rewrite Hn.
Qed.

Lemma next_hop_in_range nh :
  negb ((0 <=? nh) && (nh <=? 4294967295)) = false <-> 0 <= nh <= 0xFFFFFFFF.
Proof.
  rewrite negb_false_iff, andb_true_iff, Z.leb_le, Z.leb_le. reflexivity.
Qed.

Lemma insert4_net (t : table Z E4) n nh :
  _closed t = false -> 0 <= nh <= 0xFFFFFFFF ->
  LpmTableIPv4.insert (PrefixNet n) nh t
  = (if fst (trie_add (LpmTableIPv4.packed (network_address n))
               (prefixlen n) nh (_trie t)) =? 0
     then Return tt else Raise LpmInsertError,
     log (CallAdd (LpmTableIPv4.packed (network_address n)) (prefixlen n) nh)
       (snd (trie_add (LpmTableIPv4.packed (network_address n))
               (prefixlen n) nh (_trie t))) t).
Proof.
  intros Hc Hnh. apply next_hop_in_range in Hnh.
  unfold LpmTableIPv4.insert. py_unfold. rewrite Hc, Hnh.
  destruct (trie_add _ _ _ _) as [r e]. simpl. by destruct (r =? 0).
Qed.

Lemma insert6_net (t : table (list byte) E6) n nh :
  _closed t = false -> 0 <= nh <= 0xFFFFFFFF ->
  LpmTableIPv6.insert (PrefixNet n) nh t
  = (if fst (trie_add (LpmTableIPv6.packed (network_address n))
               (prefixlen n) nh (_trie t)) =? 0
     then Return tt else Raise LpmInsertError,
     log (CallAdd (LpmTableIPv6.packed (network_address n)) (prefixlen n) nh)
       (snd (trie_add (LpmTableIPv6.packed (network_address n))
               (prefixlen n) nh (_trie t))) t).
Proof.
  intros Hc Hnh. apply next_hop_in_range in Hnh.
  unfold LpmTableIPv6.insert. py_unfold. rewrite Hc, Hnh.
  destruct (trie_add _ _ _ _) as [r e]. simpl. by destruct (r =? 0).
Qed.

Lemma delete4_net (t : table Z E4) n :
  _closed t = false ->
  LpmTableIPv4.delete (PrefixNet n) t
  = (if fst (trie_delete (LpmTableIPv4.packed (network_address n))
               (prefixlen n) (_trie t)) =? 0
     then Return tt else Raise LpmDeleteError,
     log (CallDelete (LpmTableIPv4.packed (network_address n)) (prefixlen n))
       (snd (trie_delete (LpmTableIPv4.packed (network_address n))
               (prefixlen n) (_trie t))) t).
Proof.
  intros Hc. unfold LpmTableIPv4.delete. py_unfold. rewrite Hc.
  destruct (trie_delete _ _ _) as [r e]. simpl. by destruct (r =? 0).
Qed.

Lemma delete6_net (t : table (list byte) E6) n :
  _closed t = false ->
  LpmTableIPv6.delete (PrefixNet n) t
  = (if fst (trie_delete (LpmTableIPv6.packed (network_address n))
               (prefixlen n) (_trie t)) =? 0
     then Return tt else Raise LpmDeleteError,
     log (CallDelete (LpmTableIPv6.packed (network_address n)) (prefixlen n))
       (snd (trie_delete (LpmTableIPv6.packed (network_address n))
               (prefixlen n) (_trie t))) t).
Proof.
  intros Hc. unfold LpmTableIPv6.delete. py_unfold. rewrite Hc.
  destruct (trie_delete _ _ _) as [r e]. simpl. by destruct (r =? 0).
Qed.

Lemma insert4_network_of (t : table Z E4) p n nh :
  network_of4 p = Some n ->
  LpmTableIPv4.insert p nh t = LpmTableIPv4.insert (PrefixNet n) nh t.
Proof.
  destruct p as [m|s|]; simpl; [by intros [= ->]| |done].
  destruct (IPv4Network s false) as [m|e] eqn:Hs; [|done].
  intros [= ->]. by apply insert4_str.
Qed.

Lemma insert6_network_of (t : table (list byte) E6) p n nh :
  network_of6 p = Some n ->
  LpmTableIPv6.insert p nh t = LpmTableIPv6.insert (PrefixNet n) nh t.
Proof.
  destruct p as [m|s|]; simpl; [by intros [= ->]| |done].
  destruct (IPv6Network s false) as [m|e] eqn:Hs; [|done].
  intros [= ->]. by apply insert6_str.
Qed.

Lemma delete4_network_of (t : table Z E4) p n :
  network_of4 p = Some n ->
  LpmTableIPv4.delete p t = LpmTableIPv4.delete (PrefixNet n) t.
Proof.
  destruct p as [m|s|]; simpl; [by intros [= ->]| |done].
  destruct (IPv4Network s false) as [m|e] eqn:Hs; [|done].
  intros [= ->]. by apply delete4_str.
Qed.

Lemma delete6_network_of (t : table (list byte) E6) p n :
  network_of6 p = Some n ->
  LpmTableIPv6.delete p t = LpmTableIPv6.delete (PrefixNet n) t.
Proof.
  destruct p as [m|s|]; simpl; [by intros [= ->]| |done].
  destruct (IPv6Network s false) as [m|e] eqn:Hs; [|done].
  intros [= ->]. by apply delete6_str.
Qed.

Lemma insert4_no_network (t : table Z E4) p nh :
  _closed t = false -> 0 <= nh <= 0xFFFFFFFF -> network_of4 p = None ->
  LpmTableIPv4.insert p nh t = (Raise LpmInvalidPrefixError, t).
Proof.
  intros Hc Hnh Hp. apply next_hop_in_range in Hnh.
  unfold LpmTableIPv4.insert. py_unfold. rewrite Hc, Hnh.
  destruct p as [m|s|]; simpl in *; [done| |done].
  by destruct (IPv4Network s false).
Qed.

Lemma insert6_no_network (t : table (list byte) E6) p nh :
  _closed t = false -> 0 <= nh <= 0xFFFFFFFF -> network_of6 p = None ->
  LpmTableIPv6.insert p nh t = (Raise LpmInvalidPrefixError, t).
Proof.
  intros Hc Hnh Hp. apply next_hop_in_range in Hnh.
  unfold LpmTableIPv6.insert. py_unfold. rewrite Hc, Hnh.
  destruct p as [m|s|]; simpl in *; [done| |done].
  by destruct (IPv6Network s false).
Qed.

Lemma insert4_value_error (t : table Z E4) p nh :
  _closed t = false ->
  fst (LpmTableIPv4.insert p nh t) = Raise ValueError
  <-> ~ (0 <= nh <= 0xFFFFFFFF).
Proof.
  intros Hc. split.
  - intros Hr Hnh. destruct (network_of4 p) as [n|] eqn:Hp.
    + rewrite (insert4_network_of _ _ _ _ Hp), insert4_net in Hr by done.
      simpl in Hr. by destruct (_ =? 0).
    + by rewrite insert4_no_network in Hr.
  - intros Hnh. rewrite <- next_hop_in_range in Hnh.
    apply not_false_is_true in Hnh.
    unfold LpmTableIPv4.insert. py_unfold. by rewrite Hc, Hnh.
Qed.

Lemma insert6_value_error (t : table (list byte) E6) p nh :
  _closed t = false ->
  fst (LpmTableIPv6.insert p nh t) = Raise ValueError
  <-> ~ (0 <= nh <= 0xFFFFFFFF).
Proof.
  intros Hc. split.
  - intros Hr Hnh. destruct (network_of6 p) as [n|] eqn:Hp.
    + rewrite (insert6_network_of _ _ _ _ Hp), insert6_net in Hr by done.
      simpl in Hr. by destruct (_ =? 0).
    + by rewrite insert6_no_network in Hr.
  - intros Hnh. rewrite <- next_hop_in_range in Hnh.
    apply not_false_is_true in Hnh.
    unfold LpmTableIPv6.insert. py_unfold. by rewrite Hc, Hnh.
Qed.

(** *** Lookups *)

Lemma lookup4_open (t : table Z E4) addr k :
  _closed t = false -> LpmTableIPv4.addr_int_of addr = Return k ->
  LpmTableIPv4.lookup addr t
  = (Return (next_hop_or_None (trie_lookup k (_trie t))),
     log (CallLookup k) (_trie t) t).
Proof.
  intros Hc Hk. unfold LpmTableIPv4.lookup. py_unfold. by rewrite Hc, Hk.
Qed.

Lemma lookup6_open (t : table (list byte) E6) addr k :
  _closed t = false -> LpmTableIPv6.addr_bytes_of addr = Return k ->
  LpmTableIPv6.lookup addr t
  = (Return (next_hop_or_None (trie_lookup k (_trie t))),
     log (CallLookup k) (_trie t) t).
Proof.
  intros Hc Hk. unfold LpmTableIPv6.lookup. py_unfold. by rewrite Hc, Hk.
Qed.

Lemma lookup_batch4_open (t : table Z E4) addrs ks :
  _closed t = false -> addrs <> [] ->
  LpmTableIPv4.to_addr_array addrs = Return ks ->
  LpmTableIPv4.lookup_batch addrs t
  = (Return (map next_hop_or_None
               (trie_lookup_batch ks (replicate (length addrs) 0) (_trie t))),
     log (CallLookupBatch ks (replicate (length addrs) 0)) (_trie t) t).
Proof.
  intros Hc Hne Hk. unfold LpmTableIPv4.lookup_batch. py_unfold. rewrite Hc.
  destruct addrs as [|a addrs]; [done|]. by rewrite Hk.
Qed.

Lemma lookup_batch6_open (t : table (list byte) E6) addrs ks :
  _closed t = false -> addrs <> [] ->
  LpmTableIPv6.to_addr_list addrs = Return ks ->
  LpmTableIPv6.lookup_batch addrs t
  = (Return (map next_hop_or_None
               (trie_lookup_batch ks (replicate (length addrs) 0) (_trie t))),
     log (CallLookupBatch ks (replicate (length addrs) 0)) (_trie t) t).
Proof.
  intros Hc Hne Hk. unfold LpmTableIPv6.lookup_batch. py_unfold. rewrite Hc.
  destruct addrs as [|a addrs]; [done|]. by rewrite Hk.
Qed.

Lemma lookup_batch4_empty (t : table Z E4) :
  _closed t = false -> LpmTableIPv4.lookup_batch [] t = (Return [], t).
Proof. intros Hc. unfold LpmTableIPv4.lookup_batch. py_unfold. by rewrite Hc. Qed.

Lemma lookup_batch6_empty (t : table (list byte) E6) :
  _closed t = false -> LpmTableIPv6.lookup_batch [] t = (Return [], t).
Proof. intros Hc. unfold LpmTableIPv6.lookup_batch. py_unfold. by rewrite Hc. Qed.

Lemma next_hop_or_None_sentinel r :
  next_hop_or_None r <> Some 0xFFFFFFFF.
Proof.
  unfold next_hop_or_None, INVALID_NEXT_HOP.
  destruct (r =? 4294967295) eqn:Hr; simpl; [done|].
  intros [= ->]. by rewrite Z.eqb_refl in Hr.
Qed.

Lemma next_hop_or_None_None r :
  next_hop_or_None r = None <-> r = INVALID_NEXT_HOP.
Proof.
  unfold next_hop_or_None.
  destruct (r =? INVALID_NEXT_HOP) eqn:Hr; simpl.
  - apply Z.eqb_eq in Hr. by split.
  - apply Z.eqb_neq in Hr. by split.
Qed.

Lemma next_hop_or_None_Some r :
  r <> INVALID_NEXT_HOP -> next_hop_or_None r = Some r.
Proof.
  intros Hr. unfold next_hop_or_None. apply Z.eqb_neq in Hr. by rewrite Hr.
Qed.

Lemma lookup4_result (t : table Z E4) addr o :
  fst (LpmTableIPv4.lookup addr t) = Return o ->
  exists k, LpmTableIPv4.addr_int_of addr = Return k /\
            o = next_hop_or_None (trie_lookup k (_trie t)).
Proof.
  unfold LpmTableIPv4.lookup. py_unfold.
  destruct (_closed t); [done|].
  destruct (LpmTableIPv4.addr_int_of addr) as [k|e]; [|done].
  simpl. intros [= <-]. by exists k.
Qed.

Lemma lookup6_result (t : table (list byte) E6) addr o :
  fst (LpmTableIPv6.lookup addr t) = Return o ->
  exists k, LpmTableIPv6.addr_bytes_of addr = Return k /\
            o = next_hop_or_None (trie_lookup k (_trie t)).
Proof.
  unfold LpmTableIPv6.lookup. py_unfold.
  destruct (_closed t); [done|].
  destruct (LpmTableIPv6.addr_bytes_of addr) as [k|e]; [|done].
  simpl. intros [= <-]. by exists k.
Qed.

Lemma lookup_batch4_result (t : table Z E4) addrs rs :
  fst (LpmTableIPv4.lookup_batch addrs t) = Return rs ->
  exists out, rs = map next_hop_or_None out.
Proof.
  unfold LpmTableIPv4.lookup_batch. py_unfold.
  destruct (_closed t); [done|].
  destruct addrs as [|a addrs]; [intros [= <-]; by exists []|].
  destruct (LpmTableIPv4.to_addr_array (a :: addrs)) as [ks|e]; [|done].
  simpl. intros [= <-]. eauto.
Qed.

Lemma lookup_batch6_result (t : table (list byte) E6) addrs rs :
  fst (LpmTableIPv6.lookup_batch addrs t) = Return rs ->
  exists out, rs = map next_hop_or_None out.
Proof.
  unfold LpmTableIPv6.lookup_batch. py_unfold.
  destruct (_closed t); [done|].
  destruct addrs as [|a addrs]; [intros [= <-]; by exists []|].
  destruct (LpmTableIPv6.to_addr_list (a :: addrs)) as [ks|e]; [|done].
  simpl. intros [= <-]. eauto.
Qed.

Lemma map_next_hop_no_sentinel out :
  Some 0xFFFFFFFF ∉ map next_hop_or_None out.
Proof.
  intros Hin. apply list_elem_of_fmap in Hin as (r & Hr & _).
  symmetry in Hr. by apply next_hop_or_None_sentinel in Hr.
Qed.

(** C10.  [lookup] and [lookup_batch] never return the integer
    0xFFFFFFFF.  On an open table the result of [lookup] is the engine's
    answer [r] passed through [r if r != INVALID_NEXT_HOP else None]: it
    is [None] exactly when the engine reports the sentinel, and any other
    answer comes back unchanged; the same holds slot by slot for
    [lookup_batch].  Hence a lookup that resolves to a stored 0xFFFFFFFF
    gives the same [None] as a miss.  Both classes, any engine. *)
Theorem lookup_never_returns_sentinel :
  INVALID_NEXT_HOP = 0xFFFFFFFF /\
  (forall (t : table Z E4) addr,
      fst (LpmTableIPv4.lookup addr t) <> Return (Some 0xFFFFFFFF)) /\
  (forall (t : table Z E4) addrs rs,
      fst (LpmTableIPv4.lookup_batch addrs t) = Return rs ->
      Some 0xFFFFFFFF ∉ rs) /\
  (forall (t : table Z E4) addr k,
      LpmTableIPv4.closed t = false ->
      LpmTableIPv4.addr_int_of addr = Return k ->
      let r := trie_lookup k (_trie t) in
      (fst (LpmTableIPv4.lookup addr t) = Return None
       <-> r = INVALID_NEXT_HOP) /\
      (r <> INVALID_NEXT_HOP ->
       fst (LpmTableIPv4.lookup addr t) = Return (Some r))) /\
  (forall (t : table Z E4) addrs ks,
      LpmTableIPv4.closed t = false -> addrs <> [] ->
      LpmTableIPv4.to_addr_array addrs = Return ks ->
      let out := trie_lookup_batch ks (replicate (length addrs) 0) (_trie t) in
      exists rs, fst (LpmTableIPv4.lookup_batch addrs t) = Return rs /\
        Forall2 (fun r o => (o = None <-> r = INVALID_NEXT_HOP) /\
                            (r <> INVALID_NEXT_HOP -> o = Some r)) out rs) /\
  (forall (t : table (list byte) E6) addr,
      fst (LpmTableIPv6.lookup addr t) <> Return (Some 0xFFFFFFFF)) /\
  (forall (t : table (list byte) E6) addrs rs,
      fst (LpmTableIPv6.lookup_batch addrs t) = Return rs ->
      Some 0xFFFFFFFF ∉ rs) /\
  (forall (t : table (list byte) E6) addr k,
      LpmTableIPv6.closed t = false ->
      LpmTableIPv6.addr_bytes_of addr = Return k ->
      let r := trie_lookup k (_trie t) in
      (fst (LpmTableIPv6.lookup addr t) = Return None
       <-> r = INVALID_NEXT_HOP) /\
      (r <> INVALID_NEXT_HOP ->
       fst (LpmTableIPv6.lookup addr t) = Return (Some r))) /\
  (forall (t : table (list byte) E6) addrs ks,
      LpmTableIPv6.closed t = false -> addrs <> [] ->
      LpmTableIPv6.to_addr_list addrs = Return ks ->
      let out := trie_lookup_batch ks (replicate (length addrs) 0) (_trie t) in
      exists rs, fst (LpmTableIPv6.lookup_batch addrs t) = Return rs /\
        Forall2 (fun r o => (o = None <-> r = INVALID_NEXT_HOP) /\
                            (r <> INVALID_NEXT_HOP -> o = Some r)) out rs).
Proof.
  assert (Hpoint : forall out,
    Forall2 (fun r o => (o = None <-> r = INVALID_NEXT_HOP) /\
                        (r <> INVALID_NEXT_HOP -> o = Some r))
      out (map next_hop_or_None out)).
  { intros out. induction out as [|r out IH]; simpl; constructor; [|done].
    split; [apply next_hop_or_None_None|apply next_hop_or_None_Some]. }
  split; [reflexivity|].
  split.
  { intros t addr Hr. apply lookup4_result in Hr as (k & _ & Hk).
    symmetry in Hk. by apply next_hop_or_None_sentinel in Hk. }
  split.
  { intros t addrs rs Hr. apply lookup_batch4_result in Hr as (out & ->).
    apply map_next_hop_no_sentinel. }
  split.
  { intros t addr k Hc Hk r. rewrite (lookup4_open _ _ _ Hc Hk). simpl.
    split; [split|].
    - intros [= Hn]. by apply next_hop_or_None_None.
    - intros Hn. f_equal. by apply next_hop_or_None_None.
    - intros Hn. f_equal. by apply next_hop_or_None_Some. }
  split.
  { intros t addrs ks Hc Hne Hk out.
    rewrite (lookup_batch4_open _ _ _ Hc Hne Hk). simpl. eauto. }
  split.
  { intros t addr Hr. apply lookup6_result in Hr as (k & _ & Hk).
    symmetry in Hk. by apply next_hop_or_None_sentinel in Hk. }
  split.
  { intros t addrs rs Hr. apply lookup_batch6_result in Hr as (out & ->).
    apply map_next_hop_no_sentinel. }
  split.
  { intros t addr k Hc Hk r. rewrite (lookup6_open _ _ _ Hc Hk). simpl.
    split; [split|].
    - intros [= Hn]. by apply next_hop_or_None_None.
    - intros Hn. f_equal. by apply next_hop_or_None_None.
    - intros Hn. f_equal. by apply next_hop_or_None_Some. }
  intros t addrs ks Hc Hne Hk out.
  rewrite (lookup_batch6_open _ _ _ Hc Hne Hk). simpl. eauto.
Qed.

(** *** Batch lookups *)

Lemma to_addr_array_total addrs :
  Forall (fun a => exists k, LpmTableIPv4.addr_int_of a = Return k) addrs ->
  exists ks, LpmTableIPv4.to_addr_array addrs = Return ks /\
             Forall2 (fun a k => LpmTableIPv4.addr_int_of a = Return k) addrs ks.
Proof.
  induction 1 as [|a addrs [k Hk] _ (ks & Hks & IH)]; simpl.
  - exists []. by split; [|constructor].
  - exists (k :: ks). rewrite Hk, Hks. by split; [|constructor].
Qed.

Lemma to_addr_list_total addrs :
  Forall (fun a => exists k, LpmTableIPv6.addr_bytes_of a = Return k) addrs ->
  exists ks, LpmTableIPv6.to_addr_list addrs = Return ks /\
             Forall2 (fun a k => LpmTableIPv6.addr_bytes_of a = Return k) addrs ks.
Proof.
  induction 1 as [|a addrs [k Hk] _ (ks & Hks & IH)]; simpl.
  - exists []. by split; [|constructor].
  - exists (k :: ks). rewrite Hk, Hks. by split; [|constructor].
Qed.

(** C3.  On an open table, for every sequence of addresses (objects or
    strings that read as addresses), [lookup_batch] returns a list of the
    same length whose element [i] is what [lookup] returns for address
    [i]; for the empty sequence it returns the empty list and leaves the
    table and the record of engine calls untouched.  The engine's batch
    call is taken under the contract of the spec's dispatcher
    ([batch_as_single]). *)
Theorem lookup_batch_agrees_with_lookup :
  (forall (t : table Z E4) addrs,
      batch_as_single Z E4 ->
      LpmTableIPv4.closed t = false ->
      Forall (fun a => exists k, LpmTableIPv4.addr_int_of a = Return k) addrs ->
      exists rs,
        fst (LpmTableIPv4.lookup_batch addrs t) = Return rs /\
        length rs = length addrs /\
        Forall2 (fun a r => fst (LpmTableIPv4.lookup a t) = Return r) addrs rs) /\
  (forall t : table Z E4,
      LpmTableIPv4.closed t = false ->
      LpmTableIPv4.lookup_batch [] t = (Return [], t)) /\
  (forall (t : table (list byte) E6) addrs,
      batch_as_single (list byte) E6 ->
      LpmTableIPv6.closed t = false ->
      Forall (fun a => exists k, LpmTableIPv6.addr_bytes_of a = Return k) addrs ->
      exists rs,
        fst (LpmTableIPv6.lookup_batch addrs t) = Return rs /\
        length rs = length addrs /\
        Forall2 (fun a r => fst (LpmTableIPv6.lookup a t) = Return r) addrs rs) /\
  (forall t : table (list byte) E6,
      LpmTableIPv6.closed t = false ->
      LpmTableIPv6.lookup_batch [] t = (Return [], t)).
Proof.
  split; [|split; [apply lookup_batch4_empty|split; [|apply lookup_batch6_empty]]].
  - intros t addrs Hb Hc Hall.
    destruct addrs as [|a0 addrs0] eqn:Haddrs.
    { exists []. rewrite lookup_batch4_empty by done. by repeat split. }
    rewrite <- Haddrs in *. assert (Hne : addrs <> []) by (by subst).
    clear Haddrs. destruct (to_addr_array_total _ Hall) as (ks & Hks & Hpt).
    rewrite (lookup_batch4_open _ _ _ Hc Hne Hks). simpl.
    assert (Hlen : length ks = length addrs)
      by (symmetry; eapply Forall2_length; eassumption).
    rewrite Hb by (by rewrite length_replicate).
    eexists. split; [reflexivity|].
    split; [by rewrite !length_map|].
    clear Hks Hlen Hne Hall. induction Hpt as [|a k addrs' ks' Hk _ IH]; simpl.
    + constructor.
    + constructor; [|done]. by rewrite (lookup4_open _ _ _ Hc Hk).
  - intros t addrs Hb Hc Hall.
    destruct addrs as [|a0 addrs0] eqn:Haddrs.
    { exists []. rewrite lookup_batch6_empty by done. by repeat split. }
    rewrite <- Haddrs in *. assert (Hne : addrs <> []) by (by subst).
    clear Haddrs. destruct (to_addr_list_total _ Hall) as (ks & Hks & Hpt).
    rewrite (lookup_batch6_open _ _ _ Hc Hne Hks). simpl.
    assert (Hlen : length ks = length addrs)
      by (symmetry; eapply Forall2_length; eassumption).
    rewrite Hb by (by rewrite length_replicate).
    eexists. split; [reflexivity|].
    split; [by rewrite !length_map|].
    clear Hks Hlen Hne Hall. induction Hpt as [|a k addrs' ks' Hk _ IH]; simpl.
    + constructor.
    + constructor; [|done]. by rewrite (lookup6_open _ _ _ Hc Hk).
Qed.

(** *** The next-hop check of [insert] *)

(** C2, as the code has it.  On an open table [insert] raises
    [ValueError] exactly when [next_hop] lies outside 0..0xFFFFFFFF.  The
    sentinel 0xFFFFFFFF passes that check: for a prefix the wrapper
    accepts, it is handed to the engine's [add] as the next hop, and the
    insert returns unless the engine reports a non-zero status.  Both
    classes, any engine. *)
Theorem insert_checks_next_hop_range :
  (forall (t : table Z E4) p nh,
      LpmTableIPv4.closed t = false ->
      (fst (LpmTableIPv4.insert p nh t) = Raise ValueError
       <-> ~ (0 <= nh <= 0xFFFFFFFF))) /\
  (forall (t : table Z E4) p n,
      LpmTableIPv4.closed t = false -> network_of4 p = Some n ->
      let bs := LpmTableIPv4.packed (network_address n) in
      let r := trie_add bs (prefixlen n) 0xFFFFFFFF (_trie t) in
      LpmTableIPv4.insert p 0xFFFFFFFF t
      = (if fst r =? 0 then Return tt else Raise LpmInsertError,
         log (CallAdd bs (prefixlen n) 0xFFFFFFFF) (snd r) t)) /\
  (forall (t : table (list byte) E6) p nh,
      LpmTableIPv6.closed t = false ->
      (fst (LpmTableIPv6.insert p nh t) = Raise ValueError
       <-> ~ (0 <= nh <= 0xFFFFFFFF))) /\
  (forall (t : table (list byte) E6) p n,
      LpmTableIPv6.closed t = false -> network_of6 p = Some n ->
      let bs := LpmTableIPv6.packed (network_address n) in
      let r := trie_add bs (prefixlen n) 0xFFFFFFFF (_trie t) in
      LpmTableIPv6.insert p 0xFFFFFFFF t
      = (if fst r =? 0 then Return tt else Raise LpmInsertError,
         log (CallAdd bs (prefixlen n) 0xFFFFFFFF) (snd r) t)).
Proof.
  split; [intros; by apply insert4_value_error|].
  split.
  { intros t p n Hc Hp bs r.
    rewrite (insert4_network_of _ _ _ _ Hp). by apply insert4_net. }
  split; [intros; by apply insert6_value_error|].
  intros t p n Hc Hp bs r.
  rewrite (insert6_network_of _ _ _ _ Hp). by apply insert6_net.
Qed.

(** *** Packing, the other way round *)

Lemma int_to_bytes_length n z : length (int_to_bytes n z) = n.
Proof.
  revert z. induction n as [|n IH]; intros z; [done|].
  cbn [int_to_bytes]. rewrite length_app, IH. simpl. lia.
Qed.

Lemma Z_of_byte_range b : 0 <= Z_of_byte b < 256.
Proof.
  unfold Z_of_byte. pose proof (Byte.to_N_bounded b) as Hb. lia.
Qed.

Lemma byte_of_Z_of_byte x b : byte_of_Z (x * 256 + Z_of_byte b) = b.
Proof.
  unfold byte_of_Z. pose proof (Z_of_byte_range b) as Hb.
  replace ((x * 256 + Z_of_byte b) mod 256) with (Z_of_byte b).
  - unfold Z_of_byte. rewrite N2Z.id, Byte.of_to_N. done.
  - rewrite Z.add_comm, Z.mod_add by lia. by rewrite Z.mod_small.
Qed.

Lemma int_from_bytes_bound bs :
  0 <= int_from_bytes bs < 2 ^ (8 * Z.of_nat (length bs)).
Proof.
  induction bs as [|b bs IH] using rev_ind.
  - simpl. unfold int_from_bytes. simpl. lia.
  - rewrite int_from_bytes_snoc, length_app. simpl.
    pose proof (Z_of_byte_range b) as Hb.
    replace (8 * Z.of_nat (length bs + 1)) with (8 * Z.of_nat (length bs) + 8)
      by lia.
    rewrite Z.pow_add_r by lia. change (2 ^ 8) with 256. nia.
Qed.

Lemma int_to_from_bytes bs :
  int_to_bytes (length bs) (int_from_bytes bs) = bs.
Proof.
  induction bs as [|b bs IH] using rev_ind; [done|].
  rewrite length_app. simpl. rewrite Nat.add_1_r. cbn [int_to_bytes].
  rewrite int_from_bytes_snoc, byte_of_Z_of_byte.
  pose proof (Z_of_byte_range b) as Hb.
  replace ((int_from_bytes bs * 256 + Z_of_byte b) / 256)
    with (int_from_bytes bs).
  - by rewrite IH.
  - rewrite Z.add_comm, Z.div_add by lia. rewrite Z.div_small by lia. lia.
Qed.

(** *** Outcomes of the calls, case by case *)

Lemma insert4_out_of_range (t : table Z E4) p nh :
  _closed t = false -> ~ (0 <= nh <= 0xFFFFFFFF) ->
  LpmTableIPv4.insert p nh t = (Raise ValueError, t).
Proof.
  intros Hc Hnh. rewrite <- next_hop_in_range in Hnh.
  apply not_false_is_true in Hnh.
  unfold LpmTableIPv4.insert. py_unfold. by rewrite Hc, Hnh.
Qed.

Lemma insert6_out_of_range (t : table (list byte) E6) p nh :
  _closed t = false -> ~ (0 <= nh <= 0xFFFFFFFF) ->
  LpmTableIPv6.insert p nh t = (Raise ValueError, t).
Proof.
  intros Hc Hnh. rewrite <- next_hop_in_range in Hnh.
  apply not_false_is_true in Hnh.
  unfold LpmTableIPv6.insert. py_unfold. by rewrite Hc, Hnh.
Qed.

Lemma delete4_invalid_prefix (t : table Z E4) p :
  _closed t = false -> network_of4 p = None ->
  LpmTableIPv4.delete p t = (Raise LpmInvalidPrefixError, t).
Proof.
  intros Hc Hp. unfold LpmTableIPv4.delete. py_unfold. rewrite Hc.
  destruct p as [m|s|]; simpl in *; [done| |done].
  by destruct (IPv4Network s false).
Qed.

Lemma delete6_invalid_prefix (t : table (list byte) E6) p :
  _closed t = false -> network_of6 p = None ->
  LpmTableIPv6.delete p t = (Raise LpmInvalidPrefixError, t).
Proof.
  intros Hc Hp. unfold LpmTableIPv6.delete. py_unfold. rewrite Hc.
  destruct p as [m|s|]; simpl in *; [done| |done].
  by destruct (IPv6Network s false).
Qed.

(** The four ways an [insert] can go. *)
Lemma insert4_inv (t : table Z E4) p nh :
  (_closed t = true /\
   LpmTableIPv4.insert p nh t = (Raise LpmClosedError, t)) \/
  (_closed t = false /\ ~ (0 <= nh <= 0xFFFFFFFF) /\
   LpmTableIPv4.insert p nh t = (Raise ValueError, t)) \/
  (_closed t = false /\ 0 <= nh <= 0xFFFFFFFF /\ network_of4 p = None /\
   LpmTableIPv4.insert p nh t = (Raise LpmInvalidPrefixError, t)) \/
  (_closed t = false /\ 0 <= nh <= 0xFFFFFFFF /\
   exists n, network_of4 p = Some n /\
     LpmTableIPv4.insert p nh t
     = (if fst (trie_add (LpmTableIPv4.packed (network_address n))
                  (prefixlen n) nh (_trie t)) =? 0
        then Return tt else Raise LpmInsertError,
        log (CallAdd (LpmTableIPv4.packed (network_address n))
               (prefixlen n) nh)
          (snd (trie_add (LpmTableIPv4.packed (network_address n))
                  (prefixlen n) nh (_trie t))) t)).
Proof.
  destruct (_closed t) eqn:Hc.
  { left. split; [done|]. by apply insert4_closed. }
  right. destruct (decide (0 <= nh <= 0xFFFFFFFF)) as [Hnh|Hnh].
  2:{ left. repeat (split; [done|]). by apply insert4_out_of_range. }
  right. destruct (network_of4 p) as [n|] eqn:Hp.
  - right. repeat (split; [done|]). exists n. split; [done|].
    rewrite (insert4_network_of _ _ _ _ Hp). by apply insert4_net.
  - left. repeat (split; [done|]). by apply insert4_no_network.
Qed.

Lemma insert6_inv (t : table (list byte) E6) p nh :
  (_closed t = true /\
   LpmTableIPv6.insert p nh t = (Raise LpmClosedError, t)) \/
  (_closed t = false /\ ~ (0 <= nh <= 0xFFFFFFFF) /\
   LpmTableIPv6.insert p nh t = (Raise ValueError, t)) \/
  (_closed t = false /\ 0 <= nh <= 0xFFFFFFFF /\ network_of6 p = None /\
   LpmTableIPv6.insert p nh t = (Raise LpmInvalidPrefixError, t)) \/
  (_closed t = false /\ 0 <= nh <= 0xFFFFFFFF /\
   exists n, network_of6 p = Some n /\
     LpmTableIPv6.insert p nh t
     = (if fst (trie_add (LpmTableIPv6.packed (network_address n))
                  (prefixlen n) nh (_trie t)) =? 0
        then Return tt else Raise LpmInsertError,
        log (CallAdd (LpmTableIPv6.packed (network_address n))
               (prefixlen n) nh)
          (snd (trie_add (LpmTableIPv6.packed (network_address n))
                  (prefixlen n) nh (_trie t))) t)).
Proof.
  destruct (_closed t) eqn:Hc.
  { left. split; [done|]. by apply insert6_closed. }
  right. destruct (decide (0 <= nh <= 0xFFFFFFFF)) as [Hnh|Hnh].
  2:{ left. repeat (split; [done|]). by apply insert6_out_of_range. }
  right. destruct (network_of6 p) as [n|] eqn:Hp.
  - right. repeat (split; [done|]). exists n. split; [done|].
    rewrite (insert6_network_of _ _ _ _ Hp). by apply insert6_net.
  - left. repeat (split; [done|]). by apply insert6_no_network.
Qed.

(** The three ways a [delete] can go. *)
Lemma delete4_inv (t : table Z E4) p :
  (_closed t = true /\ LpmTableIPv4.delete p t = (Raise LpmClosedError, t)) \/
  (_closed t = false /\ network_of4 p = None /\
   LpmTableIPv4.delete p t = (Raise LpmInvalidPrefixError, t)) \/
  (_closed t = false /\
   exists n, network_of4 p = Some n /\
     LpmTableIPv4.delete p t
     = (if fst (trie_delete (LpmTableIPv4.packed (network_address n))
                  (prefixlen n) (_trie t)) =? 0
        then Return tt else Raise LpmDeleteError,
        log (CallDelete (LpmTableIPv4.packed (network_address n))
               (prefixlen n))
          (snd (trie_delete (LpmTableIPv4.packed (network_address n))
                  (prefixlen n) (_trie t))) t)).
Proof.
  destruct (_closed t) eqn:Hc.
  { left. split; [done|]. by apply delete4_closed. }
  right. destruct (network_of4 p) as [n|] eqn:Hp.
  - right. split; [done|]. exists n. split; [done|].
    rewrite (delete4_network_of _ _ _ Hp). by apply delete4_net.
  - left. repeat (split; [done|]). by apply delete4_invalid_prefix.
Qed.

Lemma delete6_inv (t : table (list byte) E6) p :
  (_closed t = true /\ LpmTableIPv6.delete p t = (Raise LpmClosedError, t)) \/
  (_closed t = false /\ network_of6 p = None /\
   LpmTableIPv6.delete p t = (Raise LpmInvalidPrefixError, t)) \/
  (_closed t = false /\
   exists n, network_of6 p = Some n /\
     LpmTableIPv6.delete p t
     = (if fst (trie_delete (LpmTableIPv6.packed (network_address n))
                  (prefixlen n) (_trie t)) =? 0
        then Return tt else Raise LpmDeleteError,
        log (CallDelete (LpmTableIPv6.packed (network_address n))
               (prefixlen n))
          (snd (trie_delete (LpmTableIPv6.packed (network_address n))
                  (prefixlen n) (_trie t))) t)).
Proof.
  destruct (_closed t) eqn:Hc.
  { left. split; [done|]. by apply delete6_closed. }
  right. destruct (network_of6 p) as [n|] eqn:Hp.
  - right. split; [done|]. exists n. split; [done|].
    rewrite (delete6_network_of _ _ _ Hp). by apply delete6_net.
  - left. repeat (split; [done|]). by apply delete6_invalid_prefix.
Qed.

(** The key of an address argument: an address that cannot be read is an
    [AddressValueError] of [ipaddress], and nothing else can go wrong. *)
Lemma addr_int_of_cases addr :
  match address_of4 addr with
  | Some a =>
      LpmTableIPv4.addr_int_of addr
      = Return (int_from_bytes (LpmTableIPv4.packed a)) /\
      (genuine_addr 32 addr -> valid_address 32 a)
  | None => LpmTableIPv4.addr_int_of addr = Raise AddressValueError
  end.
Proof.
  destruct addr as [a|s]; simpl; [done|]. unfold IPv4Address.
  destruct (ip4_address_of_string s) as [a|]; [|done].
  destruct (make_address 32 a) as [r|e] eqn:Hm.
  - apply make_address_valid in Hm as [-> Hv]. done.
  - unfold make_address in Hm. by destruct (negb _); [injection Hm as <-|].
Qed.

Lemma addr_bytes_of_cases addr :
  match address_of6 addr with
  | Some a =>
      LpmTableIPv6.addr_bytes_of addr = Return (LpmTableIPv6.packed a) /\
      (genuine_addr 128 addr -> valid_address 128 a)
  | None => LpmTableIPv6.addr_bytes_of addr = Raise AddressValueError
  end.
Proof.
  destruct addr as [a|s]; simpl; [done|]. unfold IPv6Address.
  destruct (ip6_address_of_string s) as [a|]; [|done].
  destruct (make_address 128 a) as [r|e] eqn:Hm.
  - apply make_address_valid in Hm as [-> Hv]. done.
  - unfold make_address in Hm. by destruct (negb _); [injection Hm as <-|].
Qed.

Lemma lookup4_unreadable (t : table Z E4) addr e :
  _closed t = false -> LpmTableIPv4.addr_int_of addr = Raise e ->
  LpmTableIPv4.lookup addr t = (Raise e, t).
Proof.
  intros Hc Hk. unfold LpmTableIPv4.lookup. py_unfold. by rewrite Hc, Hk.
Qed.

Lemma lookup6_unreadable (t : table (list byte) E6) addr e :
  _closed t = false -> LpmTableIPv6.addr_bytes_of addr = Raise e ->
  LpmTableIPv6.lookup addr t = (Raise e, t).
Proof.
  intros Hc Hk. unfold LpmTableIPv6.lookup. py_unfold. by rewrite Hc, Hk.
Qed.

(** The three ways a [lookup] can go. *)
Lemma lookup4_inv (t : table Z E4) addr :
  (_closed t = true /\ LpmTableIPv4.lookup addr t = (Raise LpmClosedError, t)) \/
  (_closed t = false /\ address_of4 addr = None /\
   LpmTableIPv4.lookup addr t = (Raise AddressValueError, t)) \/
  (_closed t = false /\
   exists a, address_of4 addr = Some a /\
     (genuine_addr 32 addr -> valid_address 32 a) /\
     LpmTableIPv4.lookup addr t
     = (Return (next_hop_or_None
                  (trie_lookup (int_from_bytes (LpmTableIPv4.packed a))
                     (_trie t))),
        log (CallLookup (int_from_bytes (LpmTableIPv4.packed a)))
          (_trie t) t)).
Proof.
  destruct (_closed t) eqn:Hc.
  { left. split; [done|]. by apply lookup4_closed. }
  right. pose proof (addr_int_of_cases addr) as Hk.
  destruct (address_of4 addr) as [a|].
  - right. split; [done|]. exists a. destruct Hk as [Hk Hv].
    repeat (split; [done|]). by apply lookup4_open.
  - left. repeat (split; [done|]). by apply lookup4_unreadable.
Qed.

Lemma lookup6_inv (t : table (list byte) E6) addr :
  (_closed t = true /\ LpmTableIPv6.lookup addr t = (Raise LpmClosedError, t)) \/
  (_closed t = false /\ address_of6 addr = None /\
   LpmTableIPv6.lookup addr t = (Raise AddressValueError, t)) \/
  (_closed t = false /\
   exists a, address_of6 addr = Some a /\
     (genuine_addr 128 addr -> valid_address 128 a) /\
     LpmTableIPv6.lookup addr t
     = (Return (next_hop_or_None
                  (trie_lookup (LpmTableIPv6.packed a) (_trie t))),
        log (CallLookup (LpmTableIPv6.packed a)) (_trie t) t)).
Proof.
  destruct (_closed t) eqn:Hc.
  { left. split; [done|]. by apply lookup6_closed. }
  right. pose proof (addr_bytes_of_cases addr) as Hk.
  destruct (address_of6 addr) as [a|].
  - right. split; [done|]. exists a. destruct Hk as [Hk Hv].
    repeat (split; [done|]). by apply lookup6_open.
  - left. repeat (split; [done|]). by apply lookup6_unreadable.
Qed.

(** The loop that builds the keys of a batch: all of them, in order, or
    the [AddressValueError] of an address that cannot be read. *)
Lemma to_addr_array_cases addrs :
  (exists ks,
      LpmTableIPv4.to_addr_array addrs = Return ks /\
      Forall2 (fun x k => exists a, address_of4 x = Some a /\
                 k = int_from_bytes (LpmTableIPv4.packed a)) addrs ks) \/
  (LpmTableIPv4.to_addr_array addrs = Raise AddressValueError /\
   Exists (fun x => address_of4 x = None) addrs).
Proof.
  induction addrs as [|x addrs IH]; simpl.
  { left. exists []. by split; [|constructor]. }
  pose proof (addr_int_of_cases x) as Hx.
  destruct (address_of4 x) as [a|] eqn:Ha.
  - destruct Hx as [-> _]. destruct IH as [(ks & -> & Hks)|[-> Hex]].
    + left. eexists. split; [reflexivity|]. constructor; [eauto|done].
    + right. split; [done|]. by apply Exists_cons_tl.
  - rewrite Hx. right. split; [done|]. by apply Exists_cons_hd.
Qed.

Lemma to_addr_list_cases addrs :
  (exists ks,
      LpmTableIPv6.to_addr_list addrs = Return ks /\
      Forall2 (fun x k => exists a, address_of6 x = Some a /\
                 k = LpmTableIPv6.packed a) addrs ks) \/
  (LpmTableIPv6.to_addr_list addrs = Raise AddressValueError /\
   Exists (fun x => address_of6 x = None) addrs).
Proof.
  induction addrs as [|x addrs IH]; simpl.
  { left. exists []. by split; [|constructor]. }
  pose proof (addr_bytes_of_cases x) as Hx.
  destruct (address_of6 x) as [a|] eqn:Ha.
  - destruct Hx as [-> _]. destruct IH as [(ks & -> & Hks)|[-> Hex]].
    + left. eexists. split; [reflexivity|]. constructor; [eauto|done].
    + right. split; [done|]. by apply Exists_cons_tl.
  - rewrite Hx. right. split; [done|]. by apply Exists_cons_hd.
Qed.

Lemma lookup_batch4_unreadable (t : table Z E4) addrs e :
  _closed t = false -> LpmTableIPv4.to_addr_array addrs = Raise e ->
  LpmTableIPv4.lookup_batch addrs t = (Raise e, t).
Proof.
  intros Hc Hk. unfold LpmTableIPv4.lookup_batch. py_unfold. rewrite Hc.
  destruct addrs as [|a addrs]; [done|]. by rewrite Hk.
Qed.

Lemma lookup_batch6_unreadable (t : table (list byte) E6) addrs e :
  _closed t = false -> LpmTableIPv6.to_addr_list addrs = Raise e ->
  LpmTableIPv6.lookup_batch addrs t = (Raise e, t).
Proof.
  intros Hc Hk. unfold LpmTableIPv6.lookup_batch. py_unfold. rewrite Hc.
  destruct addrs as [|a addrs]; [done|]. by rewrite Hk.
Qed.

(** The four ways a [lookup_batch] can go. *)
Lemma lookup_batch4_inv (t : table Z E4) addrs :
  (_closed t = true /\
   LpmTableIPv4.lookup_batch addrs t = (Raise LpmClosedError, t)) \/
  (_closed t = false /\ addrs = [] /\
   LpmTableIPv4.lookup_batch addrs t = (Return [], t)) \/
  (_closed t = false /\ Exists (fun x => address_of4 x = None) addrs /\
   LpmTableIPv4.lookup_batch addrs t = (Raise AddressValueError, t)) \/
  (_closed t = false /\ addrs <> [] /\
   exists ks,
     Forall2 (fun x k => exists a, address_of4 x = Some a /\
                k = int_from_bytes (LpmTableIPv4.packed a)) addrs ks /\
     LpmTableIPv4.lookup_batch addrs t
     = (Return (map next_hop_or_None
                  (trie_lookup_batch ks (replicate (length addrs) 0)
                     (_trie t))),
        log (CallLookupBatch ks (replicate (length addrs) 0)) (_trie t) t)).
Proof.
  destruct (_closed t) eqn:Hc.
  { left. split; [done|]. by apply lookup_batch4_closed. }
  right. destruct addrs as [|x l].
  { left. repeat (split; [done|]). by apply lookup_batch4_empty. }
  assert (Hne : x :: l <> []) by done. revert Hne.
  generalize (x :: l). clear x l. intros addrs Hne.
  right. destruct (to_addr_array_cases addrs) as [(ks & Hks & Hall)|[Hr Hex]].
  - right. repeat (split; [done|]). exists ks. split; [done|].
    by apply lookup_batch4_open.
  - left. repeat (split; [done|]). by apply lookup_batch4_unreadable.
Qed.

Lemma lookup_batch6_inv (t : table (list byte) E6) addrs :
  (_closed t = true /\
   LpmTableIPv6.lookup_batch addrs t = (Raise LpmClosedError, t)) \/
  (_closed t = false /\ addrs = [] /\
   LpmTableIPv6.lookup_batch addrs t = (Return [], t)) \/
  (_closed t = false /\ Exists (fun x => address_of6 x = None) addrs /\
   LpmTableIPv6.lookup_batch addrs t = (Raise AddressValueError, t)) \/
  (_closed t = false /\ addrs <> [] /\
   exists ks,
     Forall2 (fun x k => exists a, address_of6 x = Some a /\
                k = LpmTableIPv6.packed a) addrs ks /\
     LpmTableIPv6.lookup_batch addrs t
     = (Return (map next_hop_or_None
                  (trie_lookup_batch ks (replicate (length addrs) 0)
                     (_trie t))),
        log (CallLookupBatch ks (replicate (length addrs) 0)) (_trie t) t)).
Proof.
  destruct (_closed t) eqn:Hc.
  { left. split; [done|]. by apply lookup_batch6_closed. }
  right. destruct addrs as [|x l].
  { left. repeat (split; [done|]). by apply lookup_batch6_empty. }
  assert (Hne : x :: l <> []) by done. revert Hne.
  generalize (x :: l). clear x l. intros addrs Hne.
  right. destruct (to_addr_list_cases addrs) as [(ks & Hks & Hall)|[Hr Hex]].
  - right. repeat (split; [done|]). exists ks. split; [done|].
    by apply lookup_batch6_open.
  - left. repeat (split; [done|]). by apply lookup_batch6_unreadable.
Qed.

(** X1.  Every way an [insert] can end, for any table, prefix argument
    and next hop.  It raises [LpmClosedError] on a closed table,
    [ValueError] on an open one when the next hop is outside
    0..0xFFFFFFFF, and [LpmInvalidPrefixError] when the next hop is legal
    but the prefix is neither a network object nor a string that reads as
    one; in these three cases the table is left exactly as it was and no
    call reaches the engine.  Otherwise exactly one [add] is made on the
    engine, with the packed network address, the prefix length and the
    next hop; the insert returns if the engine reports 0 and raises
    [LpmInsertError] if not.  It raises nothing else.  Both classes, any
    engine. *)
Theorem insert_outcomes :
  (forall (t : table Z E4) p nh,
      let r := LpmTableIPv4.insert p nh t in
      match fst r with
      | Raise LpmClosedError => _closed t = true /\ snd r = t
      | Raise ValueError =>
          _closed t = false /\ ~ (0 <= nh <= 0xFFFFFFFF) /\ snd r = t
      | Raise LpmInvalidPrefixError =>
          _closed t = false /\ 0 <= nh <= 0xFFFFFFFF /\
          network_of4 p = None /\ snd r = t
      | Return _ | Raise LpmInsertError =>
          _closed t = false /\ 0 <= nh <= 0xFFFFFFFF /\
          exists n, network_of4 p = Some n /\
            let bs := LpmTableIPv4.packed (network_address n) in
            let a := trie_add bs (prefixlen n) nh (_trie t) in
            (fst r = Return tt <-> fst a = 0) /\
            snd r = log (CallAdd bs (prefixlen n) nh) (snd a) t
      | Raise _ => False
      end) /\
  (forall (t : table (list byte) E6) p nh,
      let r := LpmTableIPv6.insert p nh t in
      match fst r with
      | Raise LpmClosedError => _closed t = true /\ snd r = t
      | Raise ValueError =>
          _closed t = false /\ ~ (0 <= nh <= 0xFFFFFFFF) /\ snd r = t
      | Raise LpmInvalidPrefixError =>
          _closed t = false /\ 0 <= nh <= 0xFFFFFFFF /\
          network_of6 p = None /\ snd r = t
      | Return _ | Raise LpmInsertError =>
          _closed t = false /\ 0 <= nh <= 0xFFFFFFFF /\
          exists n, network_of6 p = Some n /\
            let bs := LpmTableIPv6.packed (network_address n) in
            let a := trie_add bs (prefixlen n) nh (_trie t) in
            (fst r = Return tt <-> fst a = 0) /\
            snd r = log (CallAdd bs (prefixlen n) nh) (snd a) t
      | Raise _ => False
      end).
Proof.
  split.
  - intros t p nh r. subst r.
    destruct (insert4_inv t p nh)
      as [[Hc ->]|[(Hc & Hnh & ->)|[(Hc & Hnh & Hp & ->)
                                    |(Hc & Hnh & n & Hp & ->)]]];
      simpl; try done.
    destruct (fst (trie_add _ _ _ _) =? 0) eqn:Hr; simpl;
      (split; [done|]); (split; [done|]); exists n; (split; [done|]);
      (split; [|done]).
    + apply Z.eqb_eq in Hr. done.
    + apply Z.eqb_neq in Hr. done.
  - intros t p nh r. subst r.
    destruct (insert6_inv t p nh)
      as [[Hc ->]|[(Hc & Hnh & ->)|[(Hc & Hnh & Hp & ->)
                                    |(Hc & Hnh & n & Hp & ->)]]];
      simpl; try done.
    destruct (fst (trie_add _ _ _ _) =? 0) eqn:Hr; simpl;
      (split; [done|]); (split; [done|]); exists n; (split; [done|]);
      (split; [|done]).
    + apply Z.eqb_eq in Hr. done.
    + apply Z.eqb_neq in Hr. done.
Qed.

(** X2.  Every way a [delete] can end.  It raises [LpmClosedError] on a
    closed table and [LpmInvalidPrefixError] on an open one when the
    prefix is neither a network object nor a string that reads as one; in
    both cases the table is left exactly as it was and no call reaches
    the engine.  Otherwise exactly one [delete] is made on the engine,
    with the packed network address and the prefix length; the call
    returns if the engine reports 0 and raises [LpmDeleteError] if not.
    It raises nothing else.  Both classes, any engine. *)
Theorem delete_outcomes :
  (forall (t : table Z E4) p,
      let r := LpmTableIPv4.delete p t in
      match fst r with
      | Raise LpmClosedError => _closed t = true /\ snd r = t
      | Raise LpmInvalidPrefixError =>
          _closed t = false /\ network_of4 p = None /\ snd r = t
      | Return _ | Raise LpmDeleteError =>
          _closed t = false /\
          exists n, network_of4 p = Some n /\
            let bs := LpmTableIPv4.packed (network_address n) in
            let d := trie_delete bs (prefixlen n) (_trie t) in
            (fst r = Return tt <-> fst d = 0) /\
            snd r = log (CallDelete bs (prefixlen n)) (snd d) t
      | Raise _ => False
      end) /\
  (forall (t : table (list byte) E6) p,
      let r := LpmTableIPv6.delete p t in
      match fst r with
      | Raise LpmClosedError => _closed t = true /\ snd r = t
      | Raise LpmInvalidPrefixError =>
          _closed t = false /\ network_of6 p = None /\ snd r = t
      | Return _ | Raise LpmDeleteError =>
          _closed t = false /\
          exists n, network_of6 p = Some n /\
            let bs := LpmTableIPv6.packed (network_address n) in
            let d := trie_delete bs (prefixlen n) (_trie t) in
            (fst r = Return tt <-> fst d = 0) /\
            snd r = log (CallDelete bs (prefixlen n)) (snd d) t
      | Raise _ => False
      end).
Proof.
  split.
  - intros t p r. subst r.
    destruct (delete4_inv t p)
      as [[Hc ->]|[(Hc & Hp & ->)|(Hc & n & Hp & ->)]]; simpl; try done.
    destruct (fst (trie_delete _ _ _) =? 0) eqn:Hr; simpl;
      (split; [done|]); exists n; (split; [done|]); (split; [|done]).
    + apply Z.eqb_eq in Hr. done.
    + apply Z.eqb_neq in Hr. done.
  - intros t p r. subst r.
    destruct (delete6_inv t p)
      as [[Hc ->]|[(Hc & Hp & ->)|(Hc & n & Hp & ->)]]; simpl; try done.
    destruct (fst (trie_delete _ _ _) =? 0) eqn:Hr; simpl;
      (split; [done|]); exists n; (split; [done|]); (split; [|done]).
    + apply Z.eqb_eq in Hr. done.
    + apply Z.eqb_neq in Hr. done.
Qed.

(** X3.  Every way a [lookup] can end.  It raises [LpmClosedError] on a
    closed table.  On an open one, a string that does not read as an
    address raises the [AddressValueError] of [ipaddress], which the
    wrapper does not turn into an error of its own; in both cases the
    table is left as it was and no call reaches the engine.  Otherwise
    exactly one [lookup] is made on the engine, and the answer is the
    engine's with the sentinel turned into [None].  The key is the
    address itself: its 32-bit integer for IPv4, its 16 bytes, most
    significant first, for IPv6.  It raises nothing else.  Both classes,
    any engine. *)
Theorem lookup_outcomes :
  (forall (t : table Z E4) addr,
      let r := LpmTableIPv4.lookup addr t in
      match fst r with
      | Raise LpmClosedError => _closed t = true /\ snd r = t
      | Raise AddressValueError =>
          _closed t = false /\ address_of4 addr = None /\ snd r = t
      | Return o =>
          _closed t = false /\
          exists a, address_of4 addr = Some a /\
            let k := int_from_bytes (LpmTableIPv4.packed a) in
            o = next_hop_or_None (trie_lookup k (_trie t)) /\
            snd r = log (CallLookup k) (_trie t) t /\
            (genuine_addr 32 addr -> k = a)
      | Raise _ => False
      end) /\
  (forall (t : table (list byte) E6) addr,
      let r := LpmTableIPv6.lookup addr t in
      match fst r with
      | Raise LpmClosedError => _closed t = true /\ snd r = t
      | Raise AddressValueError =>
          _closed t = false /\ address_of6 addr = None /\ snd r = t
      | Return o =>
          _closed t = false /\
          exists a, address_of6 addr = Some a /\
            let k := LpmTableIPv6.packed a in
            o = next_hop_or_None (trie_lookup k (_trie t)) /\
            snd r = log (CallLookup k) (_trie t) t /\
            (genuine_addr 128 addr ->
             length k = 16%nat /\ int_from_bytes k = a)
      | Raise _ => False
      end).
Proof.
  split.
  - intros t addr r. subst r.
    destruct (lookup4_inv t addr)
      as [[Hc ->]|[(Hc & Ha & ->)|(Hc & a & Ha & Hv & ->)]]; simpl; try done.
    split; [done|]. exists a. do 3 (split; [done|]).
    intros Hg. apply (int_from_to_bytes_small 4). by apply Hv.
  - intros t addr r. subst r.
    destruct (lookup6_inv t addr)
      as [[Hc ->]|[(Hc & Ha & ->)|(Hc & a & Ha & Hv & ->)]]; simpl; try done.
    split; [done|]. exists a. do 3 (split; [done|]).
    intros Hg. split; [reflexivity|].
    apply (int_from_to_bytes_small 16). by apply Hv.
Qed.

(** X4.  Every way a [lookup_batch] can end.  It raises [LpmClosedError]
    on a closed table; on an open one it returns the empty list for no
    addresses, and raises the [AddressValueError] of [ipaddress] as soon
    as one of the addresses is a string that does not read as an address.
    In these cases the table is left as it was and no call reaches the
    engine: no partial batch is ever looked up.  Otherwise the whole
    batch costs exactly one call on the engine, which receives the keys
    of all the addresses, in order, and an output array of as many
    zeros; the answer is the array the engine filled, with each sentinel
    turned into [None].  Both classes, any engine. *)
Theorem lookup_batch_outcomes :
  (forall (t : table Z E4) addrs,
      let r := LpmTableIPv4.lookup_batch addrs t in
      match fst r with
      | Raise LpmClosedError => _closed t = true /\ snd r = t
      | Raise AddressValueError =>
          _closed t = false /\ snd r = t /\
          Exists (fun x => address_of4 x = None) addrs
      | Return os =>
          _closed t = false /\
          (addrs = [] /\ os = [] /\ snd r = t \/
           addrs <> [] /\
           exists ks,
             Forall2 (fun x k => exists a, address_of4 x = Some a /\
                        k = int_from_bytes (LpmTableIPv4.packed a)) addrs ks /\
             let zeros := replicate (length addrs) 0 in
             os = map next_hop_or_None
                    (trie_lookup_batch ks zeros (_trie t)) /\
             snd r = log (CallLookupBatch ks zeros) (_trie t) t)
      | Raise _ => False
      end) /\
  (forall (t : table (list byte) E6) addrs,
      let r := LpmTableIPv6.lookup_batch addrs t in
      match fst r with
      | Raise LpmClosedError => _closed t = true /\ snd r = t
      | Raise AddressValueError =>
          _closed t = false /\ snd r = t /\
          Exists (fun x => address_of6 x = None) addrs
      | Return os =>
          _closed t = false /\
          (addrs = [] /\ os = [] /\ snd r = t \/
           addrs <> [] /\
           exists ks,
             Forall2 (fun x k => exists a, address_of6 x = Some a /\
                        k = LpmTableIPv6.packed a) addrs ks /\
             let zeros := replicate (length addrs) 0 in
             os = map next_hop_or_None
                    (trie_lookup_batch ks zeros (_trie t)) /\
             snd r = log (CallLookupBatch ks zeros) (_trie t) t)
      | Raise _ => False
      end).
Proof.
  split.
  - intros t addrs r. subst r.
    destruct (lookup_batch4_inv t addrs)
      as [[Hc ->]|[(Hc & He & ->)|[(Hc & Hex & ->)
                                   |(Hc & Hne & ks & Hks & ->)]]];
      simpl; try done.
    + split; [done|]. by left.
    + split; [done|]. right. split; [done|]. by exists ks.
  - intros t addrs r. subst r.
    destruct (lookup_batch6_inv t addrs)
      as [[Hc ->]|[(Hc & He & ->)|[(Hc & Hex & ->)
                                   |(Hc & Hne & ks & Hks & ->)]]];
      simpl; try done.
    + split; [done|]. by left.
    + split; [done|]. right. split; [done|]. by exists ks.
Qed.

(** X5.  The keys the wrappers hand to the engine lose nothing of an
    address.  Packing an address of the family gives exactly 4 bytes
    (IPv4) or 16 bytes (IPv6) whose big-endian value is the address, so
    that an IPv4 lookup key is the address's integer itself; two
    different addresses never pack to the same bytes; and every string of
    4 (16) bytes is the packing of the address it denotes. *)
Theorem packed_keys_round_trip :
  (forall a, valid_address 32 a ->
      length (LpmTableIPv4.packed a) = 4%nat /\
      int_from_bytes (LpmTableIPv4.packed a) = a /\
      LpmTableIPv4.addr_int_of (AddrObj a) = Return a) /\
  (forall a b, valid_address 32 a -> valid_address 32 b ->
      LpmTableIPv4.packed a = LpmTableIPv4.packed b -> a = b) /\
  (forall bs, length bs = 4%nat ->
      valid_address 32 (int_from_bytes bs) /\
      LpmTableIPv4.packed (int_from_bytes bs) = bs) /\
  (forall a, valid_address 128 a ->
      length (LpmTableIPv6.packed a) = 16%nat /\
      int_from_bytes (LpmTableIPv6.packed a) = a /\
      LpmTableIPv6.addr_bytes_of (AddrObj a)
      = Return (LpmTableIPv6.packed a)) /\
  (forall a b, valid_address 128 a -> valid_address 128 b ->
      LpmTableIPv6.packed a = LpmTableIPv6.packed b -> a = b) /\
  (forall bs, length bs = 16%nat ->
      valid_address 128 (int_from_bytes bs) /\
      LpmTableIPv6.packed (int_from_bytes bs) = bs).
Proof.
  assert (H4 : forall a, valid_address 32 a ->
                 int_from_bytes (LpmTableIPv4.packed a) = a)
    by (intros a Ha; by apply (int_from_to_bytes_small 4)).
  assert (H16 : forall a, valid_address 128 a ->
                  int_from_bytes (LpmTableIPv6.packed a) = a)
    by (intros a Ha; by apply (int_from_to_bytes_small 16)).
  split; [|split; [|split; [|split; [|split]]]].
  - intros a Ha. split; [apply int_to_bytes_length|].
    split; [by apply H4|]. simpl. by rewrite H4.
  - intros a b Ha Hb Hab. rewrite <- (H4 a), <- (H4 b) by done. by rewrite Hab.
  - intros bs Hl. pose proof (int_from_bytes_bound bs) as Hb.
    rewrite Hl in Hb. split; [exact Hb|].
    unfold LpmTableIPv4.packed. rewrite <- Hl. apply int_to_from_bytes.
  - intros a Ha. split; [apply int_to_bytes_length|].
    split; [by apply H16|]. done.
  - intros a b Ha Hb Hab.
    rewrite <- (H16 a), <- (H16 b) by done. by rewrite Hab.
  - intros bs Hl. pose proof (int_from_bytes_bound bs) as Hb.
    rewrite Hl in Hb. split; [exact Hb|].
    unfold LpmTableIPv6.packed. rewrite <- Hl. apply int_to_from_bytes.
Qed.

(** *** The life cycle of a table *)

Lemma void_snd {S A} (m : Py S A) (s : S) : snd (void m s) = snd (m s).
Proof. unfold void, bind, ret. by destruct (m s) as [[a|e] s']. Qed.

Lemma void_fst_raise {S A} (m : Py S A) (s : S) e :
  fst (void m s) = Raise e <-> fst (m s) = Raise e.
Proof.
  unfold void, bind, ret.
  destruct (m s) as [[a|e'] s']; simpl; split; intros Hx;
    by inversion Hx.
Qed.

Lemma close4_open (t : table Z E4) :
  _closed t = false ->
  LpmTableIPv4.close t
  = (Return tt, {| _trie := trie_close (_trie t); _closed := true;
                   engine_calls := engine_calls t ++ [CallClose] |}).
Proof. intros Hc. unfold LpmTableIPv4.close. py_unfold. by rewrite Hc. Qed.

Lemma close6_open (t : table (list byte) E6) :
  _closed t = false ->
  LpmTableIPv6.close t
  = (Return tt, {| _trie := trie_close (_trie t); _closed := true;
                   engine_calls := engine_calls t ++ [CallClose] |}).
Proof. intros Hc. unfold LpmTableIPv6.close. py_unfold. by rewrite Hc. Qed.

Lemma exit4_close (t : table Z E4) exc :
  LpmTableIPv4.__exit__ exc t = (Return false, snd (LpmTableIPv4.close t)).
Proof.
  unfold LpmTableIPv4.__exit__, bind, ret.
  destruct (close4_sets_closed t) as [Hr _].
  destruct (LpmTableIPv4.close t) as [r s]. simpl in *. by rewrite Hr.
Qed.

Lemma exit6_close (t : table (list byte) E6) exc :
  LpmTableIPv6.__exit__ exc t = (Return false, snd (LpmTableIPv6.close t)).
Proof.
  unfold LpmTableIPv6.__exit__, bind, ret.
  destruct (close6_sets_closed t) as [Hr _].
  destruct (LpmTableIPv6.close t) as [r s]. simpl in *. by rewrite Hr.
Qed.

Lemma call4_closed (t : table Z E4) c :
  _closed t = true -> snd (call4 c t) = t.
Proof.
  intros Hc. destruct c; simpl; rewrite ?void_snd.
  - by rewrite insert4_closed.
  - by rewrite delete4_closed.
  - by rewrite lookup4_closed.
  - by rewrite lookup_batch4_closed.
  - by rewrite close4_closed.
  - done.
  - by rewrite exit4_close, close4_closed.
Qed.

Lemma call6_closed (t : table (list byte) E6) c :
  _closed t = true -> snd (call6 c t) = t.
Proof.
  intros Hc. destruct c; simpl; rewrite ?void_snd.
  - by rewrite insert6_closed.
  - by rewrite delete6_closed.
  - by rewrite lookup6_closed.
  - by rewrite lookup_batch6_closed.
  - by rewrite close6_closed.
  - done.
  - by rewrite exit6_close, close6_closed.
Qed.

Lemma run4_closed (t : table Z E4) cs :
  _closed t = true -> run call4 cs t = t.
Proof.
  intros Hc. induction cs as [|c cs IH]; simpl; [done|].
  by rewrite call4_closed.
Qed.

Lemma run6_closed (t : table (list byte) E6) cs :
  _closed t = true -> run call6 cs t = t.
Proof.
  intros Hc. induction cs as [|c cs IH]; simpl; [done|].
  by rewrite call6_closed.
Qed.

Lemma protocol_log {K E} (t : table K E) (k : trie_call K) (e : E) :
  _closed t = false -> engine_protocol t -> k <> CallClose ->
  engine_protocol (log k e t).
Proof.
  unfold engine_protocol, log. simpl. intros -> Hp Hk.
  rewrite not_elem_of_app, not_elem_of_cons.
  split; [done|]. split; [done|]. apply not_elem_of_nil.
Qed.

Lemma protocol_close4 (t : table Z E4) :
  engine_protocol t -> engine_protocol (snd (LpmTableIPv4.close t)).
Proof.
  intros Hp. destruct (_closed t) eqn:Hc.
  - by rewrite close4_closed.
  - rewrite close4_open by done. unfold engine_protocol in *.
    rewrite Hc in Hp. simpl. eauto.
Qed.

Lemma protocol_close6 (t : table (list byte) E6) :
  engine_protocol t -> engine_protocol (snd (LpmTableIPv6.close t)).
Proof.
  intros Hp. destruct (_closed t) eqn:Hc.
  - by rewrite close6_closed.
  - rewrite close6_open by done. unfold engine_protocol in *.
    rewrite Hc in Hp. simpl. eauto.
Qed.

Lemma call4_protocol (t : table Z E4) c :
  engine_protocol t -> engine_protocol (snd (call4 c t)).
Proof.
  intros Hp. destruct (_closed t) eqn:Hc; [by rewrite call4_closed|].
  destruct c as [p nh|p|a|l| | |exc]; simpl; rewrite ?void_snd.
  - destruct (insert4_inv t p nh)
      as [[_ ->]|[(_ & _ & ->)|[(_ & _ & _ & ->)|(_ & _ & n & _ & ->)]]];
      cbn [snd]; try done. by apply protocol_log.
  - destruct (delete4_inv t p)
      as [[_ ->]|[(_ & _ & ->)|(_ & n & _ & ->)]]; cbn [snd]; try done.
    by apply protocol_log.
  - destruct (lookup4_inv t a)
      as [[_ ->]|[(_ & _ & ->)|(_ & x & _ & _ & ->)]]; cbn [snd]; try done.
    by apply protocol_log.
  - destruct (lookup_batch4_inv t l)
      as [[_ ->]|[(_ & _ & ->)|[(_ & _ & ->)|(_ & _ & ks & _ & ->)]]];
      cbn [snd]; try done. by apply protocol_log.
  - by apply protocol_close4.
  - done.
  - rewrite exit4_close. by apply protocol_close4.
Qed.

Lemma call6_protocol (t : table (list byte) E6) c :
  engine_protocol t -> engine_protocol (snd (call6 c t)).
Proof.
  intros Hp. destruct (_closed t) eqn:Hc; [by rewrite call6_closed|].
  destruct c as [p nh|p|a|l| | |exc]; simpl; rewrite ?void_snd.
  - destruct (insert6_inv t p nh)
      as [[_ ->]|[(_ & _ & ->)|[(_ & _ & _ & ->)|(_ & _ & n & _ & ->)]]];
      cbn [snd]; try done. by apply protocol_log.
  - destruct (delete6_inv t p)
      as [[_ ->]|[(_ & _ & ->)|(_ & n & _ & ->)]]; cbn [snd]; try done.
    by apply protocol_log.
  - destruct (lookup6_inv t a)
      as [[_ ->]|[(_ & _ & ->)|(_ & x & _ & _ & ->)]]; cbn [snd]; try done.
    by apply protocol_log.
  - destruct (lookup_batch6_inv t l)
      as [[_ ->]|[(_ & _ & ->)|[(_ & _ & ->)|(_ & _ & ks & _ & ->)]]];
      cbn [snd]; try done. by apply protocol_log.
  - by apply protocol_close6.
  - done.
  - rewrite exit6_close. by apply protocol_close6.
Qed.

Lemma run4_protocol (t : table Z E4) cs :
  engine_protocol t -> engine_protocol (run call4 cs t).
Proof.
  revert t. induction cs as [|c cs IH]; intros t Hp; simpl; [done|].
  by apply IH, call4_protocol.
Qed.

Lemma run6_protocol (t : table (list byte) E6) cs :
  engine_protocol t -> engine_protocol (run call6 cs t).
Proof.
  revert t. induction cs as [|c cs IH]; intros t Hp; simpl; [done|].
  by apply IH, call6_protocol.
Qed.

Lemma for_each4_protocol (t : table Z E4) cs :
  engine_protocol t -> engine_protocol (snd (for_each call4 cs t)).
Proof.
  revert t. induction cs as [|c cs IH]; intros t Hp; simpl; [done|].
  unfold bind. pose proof (call4_protocol t c Hp) as Hc.
  destruct (call4 c t) as [[u|e] s]; simpl in *; [by apply IH|done].
Qed.

Lemma for_each6_protocol (t : table (list byte) E6) cs :
  engine_protocol t -> engine_protocol (snd (for_each call6 cs t)).
Proof.
  revert t. induction cs as [|c cs IH]; intros t Hp; simpl; [done|].
  unfold bind. pose proof (call6_protocol t c Hp) as Hc.
  destruct (call6 c t) as [[u|e] s]; simpl in *; [by apply IH|done].
Qed.

Lemma init4_protocol algorithm (t0 : table Z E4) :
  LpmTableIPv4.__init__ algorithm = Return t0 ->
  _closed t0 = false /\ engine_protocol t0.
Proof.
  unfold LpmTableIPv4.__init__. destruct (negb _); [done|].
  intros [= <-]. split; [done|]. unfold engine_protocol. simpl.
  apply not_elem_of_nil.
Qed.

Lemma init6_protocol algorithm (t0 : table (list byte) E6) :
  LpmTableIPv6.__init__ algorithm = Return t0 ->
  _closed t0 = false /\ engine_protocol t0.
Proof.
  unfold LpmTableIPv6.__init__. destruct (negb _); [done|].
  intros [= <-]. split; [done|]. unfold engine_protocol. simpl.
  apply not_elem_of_nil.
Qed.

Lemma protocol_closed {K E} (t : table K E) :
  engine_protocol t -> _closed t = true ->
  exists calls, engine_calls t = calls ++ [CallClose] /\ CallClose ∉ calls.
Proof. unfold engine_protocol. intros Hp Hc. by rewrite Hc in Hp. Qed.

(** X6.  A table never uses its engine after closing it, and closes it
    at most once.  Take a constructed table and any sequence of calls of
    [insert], [delete], [lookup], [lookup_batch], [close], [__enter__]
    and [__exit__], with any arguments, made by a caller who goes on
    after each exception.  As long as the table is open, no [close] has
    been made on the engine; once it is closed, the engine's [close] is
    the last call ever made on it and the only [close].  A closed table
    is frozen: no sequence of calls changes its slots or reaches the
    engine.  Both classes, any engine. *)
Theorem engine_never_used_after_close :
  (forall algorithm (t0 : table Z E4) cs,
      LpmTableIPv4.__init__ algorithm = Return t0 ->
      engine_protocol (run call4 cs t0)) /\
  (forall (t : table Z E4) cs,
      LpmTableIPv4.closed t = true -> run call4 cs t = t) /\
  (forall algorithm (t0 : table (list byte) E6) cs,
      LpmTableIPv6.__init__ algorithm = Return t0 ->
      engine_protocol (run call6 cs t0)) /\
  (forall (t : table (list byte) E6) cs,
      LpmTableIPv6.closed t = true -> run call6 cs t = t).
Proof.
  split; [|split; [|split]].
  - intros algorithm t0 cs Hi. apply run4_protocol.
    by apply (init4_protocol algorithm).
  - intros t cs Hc. by apply run4_closed.
  - intros algorithm t0 cs Hi. apply run6_protocol.
    by apply (init6_protocol algorithm).
  - intros t cs Hc. by apply run6_closed.
Qed.

Lemma with4 {A} (body : Py (table Z E4) A) (t : table Z E4) :
  with_ LpmTableIPv4.__enter__ LpmTableIPv4.__exit__ body t
  = (match fst (body t) with
     | Return a => Return (Some a)
     | Raise e => Raise e
     end, snd (LpmTableIPv4.close (snd (body t)))).
Proof.
  unfold with_, LpmTableIPv4.__enter__, ret.
  destruct (body t) as [[a|e] s]; by rewrite exit4_close.
Qed.

Lemma with6 {A} (body : Py (table (list byte) E6) A)
  (t : table (list byte) E6) :
  with_ LpmTableIPv6.__enter__ LpmTableIPv6.__exit__ body t
  = (match fst (body t) with
     | Return a => Return (Some a)
     | Raise e => Raise e
     end, snd (LpmTableIPv6.close (snd (body t)))).
Proof.
  unfold with_, LpmTableIPv6.__enter__, ret.
  destruct (body t) as [[a|e] s]; by rewrite exit6_close.
Qed.

(** X7.  The [with] statement on a table.  Whatever the body does, when
    the block is left the table is closed; the block ends as its body
    ended, with the body's value or with the very exception the body
    raised ([__exit__] returns [False], so nothing is swallowed); and the
    table is the one a [close()] after the body would leave.  When the
    table was just constructed and the body is a sequence of calls on it
    (stopping at the first that raises, and even if it closes the table
    itself), the engine has been closed exactly once when the block is
    left, and nothing was called on it afterwards.  Both classes, any
    engine. *)
Theorem with_block_closes_table :
  (forall A (body : Py (table Z E4) A) t,
      let r := with_ LpmTableIPv4.__enter__ LpmTableIPv4.__exit__ body t in
      fst r = match fst (body t) with
              | Return a => Return (Some a)
              | Raise e => Raise e
              end /\
      snd r = snd (LpmTableIPv4.close (snd (body t))) /\
      LpmTableIPv4.closed (snd r) = true) /\
  (forall algorithm (t0 : table Z E4) cs,
      LpmTableIPv4.__init__ algorithm = Return t0 ->
      let r := with_ LpmTableIPv4.__enter__ LpmTableIPv4.__exit__
                 (for_each call4 cs) t0 in
      exists calls,
        engine_calls (snd r) = calls ++ [CallClose] /\ CallClose ∉ calls) /\
  (forall A (body : Py (table (list byte) E6) A) t,
      let r := with_ LpmTableIPv6.__enter__ LpmTableIPv6.__exit__ body t in
      fst r = match fst (body t) with
              | Return a => Return (Some a)
              | Raise e => Raise e
              end /\
      snd r = snd (LpmTableIPv6.close (snd (body t))) /\
      LpmTableIPv6.closed (snd r) = true) /\
  (forall algorithm (t0 : table (list byte) E6) cs,
      LpmTableIPv6.__init__ algorithm = Return t0 ->
      let r := with_ LpmTableIPv6.__enter__ LpmTableIPv6.__exit__
                 (for_each call6 cs) t0 in
      exists calls,
        engine_calls (snd r) = calls ++ [CallClose] /\ CallClose ∉ calls).
Proof.
  split; [|split; [|split]].
  - intros A body t r. subst r. rewrite with4. cbn [fst snd].
    split; [done|]. split; [done|]. apply close4_sets_closed.
  - intros algorithm t0 cs Hi r. subst r. rewrite with4. cbn [snd].
    apply protocol_closed; [|apply close4_sets_closed].
    apply protocol_close4, for_each4_protocol.
    by apply (init4_protocol algorithm).
  - intros A body t r. subst r. rewrite with6. cbn [fst snd].
    split; [done|]. split; [done|]. apply close6_sets_closed.
  - intros algorithm t0 cs Hi r. subst r. rewrite with6. cbn [snd].
    apply protocol_closed; [|apply close6_sets_closed].
    apply protocol_close6, for_each6_protocol.
    by apply (init6_protocol algorithm).
Qed.

Lemma del4_some (t : table Z E4) :
  LpmTableIPv4.__del__ (Some t)
  = (Return tt, Some (snd (LpmTableIPv4.close t))).
Proof.
  unfold LpmTableIPv4.__del__. destruct (_closed t) eqn:Hc; simpl.
  - by rewrite close4_closed.
  - by rewrite close4_open.
Qed.

Lemma del6_some (t : table (list byte) E6) :
  LpmTableIPv6.__del__ (Some t)
  = (Return tt, Some (snd (LpmTableIPv6.close t))).
Proof.
  unfold LpmTableIPv6.__del__. destruct (_closed t) eqn:Hc; simpl.
  - by rewrite close6_closed.
  - by rewrite close6_open.
Qed.

(** X8.  The finaliser [__del__].  On a table that was constructed and
    then used in any way, it never raises and leaves the table closed,
    with the engine closed exactly once and nothing called on it after
    that: a table that is dropped while still open is released, and one
    that was already closed (by [close()] or by a [with] block) is left
    exactly as it is, its engine not closed a second time.  On an object
    whose construction failed before the slots were set it does nothing.
    Both classes, any engine. *)
Theorem finaliser_closes_once :
  (forall algorithm (t0 : table Z E4) cs,
      LpmTableIPv4.__init__ algorithm = Return t0 ->
      let t := run call4 cs t0 in
      exists t',
        LpmTableIPv4.__del__ (Some t) = (Return tt, Some t') /\
        LpmTableIPv4.closed t' = true /\
        (exists calls,
            engine_calls t' = calls ++ [CallClose] /\ CallClose ∉ calls) /\
        (LpmTableIPv4.closed t = true -> t' = t)) /\
  LpmTableIPv4.__del__ (E := E4) None = (Return tt, None) /\
  (forall algorithm (t0 : table (list byte) E6) cs,
      LpmTableIPv6.__init__ algorithm = Return t0 ->
      let t := run call6 cs t0 in
      exists t',
        LpmTableIPv6.__del__ (Some t) = (Return tt, Some t') /\
        LpmTableIPv6.closed t' = true /\
        (exists calls,
            engine_calls t' = calls ++ [CallClose] /\ CallClose ∉ calls) /\
        (LpmTableIPv6.closed t = true -> t' = t)) /\
  LpmTableIPv6.__del__ (E := E6) None = (Return tt, None).
Proof.
  split; [|split; [done|split; [|done]]].
  - intros algorithm t0 cs Hi t. eexists. split; [apply del4_some|].
    split; [apply close4_sets_closed|]. split.
    + apply protocol_closed; [|apply close4_sets_closed].
      apply protocol_close4, run4_protocol. by apply (init4_protocol algorithm).
    + intros Hc. by rewrite close4_closed.
  - intros algorithm t0 cs Hi t. eexists. split; [apply del6_some|].
    split; [apply close6_sets_closed|]. split.
    + apply protocol_closed; [|apply close6_sets_closed].
      apply protocol_close6, run6_protocol. by apply (init6_protocol algorithm).
    + intros Hc. by rewrite close6_closed.
Qed.

Lemma call4_flag (t : table Z E4) c :
  _closed (snd (call4 c t)) = _closed t || closes c.
Proof.
  destruct (_closed t) eqn:Hc; [by rewrite call4_closed|].
  destruct c as [p nh|p|a|l| | |exc]; simpl; rewrite ?void_snd.
  - destruct (insert4_inv t p nh)
      as [[_ ->]|[(_ & _ & ->)|[(_ & _ & _ & ->)|(_ & _ & n & _ & ->)]]];
      by simpl.
  - destruct (delete4_inv t p)
      as [[_ ->]|[(_ & _ & ->)|(_ & n & _ & ->)]]; by simpl.
  - destruct (lookup4_inv t a)
      as [[_ ->]|[(_ & _ & ->)|(_ & x & _ & _ & ->)]]; by simpl.
  - destruct (lookup_batch4_inv t l)
      as [[_ ->]|[(_ & _ & ->)|[(_ & _ & ->)|(_ & _ & ks & _ & ->)]]];
      by simpl.
  - apply close4_sets_closed.
  - done.
  - rewrite exit4_close. apply close4_sets_closed.
Qed.

Lemma call6_flag (t : table (list byte) E6) c :
  _closed (snd (call6 c t)) = _closed t || closes c.
Proof.
  destruct (_closed t) eqn:Hc; [by rewrite call6_closed|].
  destruct c as [p nh|p|a|l| | |exc]; simpl; rewrite ?void_snd.
  - destruct (insert6_inv t p nh)
      as [[_ ->]|[(_ & _ & ->)|[(_ & _ & _ & ->)|(_ & _ & n & _ & ->)]]];
      by simpl.
  - destruct (delete6_inv t p)
      as [[_ ->]|[(_ & _ & ->)|(_ & n & _ & ->)]]; by simpl.
  - destruct (lookup6_inv t a)
      as [[_ ->]|[(_ & _ & ->)|(_ & x & _ & _ & ->)]]; by simpl.
  - destruct (lookup_batch6_inv t l)
      as [[_ ->]|[(_ & _ & ->)|[(_ & _ & ->)|(_ & _ & ks & _ & ->)]]];
      by simpl.
  - apply close6_sets_closed.
  - done.
  - rewrite exit6_close. apply close6_sets_closed.
Qed.

Lemma run4_flag (t : table Z E4) cs :
  _closed (run call4 cs t) = _closed t || existsb closes cs.
Proof.
  revert t. induction cs as [|c cs IH]; intros t; simpl.
  - by rewrite orb_false_r.
  - by rewrite IH, call4_flag, orb_assoc.
Qed.

Lemma run6_flag (t : table (list byte) E6) cs :
  _closed (run call6 cs t) = _closed t || existsb closes cs.
Proof.
  revert t. induction cs as [|c cs IH]; intros t; simpl.
  - by rewrite orb_false_r.
  - by rewrite IH, call6_flag, orb_assoc.
Qed.

(** X12.  The property [closed] tells whether the table was closed, and
    nothing else closes a table.  After any sequence of calls on a
    constructed table, by a caller who goes on after each exception,
    [closed] is true exactly if one of the calls was a [close()] or an
    [__exit__] (the end of a [with] block): no [insert], [delete],
    [lookup] or [lookup_batch], whatever its arguments and whether it
    returns or raises, closes the table or opens it again.  Both classes,
    any engine. *)
Theorem closed_iff_close_called :
  (forall algorithm (t0 : table Z E4) cs,
      LpmTableIPv4.__init__ algorithm = Return t0 ->
      LpmTableIPv4.closed (run call4 cs t0) = existsb closes cs) /\
  (forall (t : table Z E4) c,
      LpmTableIPv4.closed (snd (call4 c t))
      = LpmTableIPv4.closed t || closes c) /\
  (forall algorithm (t0 : table (list byte) E6) cs,
      LpmTableIPv6.__init__ algorithm = Return t0 ->
      LpmTableIPv6.closed (run call6 cs t0) = existsb closes cs) /\
  (forall (t : table (list byte) E6) c,
      LpmTableIPv6.closed (snd (call6 c t))
      = LpmTableIPv6.closed t || closes c).
Proof.
  split; [|split; [|split]].
  - intros algorithm t0 cs Hi. unfold LpmTableIPv4.closed.
    rewrite run4_flag.
    by destruct (init4_protocol algorithm t0 Hi) as [-> _].
  - intros t c. apply call4_flag.
  - intros algorithm t0 cs Hi. unfold LpmTableIPv6.closed.
    rewrite run6_flag.
    by destruct (init6_protocol algorithm t0 Hi) as [-> _].
  - intros t c. apply call6_flag.
Qed.

(** *** What the handlers catch *)

Lemma escapes_iff {A} (r : result A) :
  escapes_LpmError r <-> r = Raise ValueError \/ r = Raise AddressValueError.
Proof.
  split.
  - intros (e & -> & He). destruct e; try (by vm_compute in He); auto.
  - intros [->| ->]; eexists; (split; [reflexivity|]); reflexivity.
Qed.

Lemma Forall2_Exists_None {X Y K} (f : X -> option Y) (P : Y -> K -> Prop)
  (l : list X) (ks : list K) :
  Forall2 (fun x k => exists a, f x = Some a /\ P a k) l ks ->
  Exists (fun x => f x = None) l -> False.
Proof.
  induction 1 as [|x k l ks (a & Ha & _) _ IH]; intros Hex.
  - by apply Exists_nil in Hex.
  - apply Exists_cons in Hex as [Hx|Hx]; [congruence|by apply IH].
Qed.

(** X9.  What a handler [except LpmError] does not catch.  With the
    classes of [exceptions.py] (each derives from [LpmError], none from
    [ValueError]): an [insert] raises an exception that is not an
    [LpmError] exactly when the table is open and the next hop is outside
    0..0xFFFFFFFF; a [delete] never does; a [lookup] does exactly when
    the table is open and the address is a string that does not read as
    one, and a [lookup_batch] exactly when the table is open and one of
    its addresses is such a string; a constructor does exactly when the
    algorithm tag is not one of its two.  Every exception of the
    wrappers that is not an [LpmError] is a [ValueError] (that of
    [ipaddress] is a subclass of it), and no [LpmError] is one.  Both
    classes, any engine. *)
Theorem exceptions_outside_LpmError :
  (forall (t : table Z E4) p nh,
      escapes_LpmError (fst (LpmTableIPv4.insert p nh t))
      <-> _closed t = false /\ ~ (0 <= nh <= 0xFFFFFFFF)) /\
  (forall (t : table Z E4) p,
      ~ escapes_LpmError (fst (LpmTableIPv4.delete p t))) /\
  (forall (t : table Z E4) addr,
      escapes_LpmError (fst (LpmTableIPv4.lookup addr t))
      <-> _closed t = false /\ address_of4 addr = None) /\
  (forall (t : table Z E4) addrs,
      escapes_LpmError (fst (LpmTableIPv4.lookup_batch addrs t))
      <-> _closed t = false /\
          Exists (fun x => address_of4 x = None) addrs) /\
  (forall algorithm,
      escapes_LpmError (LpmTableIPv4.__init__ (E := E4) algorithm)
      <-> algo_str algorithm ∉ ["dir24"; "stride8"]%string) /\
  (forall (t : table (list byte) E6) p nh,
      escapes_LpmError (fst (LpmTableIPv6.insert p nh t))
      <-> _closed t = false /\ ~ (0 <= nh <= 0xFFFFFFFF)) /\
  (forall (t : table (list byte) E6) p,
      ~ escapes_LpmError (fst (LpmTableIPv6.delete p t))) /\
  (forall (t : table (list byte) E6) addr,
      escapes_LpmError (fst (LpmTableIPv6.lookup addr t))
      <-> _closed t = false /\ address_of6 addr = None) /\
  (forall (t : table (list byte) E6) addrs,
      escapes_LpmError (fst (LpmTableIPv6.lookup_batch addrs t))
      <-> _closed t = false /\
          Exists (fun x => address_of6 x = None) addrs) /\
  (forall algorithm,
      escapes_LpmError (LpmTableIPv6.__init__ (E := E6) algorithm)
      <-> algo_str algorithm ∉ ["wide16"; "stride8"]%string) /\
  (forall e,
      isinstance e exceptions.LpmError = negb (isinstance e exceptions.ValueError)) /\
  isinstance AddressValueError exceptions.ValueError = true /\
  (forall c,
      exceptions.base c = Some exceptions.LpmError ->
      exceptions.issubclass c exceptions.LpmError = true /\
      exceptions.issubclass c exceptions.ValueError = false).
Proof.
  split; [|split; [|split; [|split; [|split; [|split; [|split; [|split;
    [|split; [|split; [|split; [|split]]]]]]]]]]].
  - intros t p nh. rewrite escapes_iff.
    destruct (insert4_inv t p nh)
      as [[Hc ->]|[(Hc & Hnh & ->)|[(Hc & Hnh & Hp & ->)
                                    |(Hc & Hnh & n & Hp & ->)]]]; simpl.
    + split; [by intros [?|?]|intros [? _]; congruence].
    + split; [done|by left].
    + split; [by intros [?|?]|by intros [_ ?]].
    + destruct (_ =? 0);
        (split; [by intros [?|?]|by intros [_ ?]]).
  - intros t p. rewrite escapes_iff.
    destruct (delete4_inv t p)
      as [[Hc ->]|[(Hc & Hp & ->)|(Hc & n & Hp & ->)]]; simpl;
      [by intros [?|?]|by intros [?|?]|].
    destruct (_ =? 0); by intros [?|?].
  - intros t addr. rewrite escapes_iff.
    destruct (lookup4_inv t addr)
      as [[Hc ->]|[(Hc & Ha & ->)|(Hc & a & Ha & Hv & ->)]]; simpl.
    + split; [by intros [?|?]|intros [? _]; congruence].
    + split; [done|by right].
    + split; [by intros [?|?]|intros [_ ?]; congruence].
  - intros t addrs. rewrite escapes_iff.
    destruct (lookup_batch4_inv t addrs)
      as [[Hc ->]|[(Hc & He & ->)|[(Hc & Hex & ->)
                                   |(Hc & Hne & ks & Hks & ->)]]]; simpl.
    + split; [by intros [?|?]|intros [? _]; congruence].
    + split; [by intros [?|?]|]. subst addrs.
      intros [_ Hex]. by apply Exists_nil in Hex.
    + split; [done|by right].
    + split; [by intros [?|?]|]. intros [_ Hex].
      destruct (Forall2_Exists_None _ _ _ _ Hks Hex).
  - intros algorithm. rewrite escapes_iff. unfold LpmTableIPv4.__init__.
    destruct (bool_decide _) eqn:Hb; simpl.
    + apply bool_decide_eq_true in Hb. split; [by intros [?|?]|done].
    + apply bool_decide_eq_false in Hb. split; [done|by left].
  - intros t p nh. rewrite escapes_iff.
    destruct (insert6_inv t p nh)
      as [[Hc ->]|[(Hc & Hnh & ->)|[(Hc & Hnh & Hp & ->)
                                    |(Hc & Hnh & n & Hp & ->)]]]; simpl.
    + split; [by intros [?|?]|intros [? _]; congruence].
    + split; [done|by left].
    + split; [by intros [?|?]|by intros [_ ?]].
    + destruct (_ =? 0);
        (split; [by intros [?|?]|by intros [_ ?]]).
  - intros t p. rewrite escapes_iff.
    destruct (delete6_inv t p)
      as [[Hc ->]|[(Hc & Hp & ->)|(Hc & n & Hp & ->)]]; simpl;
      [by intros [?|?]|by intros [?|?]|].
    destruct (_ =? 0); by intros [?|?].
  - intros t addr. rewrite escapes_iff.
    destruct (lookup6_inv t addr)
      as [[Hc ->]|[(Hc & Ha & ->)|(Hc & a & Ha & Hv & ->)]]; simpl.
    + split; [by intros [?|?]|intros [? _]; congruence].
    + split; [done|by right].
    + split; [by intros [?|?]|intros [_ ?]; congruence].
  - intros t addrs. rewrite escapes_iff.
    destruct (lookup_batch6_inv t addrs)
      as [[Hc ->]|[(Hc & He & ->)|[(Hc & Hex & ->)
                                   |(Hc & Hne & ks & Hks & ->)]]]; simpl.
    + split; [by intros [?|?]|intros [? _]; congruence].
    + split; [by intros [?|?]|]. subst addrs.
      intros [_ Hex]. by apply Exists_nil in Hex.
    + split; [done|by right].
    + split; [by intros [?|?]|]. intros [_ Hex].
      destruct (Forall2_Exists_None _ _ _ _ Hks Hex).
  - intros algorithm. rewrite escapes_iff. unfold LpmTableIPv6.__init__.
    destruct (bool_decide _) eqn:Hb; simpl.
    + apply bool_decide_eq_true in Hb. split; [by intros [?|?]|done].
    + apply bool_decide_eq_false in Hb. split; [done|by left].
  - by intros [].
  - reflexivity.
  - intros c Hc. by destruct c.
Qed.

End Wrapper.

(** ** The modelled engine *)

Import Engine.

Lemma lpm_search_hit W routes a (n l : nat) nh :
  (l <= n)%nat ->
  routes !! (truncate W a (Z.of_nat l), Z.of_nat l) = Some nh ->
  (forall l' : nat, (l < l' <= n)%nat ->
     routes !! (truncate W a (Z.of_nat l'), Z.of_nat l') = None) ->
  lpm_search W routes a n = nh.
Proof.
  intros Hle Hhit Hnone. induction n as [|n IH].
  - assert (l = 0%nat) as -> by lia. simpl. by rewrite Hhit.
  - destruct (decide (l = S n)) as [->|Hne].
    + cbn [lpm_search]. by rewrite Hhit.
    + cbn [lpm_search]. rewrite Hnone by lia.
      apply IH; [lia|]. intros l' Hl'. apply Hnone. lia.
Qed.

Lemma lpm_search_miss W routes a (n : nat) :
  (forall l : nat, (l <= n)%nat ->
     routes !! (truncate W a (Z.of_nat l), Z.of_nat l) = None) ->
  lpm_search W routes a n = INVALID_NEXT_HOP.
Proof.
  intros Hnone. induction n as [|n IH].
  - simpl. by rewrite Hnone.
  - cbn [lpm_search]. rewrite Hnone by lia.
    apply IH. intros l Hl. apply Hnone. lia.
Qed.

Lemma covers_truncate W net len a :
  0 <= a < 2 ^ W ->
  covers W net len a <-> 0 <= len <= W /\ truncate W a len = net.
Proof.
  intros Ha. unfold covers. split; intros [Hl Hn]; split; try done.
  - by rewrite <- masked_truncate.
  - by rewrite masked_truncate.
Qed.

(** The search returns the next hop of the longest stored prefix that
    covers the address, and the sentinel when none does. *)
Lemma lpm_lookup_longest (W : Z) (routes : gmap (Z * Z) Z) (a : Z) :
  0 <= a < 2 ^ W ->
  (forall net len nh,
      routes !! (net, len) = Some nh -> covers W net len a ->
      (forall net' len' nh',
          routes !! (net', len') = Some nh' -> covers W net' len' a ->
          len' <= len) ->
      lpm_search W routes a (Z.to_nat W) = nh) /\
  ((forall net len nh,
      routes !! (net, len) = Some nh -> ~ covers W net len a) ->
   lpm_search W routes a (Z.to_nat W) = INVALID_NEXT_HOP).
Proof.
  intros Ha.
  assert (HW : 0 <= W).
  { destruct (Z_lt_le_dec W 0) as [Hneg|]; [|done].
    rewrite Z.pow_neg_r in Ha by lia. lia. }
  split.
  - intros net len nh Hst Hcov Hmax.
    apply covers_truncate in Hcov as [Hl Hn]; [|done].
    apply (lpm_search_hit W routes a _ (Z.to_nat len)).
    + lia.
    + rewrite Z2Nat.id by lia. by rewrite Hn.
    + intros l' Hl'.
      destruct (routes !! (truncate W a (Z.of_nat l'), Z.of_nat l'))
        as [nh'|] eqn:Hst'; [|done].
      exfalso. specialize (Hmax _ _ _ Hst').
      assert (Z.of_nat l' <= len); [|lia].
      apply Hmax. apply covers_truncate; [done|]. split; [lia|done].
  - intros Hnone. apply lpm_search_miss. intros l Hl.
    destruct (routes !! (truncate W a (Z.of_nat l), Z.of_nat l))
      as [nh|] eqn:Hst; [|done].
    exfalso. apply (Hnone _ _ _ Hst).
    apply covers_truncate; [done|]. split; [lia|done].
Qed.

(** The dispatcher loop writes the single lookups, in order. *)
Lemma lpm_batch_loop_spec {K} (look : K -> Z) addrs (i : nat) results :
  (i + length addrs <= length results)%nat ->
  lpm_batch_loop look addrs i results
  = take i results ++ map look addrs ++ drop (i + length addrs) results.
Proof.
  revert i results. induction addrs as [|a addrs IH]; intros i results Hlen.
  - simpl. rewrite Nat.add_0_r. by rewrite take_drop.
  - cbn [lpm_batch_loop]. simpl in Hlen.
    rewrite IH by (rewrite length_insert; lia).
    assert (Hi : (i < length results)%nat) by lia.
    rewrite (take_S_r _ _ _ (list_lookup_insert_eq results i (look a) Hi)).
    rewrite take_insert_ge by lia.
    rewrite drop_insert_lt by lia.
    simpl. rewrite <- app_assoc. simpl.
    replace (S (i + length addrs))%nat with (i + S (length addrs))%nat by lia.
    done.
Qed.

Lemma lpm_lookup_batch_map {K} (look : K -> Z) addrs results :
  length results = length addrs ->
  lpm_lookup_batch look addrs results = map look addrs.
Proof.
  intros Hlen. unfold lpm_lookup_batch.
  rewrite lpm_batch_loop_spec by lia. simpl.
  rewrite drop_ge by lia. by rewrite app_nil_r.
Qed.

Lemma lpm_ipv4_batch_as_single : batch_as_single Z lpm_trie.
Proof. intros ks rs e Hlen. simpl. by apply lpm_lookup_batch_map. Qed.

Lemma lpm_ipv6_batch_as_single : batch_as_single (list byte) lpm_trie.
Proof. intros ks rs e Hlen. simpl. by apply lpm_lookup_batch_map. Qed.

Section Modelled.
Context `{Ipaddress}.

Lemma packed4_roundtrip a :
  0 <= a < 2 ^ 32 -> int_from_bytes (LpmTableIPv4.packed a) = a.
Proof. intros Ha. by apply (int_from_to_bytes_small 4). Qed.

Lemma packed6_roundtrip a :
  0 <= a < 2 ^ 128 -> int_from_bytes (LpmTableIPv6.packed a) = a.
Proof. intros Ha. by apply (int_from_to_bytes_small 16). Qed.

Lemma network_of4_valid p n :
  genuine_prefix 32 p -> network_of4 p = Some n -> valid_network 32 n.
Proof.
  destruct p as [m|s|]; simpl; [by intros ? [= <-]| |done].
  intros _. unfold IPv4Network.
  destruct (ip4_network_of_string s) as [[addr plen]|]; [|done].
  destruct (make_network 32 addr plen false) as [m|e] eqn:Hm; [|done].
  intros [= <-]. by eapply make_network_valid.
Qed.

Lemma network_of6_valid p n :
  genuine_prefix 128 p -> network_of6 p = Some n -> valid_network 128 n.
Proof.
  destruct p as [m|s|]; simpl; [by intros ? [= <-]| |done].
  intros _. unfold IPv6Network.
  destruct (ip6_network_of_string s) as [[addr plen]|]; [|done].
  destruct (make_network 128 addr plen false) as [m|e] eqn:Hm; [|done].
  intros [= <-]. by eapply make_network_valid.
Qed.

Lemma address_of4_valid x a :
  genuine_addr 32 x -> address_of4 x = Some a ->
  valid_address 32 a /\ LpmTableIPv4.addr_int_of x = Return a.
Proof.
  destruct x as [b|s]; simpl.
  - intros Hb [= <-]. split; [done|]. by rewrite packed4_roundtrip.
  - intros _. unfold IPv4Address.
    destruct (ip4_address_of_string s) as [b|]; [|done].
    destruct (make_address 32 b) as [r|e] eqn:Hm; [|done].
    intros [= <-]. apply make_address_valid in Hm as [-> Hv].
    split; [done|]. by rewrite packed4_roundtrip.
Qed.

Lemma address_of6_valid x a :
  genuine_addr 128 x -> address_of6 x = Some a ->
  valid_address 128 a /\
  LpmTableIPv6.addr_bytes_of x = Return (LpmTableIPv6.packed a).
Proof.
  destruct x as [b|s]; simpl.
  - by intros Hb [= <-].
  - intros _. unfold IPv6Address.
    destruct (ip6_address_of_string s) as [b|]; [|done].
    destruct (make_address 128 b) as [r|e] eqn:Hm; [|done].
    intros [= <-]. by apply make_address_valid in Hm as [-> Hv].
Qed.

(** *** One update on the modelled engine *)

Lemma insert4_lpm (t : table Z lpm_trie) n nh :
  _closed t = false -> 0 <= nh <= 0xFFFFFFFF -> valid_network 32 n ->
  exists t',
    LpmTableIPv4.insert (PrefixNet n) nh t = (Return tt, t') /\
    _closed t' = false /\
    lpm_routes (_trie t')
    = <[(network_address n, prefixlen n) := nh]> (lpm_routes (_trie t)).
Proof.
  intros Hc Hnh (Ha & Hl & _). rewrite insert4_net by done.
  simpl. unfold lpm_add.
  destruct (0 <=? prefixlen n) eqn:H1; [|lia].
  destruct (prefixlen n <=? 32) eqn:H2; [|lia]. simpl.
  eexists. split; [reflexivity|]. simpl. split; [done|].
  by rewrite packed4_roundtrip.
Qed.

Lemma insert6_lpm (t : table (list byte) lpm_trie) n nh :
  _closed t = false -> 0 <= nh <= 0xFFFFFFFF -> valid_network 128 n ->
  exists t',
    LpmTableIPv6.insert (PrefixNet n) nh t = (Return tt, t') /\
    _closed t' = false /\
    lpm_routes (_trie t')
    = <[(network_address n, prefixlen n) := nh]> (lpm_routes (_trie t)).
Proof.
  intros Hc Hnh (Ha & Hl & _). rewrite insert6_net by done.
  simpl. unfold lpm_add.
  destruct (0 <=? prefixlen n) eqn:H1; [|lia].
  destruct (prefixlen n <=? 128) eqn:H2; [|lia]. simpl.
  eexists. split; [reflexivity|]. simpl. split; [done|].
  by rewrite packed6_roundtrip.
Qed.

Lemma delete4_lpm (t t' : table Z lpm_trie) n :
  _closed t = false -> valid_network 32 n ->
  LpmTableIPv4.delete (PrefixNet n) t = (Return tt, t') ->
  _closed t' = false /\
  is_Some (lpm_routes (_trie t) !! (network_address n, prefixlen n)) /\
  lpm_routes (_trie t')
  = base.delete (network_address n, prefixlen n) (lpm_routes (_trie t)).
Proof.
  intros Hc (Ha & Hl & _). rewrite delete4_net by done.
  simpl. unfold lpm_delete. rewrite packed4_roundtrip by done.
  destruct (lpm_routes (_trie t) !! (network_address n, prefixlen n))
    as [old|] eqn:Hold; simpl; [|done].
  intros [= <-]. simpl. eauto.
Qed.

Lemma delete6_lpm (t t' : table (list byte) lpm_trie) n :
  _closed t = false -> valid_network 128 n ->
  LpmTableIPv6.delete (PrefixNet n) t = (Return tt, t') ->
  _closed t' = false /\
  is_Some (lpm_routes (_trie t) !! (network_address n, prefixlen n)) /\
  lpm_routes (_trie t')
  = base.delete (network_address n, prefixlen n) (lpm_routes (_trie t)).
Proof.
  intros Hc (Ha & Hl & _). rewrite delete6_net by done.
  simpl. unfold lpm_delete. rewrite packed6_roundtrip by done.
  destruct (lpm_routes (_trie t) !! (network_address n, prefixlen n))
    as [old|] eqn:Hold; simpl; [|done].
  intros [= <-]. simpl. eauto.
Qed.

(** *** Histories of updates *)

Lemma stored_after_cons network_of u us net len nh :
  stored_after network_of (u :: us) net len nh <->
  stored_after network_of us net len nh \/
  (exists p, u = Insert p nh /\
     network_of p = Some {| network_address := net; prefixlen := len |} /\
     Forall (fun u => network_of (update_prefix u)
                      <> Some {| network_address := net; prefixlen := len |})
       us).
Proof.
  split.
  - intros (us1 & us2 & p & Heq & Hp & Hrest).
    destruct us1 as [|u' us1]; simpl in Heq; injection Heq as -> ->.
    + right. eauto.
    + left. by exists us1, us2, p.
  - intros [(us1 & us2 & p & -> & Hp & Hrest) | (p & -> & Hp & Hrest)].
    + by exists (u :: us1), us2, p.
    + by exists [], us, p.
Qed.

Lemma stored_after_nil network_of net len nh :
  ~ stored_after network_of [] net len nh.
Proof. intros (us1 & us2 & p & Heq & _). by destruct us1. Qed.

Lemma network_key n net len :
  n = {| network_address := net; prefixlen := len |}
  <-> (network_address n, prefixlen n) = (net, len).
Proof. destruct n as [x y]. simpl. split; by intros [= -> ->]. Qed.

Lemma delete4_no_network (t : table Z lpm_trie) p :
  _closed t = false -> network_of4 p = None ->
  LpmTableIPv4.delete p t = (Raise LpmInvalidPrefixError, t).
Proof.
  intros Hc Hp. unfold LpmTableIPv4.delete. py_unfold. rewrite Hc.
  destruct p as [m|s|]; simpl in *; [done| |done].
  by destruct (IPv4Network s false).
Qed.

Lemma delete6_no_network (t : table (list byte) lpm_trie) p :
  _closed t = false -> network_of6 p = None ->
  LpmTableIPv6.delete p t = (Raise LpmInvalidPrefixError, t).
Proof.
  intros Hc Hp. unfold LpmTableIPv6.delete. py_unfold. rewrite Hc.
  destruct p as [m|s|]; simpl in *; [done| |done].
  by destruct (IPv6Network s false).
Qed.

Lemma insert4_success (t t' : table Z lpm_trie) p nh :
  _closed t = false -> genuine_prefix 32 p ->
  LpmTableIPv4.insert p nh t = (Return tt, t') ->
  exists n, network_of4 p = Some n /\ valid_network 32 n /\
    _closed t' = false /\
    lpm_routes (_trie t')
    = <[(network_address n, prefixlen n) := nh]> (lpm_routes (_trie t)).
Proof.
  intros Hc Hg Hr.
  assert (Hnh : 0 <= nh <= 0xFFFFFFFF).
  { destruct (decide (0 <= nh <= 0xFFFFFFFF)) as [|Hno]; [done|].
    apply (insert4_value_error t p nh Hc) in Hno. by rewrite Hr in Hno. }
  destruct (network_of4 p) as [n|] eqn:Hp.
  - exists n. assert (Hv := network_of4_valid _ _ Hg Hp).
    rewrite (insert4_network_of _ _ _ _ Hp) in Hr.
    destruct (insert4_lpm t n nh Hc Hnh Hv) as (t1 & Ht1 & Hc1 & HR).
    rewrite Ht1 in Hr. injection Hr as <-. done.
  - by rewrite insert4_no_network in Hr.
Qed.

Lemma insert6_success (t t' : table (list byte) lpm_trie) p nh :
  _closed t = false -> genuine_prefix 128 p ->
  LpmTableIPv6.insert p nh t = (Return tt, t') ->
  exists n, network_of6 p = Some n /\ valid_network 128 n /\
    _closed t' = false /\
    lpm_routes (_trie t')
    = <[(network_address n, prefixlen n) := nh]> (lpm_routes (_trie t)).
Proof.
  intros Hc Hg Hr.
  assert (Hnh : 0 <= nh <= 0xFFFFFFFF).
  { destruct (decide (0 <= nh <= 0xFFFFFFFF)) as [|Hno]; [done|].
    apply (insert6_value_error t p nh Hc) in Hno. by rewrite Hr in Hno. }
  destruct (network_of6 p) as [n|] eqn:Hp.
  - exists n. assert (Hv := network_of6_valid _ _ Hg Hp).
    rewrite (insert6_network_of _ _ _ _ Hp) in Hr.
    destruct (insert6_lpm t n nh Hc Hnh Hv) as (t1 & Ht1 & Hc1 & HR).
    rewrite Ht1 in Hr. injection Hr as <-. done.
  - by rewrite insert6_no_network in Hr.
Qed.

Lemma delete4_success (t t' : table Z lpm_trie) p :
  _closed t = false -> genuine_prefix 32 p ->
  LpmTableIPv4.delete p t = (Return tt, t') ->
  exists n, network_of4 p = Some n /\ valid_network 32 n /\
    _closed t' = false /\
    is_Some (lpm_routes (_trie t) !! (network_address n, prefixlen n)) /\
    lpm_routes (_trie t')
    = base.delete (network_address n, prefixlen n) (lpm_routes (_trie t)).
Proof.
  intros Hc Hg Hr. destruct (network_of4 p) as [n|] eqn:Hp.
  - exists n. assert (Hv := network_of4_valid _ _ Hg Hp).
    rewrite (delete4_network_of _ _ _ Hp) in Hr.
    destruct (delete4_lpm t t' n Hc Hv Hr) as (? & ? & ?). done.
  - by rewrite delete4_no_network in Hr.
Qed.

Lemma delete6_success (t t' : table (list byte) lpm_trie) p :
  _closed t = false -> genuine_prefix 128 p ->
  LpmTableIPv6.delete p t = (Return tt, t') ->
  exists n, network_of6 p = Some n /\ valid_network 128 n /\
    _closed t' = false /\
    is_Some (lpm_routes (_trie t) !! (network_address n, prefixlen n)) /\
    lpm_routes (_trie t')
    = base.delete (network_address n, prefixlen n) (lpm_routes (_trie t)).
Proof.
  intros Hc Hg Hr. destruct (network_of6 p) as [n|] eqn:Hp.
  - exists n. assert (Hv := network_of6_valid _ _ Hg Hp).
    rewrite (delete6_network_of _ _ _ Hp) in Hr.
    destruct (delete6_lpm t t' n Hc Hv Hr) as (? & ? & ?). done.
  - by rewrite delete6_no_network in Hr.
Qed.

(** One step of a history, on the map of routes: what the update [u],
    naming the network [n], leaves under the key [net/len]. *)
Lemma history_step (network_of : prefix_arg -> option Network)
  (R0 R1 R : gmap (Z * Z) Z) (u : update) us n net len nh :
  network_of (update_prefix u) = Some n ->
  R1 = match u with
       | Insert _ v => <[(network_address n, prefixlen n) := v]> R0
       | Delete _ => base.delete (network_address n, prefixlen n) R0
       end ->
  (R !! (net, len) = Some nh <->
   stored_after network_of us net len nh \/
   (Forall (fun u => network_of (update_prefix u)
                     <> Some {| network_address := net; prefixlen := len |})
      us /\ R1 !! (net, len) = Some nh)) ->
  (R !! (net, len) = Some nh <->
   stored_after network_of (u :: us) net len nh \/
   (Forall (fun u => network_of (update_prefix u)
                     <> Some {| network_address := net; prefixlen := len |})
      (u :: us) /\ R0 !! (net, len) = Some nh)).
Proof.
  intros Hn -> IH. rewrite IH, stored_after_cons, Forall_cons. clear IH.
  destruct (decide ((network_address n, prefixlen n) = (net, len)))
    as [Hk|Hk].
  - assert (Hnm : n = {| network_address := net; prefixlen := len |})
      by (by apply network_key).
    subst n. rewrite Hk. destruct u as [p v|p]; simpl in *.
    + rewrite lookup_insert_eq. split.
      * intros [?|[? [= ->]]]; [by left; left|]. left. right. by exists p.
      * intros [[?|(p' & [= -> ->] & _ & ?)]|[[Hno _] _]];
          [by left|by right|done].
    + rewrite lookup_delete_eq. split.
      * intros [?|[_ ?]]; [by left; left|done].
      * intros [[?|(p' & ? & _)]|[[Hno _] _]]; [by left|done|done].
  - assert (Hnm : n <> {| network_address := net; prefixlen := len |})
      by (by rewrite network_key).
    assert (Hno : network_of (update_prefix u)
                  <> Some {| network_address := net; prefixlen := len |})
      by (rewrite Hn; by intros [= ?]).
    destruct u as [p v|p]; simpl in *.
    + rewrite lookup_insert_ne by done. split.
      * intros [?|[? ?]]; [by left; left|]. by right.
      * intros [[?|(p' & [= -> ->] & Hp' & ?)]|[[_ ?] ?]];
          [by left|done|by right].
    + rewrite lookup_delete_ne by done. split.
      * intros [?|[? ?]]; [by left; left|]. by right.
      * intros [[?|(p' & ? & _)]|[[_ ?] ?]]; [by left|done|by right].
Qed.

Lemma history4 us (t0 t : table Z lpm_trie) :
  _closed t0 = false ->
  Forall (fun u => genuine_prefix 32 (update_prefix u)) us ->
  for_each apply4 us t0 = (Return tt, t) ->
  _closed t = false /\
  forall net len nh,
    lpm_routes (_trie t) !! (net, len) = Some nh <->
    stored_after network_of4 us net len nh \/
    (Forall (fun u => network_of4 (update_prefix u)
                      <> Some {| network_address := net; prefixlen := len |})
       us /\ lpm_routes (_trie t0) !! (net, len) = Some nh).
Proof.
  revert t0. induction us as [|u us IH]; intros t0 Hc Hg Hrun.
  - injection Hrun as <-. split; [done|]. intros net len nh. split.
    + intros ?. right. by split; [constructor|].
    + intros [Hs|[_ ?]]; [|done]. by apply stored_after_nil in Hs.
  - apply Forall_cons in Hg as [Hgu Hg]. cbn [for_each] in Hrun.
    unfold bind in Hrun.
    destruct (apply4 u t0) as [[[]|e] t1] eqn:Hu; [|done].
    assert (Hstep : exists n, network_of4 (update_prefix u) = Some n /\
      _closed t1 = false /\
      lpm_routes (_trie t1)
      = match u with
        | Insert _ v =>
            <[(network_address n, prefixlen n) := v]> (lpm_routes (_trie t0))
        | Delete _ =>
            base.delete (network_address n, prefixlen n) (lpm_routes (_trie t0))
        end).
    { destruct u as [p v|p]; simpl in *.
      - destruct (insert4_success _ _ _ _ Hc Hgu Hu) as (n & ? & _ & ? & ?).
        by exists n.
      - destruct (delete4_success _ _ _ Hc Hgu Hu) as (n & ? & _ & ? & _ & ?).
        by exists n. }
    destruct Hstep as (n & Hn & Hc1 & HR1).
    destruct (IH t1 Hc1 Hg Hrun) as [Hct Hroutes]. split; [done|].
    intros net len nh. eapply history_step; [exact Hn|exact HR1|].
    apply Hroutes.
Qed.

Lemma history6 us (t0 t : table (list byte) lpm_trie) :
  _closed t0 = false ->
  Forall (fun u => genuine_prefix 128 (update_prefix u)) us ->
  for_each apply6 us t0 = (Return tt, t) ->
  _closed t = false /\
  forall net len nh,
    lpm_routes (_trie t) !! (net, len) = Some nh <->
    stored_after network_of6 us net len nh \/
    (Forall (fun u => network_of6 (update_prefix u)
                      <> Some {| network_address := net; prefixlen := len |})
       us /\ lpm_routes (_trie t0) !! (net, len) = Some nh).
Proof.
  revert t0. induction us as [|u us IH]; intros t0 Hc Hg Hrun.
  - injection Hrun as <-. split; [done|]. intros net len nh. split.
    + intros ?. right. by split; [constructor|].
    + intros [Hs|[_ ?]]; [|done]. by apply stored_after_nil in Hs.
  - apply Forall_cons in Hg as [Hgu Hg]. cbn [for_each] in Hrun.
    unfold bind in Hrun.
    destruct (apply6 u t0) as [[[]|e] t1] eqn:Hu; [|done].
    assert (Hstep : exists n, network_of6 (update_prefix u) = Some n /\
      _closed t1 = false /\
      lpm_routes (_trie t1)
      = match u with
        | Insert _ v =>
            <[(network_address n, prefixlen n) := v]> (lpm_routes (_trie t0))
        | Delete _ =>
            base.delete (network_address n, prefixlen n) (lpm_routes (_trie t0))
        end).
    { destruct u as [p v|p]; simpl in *.
      - destruct (insert6_success _ _ _ _ Hc Hgu Hu) as (n & ? & _ & ? & ?).
        by exists n.
      - destruct (delete6_success _ _ _ Hc Hgu Hu) as (n & ? & _ & ? & _ & ?).
        by exists n. }
    destruct Hstep as (n & Hn & Hc1 & HR1).
    destruct (IH t1 Hc1 Hg Hrun) as [Hct Hroutes]. split; [done|].
    intros net len nh. eapply history_step; [exact Hn|exact HR1|].
    apply Hroutes.
Qed.

(** *** Lookups on the modelled engine *)

Lemma init4_fresh algorithm (t0 : table Z lpm_trie) :
  LpmTableIPv4.__init__ algorithm = Return t0 ->
  _closed t0 = false /\ lpm_routes (_trie t0) = ∅ /\ engine_calls t0 = [].
Proof.
  unfold LpmTableIPv4.__init__.
  destruct (negb _); [done|]. by intros [= <-].
Qed.

Lemma init6_fresh algorithm (t0 : table (list byte) lpm_trie) :
  LpmTableIPv6.__init__ algorithm = Return t0 ->
  _closed t0 = false /\ lpm_routes (_trie t0) = ∅ /\ engine_calls t0 = [].
Proof.
  unfold LpmTableIPv6.__init__.
  destruct (negb _); [done|]. by intros [= <-].
Qed.

Lemma lookup4_longest (t : table Z lpm_trie) addr a :
  _closed t = false -> genuine_addr 32 addr -> address_of4 addr = Some a ->
  (forall net len nh,
      longest_among (stored t) 32 a net len nh ->
      fst (LpmTableIPv4.lookup addr t) = Return (next_hop_or_None nh)) /\
  ((forall net len nh, stored t net len nh -> ~ covers 32 net len a) ->
   fst (LpmTableIPv4.lookup addr t) = Return None).
Proof.
  intros Hc Hg Ha. destruct (address_of4_valid _ _ Hg Ha) as [Hv Hk].
  rewrite (lookup4_open _ _ _ Hc Hk). simpl. unfold lpm_lookup.
  destruct (lpm_lookup_longest 32 (lpm_routes (_trie t)) a Hv) as [Hhit Hmiss].
  split.
  - intros net len nh (Hst & Hcov & Hmax). f_equal. f_equal.
    by apply (Hhit net len nh).
  - intros Hnone. rewrite (Hmiss Hnone). done.
Qed.

Lemma lookup6_longest (t : table (list byte) lpm_trie) addr a :
  _closed t = false -> genuine_addr 128 addr -> address_of6 addr = Some a ->
  (forall net len nh,
      longest_among (stored t) 128 a net len nh ->
      fst (LpmTableIPv6.lookup addr t) = Return (next_hop_or_None nh)) /\
  ((forall net len nh, stored t net len nh -> ~ covers 128 net len a) ->
   fst (LpmTableIPv6.lookup addr t) = Return None).
Proof.
  intros Hc Hg Ha. destruct (address_of6_valid _ _ Hg Ha) as [Hv Hk].
  rewrite (lookup6_open _ _ _ Hc Hk). simpl. unfold lpm_lookup.
  rewrite packed6_roundtrip by done.
  destruct (lpm_lookup_longest 128 (lpm_routes (_trie t)) a Hv) as [Hhit Hmiss].
  split.
  - intros net len nh (Hst & Hcov & Hmax). f_equal. f_equal.
    by apply (Hhit net len nh).
  - intros Hnone. rewrite (Hmiss Hnone). done.
Qed.

(** After a history from a fresh table, the routes of the engine are the
    prefixes stored after the history. *)
Lemma history4_fresh algorithm us (t0 t : table Z lpm_trie) :
  LpmTableIPv4.__init__ algorithm = Return t0 ->
  Forall (fun u => genuine_prefix 32 (update_prefix u)) us ->
  for_each apply4 us t0 = (Return tt, t) ->
  _closed t = false /\
  forall net len nh,
    stored t net len nh <-> stored_after network_of4 us net len nh.
Proof.
  intros Hinit Hg Hrun. destruct (init4_fresh _ _ Hinit) as (Hc & HR & _).
  destruct (history4 us t0 t Hc Hg Hrun) as [Hct Hroutes].
  split; [done|]. intros net len nh. unfold stored. rewrite Hroutes, HR.
  rewrite lookup_empty. split; [|by left]. by intros [?|[_ ?]].
Qed.

Lemma history6_fresh algorithm us (t0 t : table (list byte) lpm_trie) :
  LpmTableIPv6.__init__ algorithm = Return t0 ->
  Forall (fun u => genuine_prefix 128 (update_prefix u)) us ->
  for_each apply6 us t0 = (Return tt, t) ->
  _closed t = false /\
  forall net len nh,
    stored t net len nh <-> stored_after network_of6 us net len nh.
Proof.
  intros Hinit Hg Hrun. destruct (init6_fresh _ _ Hinit) as (Hc & HR & _).
  destruct (history6 us t0 t Hc Hg Hrun) as [Hct Hroutes].
  split; [done|]. intros net len nh. unfold stored. rewrite Hroutes, HR.
  rewrite lookup_empty. split; [|by left]. by intros [?|[_ ?]].
Qed.

Lemma longest_among_iff (P Q : Z -> Z -> Z -> Prop) W a net len nh :
  (forall net len nh, P net len nh <-> Q net len nh) ->
  longest_among P W a net len nh -> longest_among Q W a net len nh.
Proof.
  intros HPQ (HP & Hcov & Hmax). split; [by apply HPQ|]. split; [done|].
  intros net' len' nh' HQ. apply (Hmax net' len' nh'). by apply HPQ.
Qed.

(** C1.  Take a freshly constructed table and any history of inserts and
    deletes that all succeeded on it.  For every address of the family,
    [lookup] returns the next hop of the longest prefix stored after the
    history that covers the address (as the wrapper surfaces a next hop:
    the value itself, which is the case of every legal next hop, [None]
    for 0xFFFFFFFF), and [None] when no stored prefix covers the
    address.  Both classes, over the engine modelled from the spec. *)
Theorem lookup_longest_prefix_match :
  (forall algorithm us (t0 t : table Z lpm_trie) addr a,
      LpmTableIPv4.__init__ algorithm = Return t0 ->
      Forall (fun u => genuine_prefix 32 (update_prefix u)) us ->
      for_each apply4 us t0 = (Return tt, t) ->
      genuine_addr 32 addr -> address_of4 addr = Some a ->
      (forall net len nh,
          longest_among (stored_after network_of4 us) 32 a net len nh ->
          fst (LpmTableIPv4.lookup addr t) = Return (next_hop_or_None nh) /\
          (nh <> INVALID_NEXT_HOP ->
           fst (LpmTableIPv4.lookup addr t) = Return (Some nh))) /\
      ((forall net len nh,
          stored_after network_of4 us net len nh -> ~ covers 32 net len a) ->
       fst (LpmTableIPv4.lookup addr t) = Return None)) /\
  (forall algorithm us (t0 t : table (list byte) lpm_trie) addr a,
      LpmTableIPv6.__init__ algorithm = Return t0 ->
      Forall (fun u => genuine_prefix 128 (update_prefix u)) us ->
      for_each apply6 us t0 = (Return tt, t) ->
      genuine_addr 128 addr -> address_of6 addr = Some a ->
      (forall net len nh,
          longest_among (stored_after network_of6 us) 128 a net len nh ->
          fst (LpmTableIPv6.lookup addr t) = Return (next_hop_or_None nh) /\
          (nh <> INVALID_NEXT_HOP ->
           fst (LpmTableIPv6.lookup addr t) = Return (Some nh))) /\
      ((forall net len nh,
          stored_after network_of6 us net len nh -> ~ covers 128 net len a) ->
       fst (LpmTableIPv6.lookup addr t) = Return None)).
Proof.
  split.
  - intros algorithm us t0 t addr a Hinit Hg Hrun Hga Ha.
    destruct (history4_fresh _ _ _ _ Hinit Hg Hrun) as [Hc Hst].
    destruct (lookup4_longest t addr a Hc Hga Ha) as [Hhit Hmiss].
    split.
    + intros net len nh Hlong.
      assert (Hr : fst (LpmTableIPv4.lookup addr t)
                   = Return (next_hop_or_None nh)).
      { apply (Hhit net len nh).
        eapply longest_among_iff; [|exact Hlong].
        intros. symmetry. apply Hst. }
      split; [done|]. intros Hnh. by rewrite Hr, next_hop_or_None_Some.
    + intros Hnone. apply Hmiss. intros net len nh Hs.
      apply (Hnone net len nh). by apply Hst.
  - intros algorithm us t0 t addr a Hinit Hg Hrun Hga Ha.
    destruct (history6_fresh _ _ _ _ Hinit Hg Hrun) as [Hc Hst].
    destruct (lookup6_longest t addr a Hc Hga Ha) as [Hhit Hmiss].
    split.
    + intros net len nh Hlong.
      assert (Hr : fst (LpmTableIPv6.lookup addr t)
                   = Return (next_hop_or_None nh)).
      { apply (Hhit net len nh).
        eapply longest_among_iff; [|exact Hlong].
        intros. symmetry. apply Hst. }
      split; [done|]. intros Hnh. by rewrite Hr, next_hop_or_None_Some.
    + intros Hnone. apply Hmiss. intros net len nh Hs.
      apply (Hnone net len nh). by apply Hst.
Qed.

(** *** Deleting and re-inserting, on the map of routes *)

Lemma covers_unique W net net' len a :
  covers W net len a -> covers W net' len a -> net = net'.
Proof. intros [_ <-] [_ <-]. done. Qed.

Lemma delete_longest (W : Z) (R : gmap (Z * Z) Z) (a netq lenq old : Z) :
  longest_among (fun x l h => R !! (x, l) = Some h) W a netq lenq old ->
  (forall net len nh,
      longest_among (fun x l h => R !! (x, l) = Some h /\ l < lenq)
        W a net len nh ->
      longest_among (fun x l h => base.delete (netq, lenq) R !! (x, l) = Some h)
        W a net len nh) /\
  ((forall net len nh,
       R !! (net, len) = Some nh -> len < lenq -> ~ covers W net len a) ->
   forall net len nh,
     base.delete (netq, lenq) R !! (net, len) = Some nh ->
     ~ covers W net len a).
Proof.
  intros (Hq & Hcq & Hmaxq).
  assert (Hshorter : forall net len nh,
    base.delete (netq, lenq) R !! (net, len) = Some nh ->
    covers W net len a -> R !! (net, len) = Some nh /\ len < lenq).
  { intros net len nh Hd Hcov.
    apply lookup_delete_Some in Hd as [Hne Hst]. split; [done|].
    assert (len <= lenq) by (by eapply Hmaxq).
    destruct (decide (len = lenq)) as [->|]; [|lia].
    rewrite (covers_unique _ _ _ _ _ Hcov Hcq) in Hne. done. }
  split.
  - intros net len nh ([Hst Hlt] & Hcov & Hmax). split; [|split; [done|]].
    + apply lookup_delete_Some. split; [|done]. intros [= _ ->]. lia.
    + intros net' len' nh' Hd Hcov'.
      destruct (Hshorter _ _ _ Hd Hcov') as [Hst' Hlt'].
      by apply (Hmax net' len' nh').
  - intros Hnone net len nh Hd Hcov.
    destruct (Hshorter _ _ _ Hd Hcov) as [Hst Hlt].
    by apply (Hnone net len nh).
Qed.

Lemma reinsert_longest (W : Z) (R : gmap (Z * Z) Z) (a netp lenp old v : Z) :
  longest_among (fun x l h => R !! (x, l) = Some h) W a netp lenp old ->
  longest_among (fun x l h => <[(netp, lenp) := v]> R !! (x, l) = Some h)
    W a netp lenp v.
Proof.
  intros (Hst & Hcov & Hmax). split; [by rewrite lookup_insert_eq|].
  split; [done|]. intros net' len' nh' Hi Hcov'.
  destruct (decide ((netp, lenp) = (net', len'))) as [[= _ ->]|Hne]; [lia|].
  rewrite lookup_insert_ne in Hi by done. by eapply Hmax.
Qed.

Lemma reinsert_size (R : gmap (Z * Z) Z) k old v :
  R !! k = Some old -> size (<[k := v]> R) = size R.
Proof. intros Hk. by rewrite map_size_insert_Some. Qed.

(** C4.  Take a table after any history of successful updates, and a
    prefix [q] whose delete succeeds on it.  For every address whose
    longest covering stored prefix was [q], [lookup] after the delete
    returns the next hop of the longest remaining stored prefix that
    covers the address (the next less specific one), and [None] when no
    shorter stored prefix covers it.  Both classes, over the engine
    modelled from the spec. *)
Theorem delete_restores_less_specific :
  (forall algorithm us (t0 t t' : table Z lpm_trie) q n old addr a,
      LpmTableIPv4.__init__ algorithm = Return t0 ->
      Forall (fun u => genuine_prefix 32 (update_prefix u)) us ->
      for_each apply4 us t0 = (Return tt, t) ->
      genuine_prefix 32 q -> network_of4 q = Some n ->
      LpmTableIPv4.delete q t = (Return tt, t') ->
      genuine_addr 32 addr -> address_of4 addr = Some a ->
      longest_among (stored_after network_of4 us) 32 a
        (network_address n) (prefixlen n) old ->
      (forall net len nh,
          longest_among
            (fun x l h => stored_after network_of4 us x l h /\ l < prefixlen n)
            32 a net len nh ->
          fst (LpmTableIPv4.lookup addr t') = Return (next_hop_or_None nh) /\
          (nh <> INVALID_NEXT_HOP ->
           fst (LpmTableIPv4.lookup addr t') = Return (Some nh))) /\
      ((forall net len nh,
          stored_after network_of4 us net len nh -> len < prefixlen n ->
          ~ covers 32 net len a) ->
       fst (LpmTableIPv4.lookup addr t') = Return None)) /\
  (forall algorithm us (t0 t t' : table (list byte) lpm_trie) q n old addr a,
      LpmTableIPv6.__init__ algorithm = Return t0 ->
      Forall (fun u => genuine_prefix 128 (update_prefix u)) us ->
      for_each apply6 us t0 = (Return tt, t) ->
      genuine_prefix 128 q -> network_of6 q = Some n ->
      LpmTableIPv6.delete q t = (Return tt, t') ->
      genuine_addr 128 addr -> address_of6 addr = Some a ->
      longest_among (stored_after network_of6 us) 128 a
        (network_address n) (prefixlen n) old ->
      (forall net len nh,
          longest_among
            (fun x l h => stored_after network_of6 us x l h /\ l < prefixlen n)
            128 a net len nh ->
          fst (LpmTableIPv6.lookup addr t') = Return (next_hop_or_None nh) /\
          (nh <> INVALID_NEXT_HOP ->
           fst (LpmTableIPv6.lookup addr t') = Return (Some nh))) /\
      ((forall net len nh,
          stored_after network_of6 us net len nh -> len < prefixlen n ->
          ~ covers 128 net len a) ->
       fst (LpmTableIPv6.lookup addr t') = Return None)).
Proof.
  split.
  - intros algorithm us t0 t t' q n old addr a Hinit Hg Hrun Hgq Hq Hdel
      Hga Ha Hlong.
    destruct (history4_fresh _ _ _ _ Hinit Hg Hrun) as [Hc Hst].
    destruct (delete4_success _ _ _ Hc Hgq Hdel)
      as (n' & Hq' & _ & Hc' & _ & HR').
    rewrite Hq in Hq'. injection Hq' as <-.
    destruct (lookup4_longest t' addr a Hc' Hga Ha) as [Hhit Hmiss].
    assert (HlongR : longest_among
      (fun x l h => lpm_routes (_trie t) !! (x, l) = Some h) 32 a
      (network_address n) (prefixlen n) old).
    { eapply longest_among_iff; [|exact Hlong]. intros. symmetry. apply Hst. }
    destruct (delete_longest _ _ _ _ _ _ HlongR) as [Hnext Hnone].
    split.
    + intros net len nh Hl.
      assert (Hr : fst (LpmTableIPv4.lookup addr t')
                   = Return (next_hop_or_None nh)).
      { apply (Hhit net len nh). unfold stored. rewrite HR'. apply Hnext.
        eapply longest_among_iff; [|exact Hl].
        intros x l h. simpl. by rewrite <- Hst. }
      split; [done|]. intros Hnh. by rewrite Hr, next_hop_or_None_Some.
    + intros Hno. apply Hmiss. intros net len nh. unfold stored. rewrite HR'.
      apply Hnone. intros net' len' nh' Hs. apply (Hno net' len' nh').
      by apply Hst.
  - intros algorithm us t0 t t' q n old addr a Hinit Hg Hrun Hgq Hq Hdel
      Hga Ha Hlong.
    destruct (history6_fresh _ _ _ _ Hinit Hg Hrun) as [Hc Hst].
    destruct (delete6_success _ _ _ Hc Hgq Hdel)
      as (n' & Hq' & _ & Hc' & _ & HR').
    rewrite Hq in Hq'. injection Hq' as <-.
    destruct (lookup6_longest t' addr a Hc' Hga Ha) as [Hhit Hmiss].
    assert (HlongR : longest_among
      (fun x l h => lpm_routes (_trie t) !! (x, l) = Some h) 128 a
      (network_address n) (prefixlen n) old).
    { eapply longest_among_iff; [|exact Hlong]. intros. symmetry. apply Hst. }
    destruct (delete_longest _ _ _ _ _ _ HlongR) as [Hnext Hnone].
    split.
    + intros net len nh Hl.
      assert (Hr : fst (LpmTableIPv6.lookup addr t')
                   = Return (next_hop_or_None nh)).
      { apply (Hhit net len nh). unfold stored. rewrite HR'. apply Hnext.
        eapply longest_among_iff; [|exact Hl].
        intros x l h. simpl. by rewrite <- Hst. }
      split; [done|]. intros Hnh. by rewrite Hr, next_hop_or_None_Some.
    + intros Hno. apply Hmiss. intros net len nh. unfold stored. rewrite HR'.
      apply Hnone. intros net' len' nh' Hs. apply (Hno net' len' nh').
      by apply Hst.
Qed.

(** The search does not see a re-inserted prefix where it does not reach
    it: at every length where it would meet the key, a longer length has
    a stored prefix. *)
Lemma lpm_search_other_key (W : Z) (R : gmap (Z * Z) Z) (a : Z) (n : nat)
  (net len v : Z) :
  (forall l : nat, (l <= n)%nat ->
     (truncate W a (Z.of_nat l), Z.of_nat l) = (net, len) ->
     exists l0 : nat, (l < l0 <= n)%nat /\
       is_Some (R !! (truncate W a (Z.of_nat l0), Z.of_nat l0))) ->
  lpm_search W (<[(net, len) := v]> R) a n = lpm_search W R a n.
Proof.
  induction n as [|n IH]; intros Hkey.
  - cbn [lpm_search].
    destruct (decide ((truncate W a (Z.of_nat 0), Z.of_nat 0) = (net, len)))
      as [He|Hne].
    + destruct (Hkey 0%nat ltac:(lia) He) as (l0 & Hl0 & _). lia.
    + by rewrite lookup_insert_ne.
  - cbn [lpm_search].
    destruct (decide ((truncate W a (Z.of_nat (S n)), Z.of_nat (S n))
                      = (net, len))) as [He|Hne].
    + destruct (Hkey (S n) ltac:(lia) He) as (l0 & Hl0 & _). lia.
    + rewrite lookup_insert_ne by done.
      destruct (R !! (truncate W a (Z.of_nat (S n)), Z.of_nat (S n)))
        as [nh|] eqn:Htop; [done|].
      apply IH. intros l Hl He.
      destruct (Hkey l ltac:(lia) He) as (l0 & Hl0 & Hsome).
      exists l0. split; [|done].
      destruct (decide (l0 = S n)) as [->|]; [|lia].
      rewrite Htop in Hsome. by destruct Hsome.
Qed.

(** A re-insert leaves the search of an address alone when the prefix
    does not cover it, or when a longer stored prefix covers it too. *)
Lemma reinsert_search_other (W : Z) (R : gmap (Z * Z) Z) (a net len v : Z) :
  0 <= a < 2 ^ W ->
  (~ covers W net len a \/
   exists net' len' nh',
     R !! (net', len') = Some nh' /\ covers W net' len' a /\ len < len') ->
  lpm_search W (<[(net, len) := v]> R) a (Z.to_nat W)
  = lpm_search W R a (Z.to_nat W).
Proof.
  intros Ha Hother.
  assert (HW : 0 <= W).
  { destruct (Z_lt_le_dec W 0) as [Hneg|]; [|done].
    rewrite Z.pow_neg_r in Ha by lia. lia. }
  apply lpm_search_other_key. intros l Hl [= Hnet Hlen].
  destruct Hother as [Hno|(net' & len' & nh' & Hst & Hcov & Hlt)].
  - exfalso. apply Hno. apply covers_truncate; [done|].
    split; [lia|]. by rewrite <- Hlen.
  - apply covers_truncate in Hcov as [Hl' Hn']; [|done].
    exists (Z.to_nat len'). split; [lia|].
    rewrite Z2Nat.id by lia. rewrite Hn', Hst. by eexists.
Qed.

(** C5.  Take an open table that stores the prefix [network/length]
    with some next hop [old], and a legal next hop [v].  Inserting the
    prefix again with [v] succeeds, leaves the table open and
    [num_prefixes] unchanged: the prefix is now stored with [v], and
    every other stored prefix is stored as before.  The covered addresses
    are the ones the prefix answers for, those it covers and no longer
    stored prefix covers: before the insert [lookup] returned [old] for
    them (as the wrapper surfaces a next hop), afterwards it returns [v].
    The lookup of every other address, one the prefix does not cover or
    one that a longer stored prefix covers as well, is what it was
    before.  Both classes, over the engine modelled from the spec. *)
Theorem reinsert_updates_next_hop :
  (forall (t : table Z lpm_trie) p n old v,
      LpmTableIPv4.closed t = false ->
      genuine_prefix 32 p -> network_of4 p = Some n ->
      stored t (network_address n) (prefixlen n) old ->
      0 <= v <= 0xFFFFFFFE ->
      exists t',
        LpmTableIPv4.insert p v t = (Return tt, t') /\
        LpmTableIPv4.closed t' = false /\
        LpmTableIPv4.num_prefixes t' = LpmTableIPv4.num_prefixes t /\
        stored t' (network_address n) (prefixlen n) v /\
        (forall net len nh,
            (net, len) <> (network_address n, prefixlen n) ->
            stored t' net len nh <-> stored t net len nh) /\
        (forall addr a,
            genuine_addr 32 addr -> address_of4 addr = Some a ->
            covers 32 (network_address n) (prefixlen n) a ->
            (forall net' len' nh',
                stored t net' len' nh' -> covers 32 net' len' a ->
                len' <= prefixlen n) ->
            fst (LpmTableIPv4.lookup addr t) = Return (next_hop_or_None old) /\
            fst (LpmTableIPv4.lookup addr t') = Return (Some v)) /\
        (forall addr a,
            genuine_addr 32 addr -> address_of4 addr = Some a ->
            (~ covers 32 (network_address n) (prefixlen n) a \/
             exists net' len' nh',
               stored t net' len' nh' /\ covers 32 net' len' a /\
               prefixlen n < len') ->
            fst (LpmTableIPv4.lookup addr t')
            = fst (LpmTableIPv4.lookup addr t))) /\
  (forall (t : table (list byte) lpm_trie) p n old v,
      LpmTableIPv6.closed t = false ->
      genuine_prefix 128 p -> network_of6 p = Some n ->
      stored t (network_address n) (prefixlen n) old ->
      0 <= v <= 0xFFFFFFFE ->
      exists t',
        LpmTableIPv6.insert p v t = (Return tt, t') /\
        LpmTableIPv6.closed t' = false /\
        LpmTableIPv6.num_prefixes t' = LpmTableIPv6.num_prefixes t /\
        stored t' (network_address n) (prefixlen n) v /\
        (forall net len nh,
            (net, len) <> (network_address n, prefixlen n) ->
            stored t' net len nh <-> stored t net len nh) /\
        (forall addr a,
            genuine_addr 128 addr -> address_of6 addr = Some a ->
            covers 128 (network_address n) (prefixlen n) a ->
            (forall net' len' nh',
                stored t net' len' nh' -> covers 128 net' len' a ->
                len' <= prefixlen n) ->
            fst (LpmTableIPv6.lookup addr t) = Return (next_hop_or_None old) /\
            fst (LpmTableIPv6.lookup addr t') = Return (Some v)) /\
        (forall addr a,
            genuine_addr 128 addr -> address_of6 addr = Some a ->
            (~ covers 128 (network_address n) (prefixlen n) a \/
             exists net' len' nh',
               stored t net' len' nh' /\ covers 128 net' len' a /\
               prefixlen n < len') ->
            fst (LpmTableIPv6.lookup addr t')
            = fst (LpmTableIPv6.lookup addr t))).
Proof.
  split.
  - intros t p n old v Hc Hgp Hp Hold Hv. unfold LpmTableIPv4.closed in *.
    assert (Hvn := network_of4_valid _ _ Hgp Hp).
    destruct (insert4_lpm t n v Hc ltac:(lia) Hvn) as (t' & Hins & Hc' & HR').
    exists t'. rewrite (insert4_network_of _ _ _ _ Hp).
    split; [done|]. split; [done|].
    split; [|split; [|split; [|split]]].
    + unfold LpmTableIPv4.num_prefixes. simpl. unfold lpm_num_prefixes.
      rewrite HR'. f_equal. eapply reinsert_size. exact Hold.
    + unfold stored. by rewrite HR', lookup_insert_eq.
    + intros net len nh Hne. unfold stored.
      by rewrite HR', lookup_insert_ne.
    + intros addr a Hga Ha Hcov Hmax.
      assert (Hlong : longest_among (stored t) 32 a
                        (network_address n) (prefixlen n) old) by done.
      destruct (lookup4_longest t addr a Hc Hga Ha) as [Hhit _].
      destruct (lookup4_longest t' addr a Hc' Hga Ha) as [Hhit' _].
      split; [by apply (Hhit _ _ _ Hlong)|].
      rewrite (Hhit' (network_address n) (prefixlen n) v).
      * rewrite next_hop_or_None_Some; [done|]. unfold INVALID_NEXT_HOP. lia.
      * unfold stored. rewrite HR'. by apply (reinsert_longest _ _ _ _ _ old).
    + intros addr a Hga Ha Hother.
      destruct (address_of4_valid _ _ Hga Ha) as [Hva Hk].
      rewrite (lookup4_open _ _ _ Hc' Hk), (lookup4_open _ _ _ Hc Hk).
      simpl. unfold lpm_lookup. rewrite HR'. do 2 f_equal.
      by apply reinsert_search_other.
  - intros t p n old v Hc Hgp Hp Hold Hv. unfold LpmTableIPv6.closed in *.
    assert (Hvn := network_of6_valid _ _ Hgp Hp).
    destruct (insert6_lpm t n v Hc ltac:(lia) Hvn) as (t' & Hins & Hc' & HR').
    exists t'. rewrite (insert6_network_of _ _ _ _ Hp).
    split; [done|]. split; [done|].
    split; [|split; [|split; [|split]]].
    + unfold LpmTableIPv6.num_prefixes. simpl. unfold lpm_num_prefixes.
      rewrite HR'. f_equal. eapply reinsert_size. exact Hold.
    + unfold stored. by rewrite HR', lookup_insert_eq.
    + intros net len nh Hne. unfold stored.
      by rewrite HR', lookup_insert_ne.
    + intros addr a Hga Ha Hcov Hmax.
      assert (Hlong : longest_among (stored t) 128 a
                        (network_address n) (prefixlen n) old) by done.
      destruct (lookup6_longest t addr a Hc Hga Ha) as [Hhit _].
      destruct (lookup6_longest t' addr a Hc' Hga Ha) as [Hhit' _].
      split; [by apply (Hhit _ _ _ Hlong)|].
      rewrite (Hhit' (network_address n) (prefixlen n) v).
      * rewrite next_hop_or_None_Some; [done|]. unfold INVALID_NEXT_HOP. lia.
      * unfold stored. rewrite HR'. by apply (reinsert_longest _ _ _ _ _ old).
    + intros addr a Hga Ha Hother.
      destruct (address_of6_valid _ _ Hga Ha) as [Hva Hk].
      rewrite (lookup6_open _ _ _ Hc' Hk), (lookup6_open _ _ _ Hc Hk).
      simpl. unfold lpm_lookup. rewrite HR'.
      rewrite packed6_roundtrip by done. do 2 f_equal.
      by apply reinsert_search_other.
Qed.

(** *** Canonical prefixes *)

Lemma valid_network_host_bits W n :
  valid_network W n -> host_bits_zero W (network_address n) (prefixlen n).
Proof.
  intros (_ & Hl & Hm). rewrite <- Hm. by apply masked_host_bits_zero.
Qed.

Lemma IPv4Network_masks s addr len :
  ip4_network_of_string s = Some (addr, len) ->
  0 <= addr < 2 ^ 32 -> 0 <= len <= 32 ->
  IPv4Network s false
  = Return {| network_address := Z.land addr (_ip_int_from_prefix 32 len);
              prefixlen := len |}.
Proof.
  intros Hs Ha Hl. unfold IPv4Network. rewrite Hs.
  by apply make_network_masks.
Qed.

Lemma IPv6Network_masks s addr len :
  ip6_network_of_string s = Some (addr, len) ->
  0 <= addr < 2 ^ 128 -> 0 <= len <= 128 ->
  IPv6Network s false
  = Return {| network_address := Z.land addr (_ip_int_from_prefix 128 len);
              prefixlen := len |}.
Proof.
  intros Hs Ha Hl. unfold IPv6Network. rewrite Hs.
  by apply make_network_masks.
Qed.

(** C8.  [insert] canonicalizes.  For every string that reads as an
    address [addr] and a prefix length [len] of the family, whatever the
    host bits of [addr]: the network the wrapper builds is
    [addr & netmask, len], with every bit beyond [len] zero; the insert
    is, outcome and table alike, the insert of that masked network (given
    as an object or as a string); the engine's [add] receives the packed
    masked address; and over the engine modelled from the spec the insert
    succeeds and stores the masked prefix and nothing else new.  Every
    network the wrapper hands to the engine has no bit beyond its length
    set.  Both classes. *)
Theorem insert_masks_host_bits :
  (forall s addr len,
      ip4_network_of_string s = Some (addr, len) ->
      0 <= addr < 2 ^ 32 -> 0 <= len <= 32 ->
      let net := Z.land addr (_ip_int_from_prefix 32 len) in
      let n := {| network_address := net; prefixlen := len |} in
      IPv4Network s false = Return n /\
      host_bits_zero 32 net len /\
      (forall E (eng : LpmTrie Z E) (t : table Z E) nh,
          LpmTableIPv4.insert (PrefixStr s) nh t
          = LpmTableIPv4.insert (PrefixNet n) nh t) /\
      (forall E (eng : LpmTrie Z E) (t : table Z E) nh s',
          ip4_network_of_string s' = Some (net, len) ->
          LpmTableIPv4.insert (PrefixStr s) nh t
          = LpmTableIPv4.insert (PrefixStr s') nh t) /\
      (forall E (eng : LpmTrie Z E) (t : table Z E) nh,
          LpmTableIPv4.closed t = false -> 0 <= nh <= 0xFFFFFFFF ->
          engine_calls (snd (LpmTableIPv4.insert (PrefixStr s) nh t))
          = engine_calls t ++ [CallAdd (LpmTableIPv4.packed net) len nh] /\
          int_from_bytes (LpmTableIPv4.packed net) = net) /\
      (forall (t : table Z lpm_trie) nh,
          LpmTableIPv4.closed t = false -> 0 <= nh <= 0xFFFFFFFF ->
          exists t',
            LpmTableIPv4.insert (PrefixStr s) nh t = (Return tt, t') /\
            stored t' net len nh /\
            forall x l h,
              stored t' x l h -> (x, l) = (net, len) \/ stored t x l h)) /\
  (forall p n,
      genuine_prefix 32 p -> network_of4 p = Some n ->
      host_bits_zero 32 (network_address n) (prefixlen n)) /\
  (forall s addr len,
      ip6_network_of_string s = Some (addr, len) ->
      0 <= addr < 2 ^ 128 -> 0 <= len <= 128 ->
      let net := Z.land addr (_ip_int_from_prefix 128 len) in
      let n := {| network_address := net; prefixlen := len |} in
      IPv6Network s false = Return n /\
      host_bits_zero 128 net len /\
      (forall E (eng : LpmTrie (list byte) E) (t : table (list byte) E) nh,
          LpmTableIPv6.insert (PrefixStr s) nh t
          = LpmTableIPv6.insert (PrefixNet n) nh t) /\
      (forall E (eng : LpmTrie (list byte) E) (t : table (list byte) E) nh s',
          ip6_network_of_string s' = Some (net, len) ->
          LpmTableIPv6.insert (PrefixStr s) nh t
          = LpmTableIPv6.insert (PrefixStr s') nh t) /\
      (forall E (eng : LpmTrie (list byte) E) (t : table (list byte) E) nh,
          LpmTableIPv6.closed t = false -> 0 <= nh <= 0xFFFFFFFF ->
          engine_calls (snd (LpmTableIPv6.insert (PrefixStr s) nh t))
          = engine_calls t ++ [CallAdd (LpmTableIPv6.packed net) len nh] /\
          int_from_bytes (LpmTableIPv6.packed net) = net) /\
      (forall (t : table (list byte) lpm_trie) nh,
          LpmTableIPv6.closed t = false -> 0 <= nh <= 0xFFFFFFFF ->
          exists t',
            LpmTableIPv6.insert (PrefixStr s) nh t = (Return tt, t') /\
            stored t' net len nh /\
            forall x l h,
              stored t' x l h -> (x, l) = (net, len) \/ stored t x l h)) /\
  (forall p n,
      genuine_prefix 128 p -> network_of6 p = Some n ->
      host_bits_zero 128 (network_address n) (prefixlen n)).
Proof.
  split; [|split; [|split]].
  - intros s addr len Hs Ha Hl net n.
    assert (Hn := IPv4Network_masks s addr len Hs Ha Hl). fold net in Hn.
    fold n in Hn.
    assert (Hnet : 0 <= net < 2 ^ 32) by (by apply masked_range).
    assert (Hvn : valid_network 32 n).
    { repeat split; simpl; try lia. apply masked_idempotent. }
    split; [done|]. split; [by apply masked_host_bits_zero|].
    split; [intros; by apply insert4_str|].
    split.
    { intros E eng t nh s' Hs'. rewrite (insert4_str t s n nh Hn).
      symmetry. apply insert4_str.
      rewrite (IPv4Network_masks s' net len Hs' Hnet Hl).
      unfold n, net. by rewrite masked_idempotent. }
    split.
    { intros E eng t nh Hc Hnh. rewrite (insert4_str t s n nh Hn).
      rewrite insert4_net by done. simpl. split; [done|].
      by apply packed4_roundtrip. }
    intros t nh Hc Hnh. rewrite (insert4_str t s n nh Hn).
    destruct (insert4_lpm t n nh Hc Hnh Hvn) as (t' & Hins & _ & HR).
    exists t'. split; [done|]. unfold stored. rewrite HR. simpl.
    split; [by rewrite lookup_insert_eq|].
    intros x l h Hx.
    destruct (decide ((net, len) = (x, l))) as [->|Hne]; [by left|].
    right. by rewrite lookup_insert_ne in Hx.
  - intros p n Hg Hp. apply valid_network_host_bits.
    by eapply network_of4_valid.
  - intros s addr len Hs Ha Hl net n.
    assert (Hn := IPv6Network_masks s addr len Hs Ha Hl). fold net in Hn.
    fold n in Hn.
    assert (Hnet : 0 <= net < 2 ^ 128) by (by apply masked_range).
    assert (Hvn : valid_network 128 n).
    { repeat split; simpl; try lia. apply masked_idempotent. }
    split; [done|]. split; [by apply masked_host_bits_zero|].
    split; [intros; by apply insert6_str|].
    split.
    { intros E eng t nh s' Hs'. rewrite (insert6_str t s n nh Hn).
      symmetry. apply insert6_str.
      rewrite (IPv6Network_masks s' net len Hs' Hnet Hl).
      unfold n, net. by rewrite masked_idempotent. }
    split.
    { intros E eng t nh Hc Hnh. rewrite (insert6_str t s n nh Hn).
      rewrite insert6_net by done. simpl. split; [done|].
      by apply packed6_roundtrip. }
    intros t nh Hc Hnh. rewrite (insert6_str t s n nh Hn).
    destruct (insert6_lpm t n nh Hc Hnh Hvn) as (t' & Hins & _ & HR).
    exists t'. split; [done|]. unfold stored. rewrite HR. simpl.
    split; [by rewrite lookup_insert_eq|].
    intros x l h Hx.
    destruct (decide ((net, len) = (x, l))) as [->|Hne]; [by left|].
    right. by rewrite lookup_insert_ne in Hx.
  - intros p n Hg Hp. apply valid_network_host_bits.
    by eapply network_of6_valid.
Qed.

(** *** Construction *)

(** C9.  Constructing an [LpmTableIPv4] returns a table exactly for the
    tags ['dir24'] and ['stride8'], and an [LpmTableIPv6] exactly for
    ['wide16'] and ['stride8']; any other tag, a valid tag of the other
    family included, raises [ValueError].  A constructed table is open,
    no engine call has been made on it, its engine was created with the
    tag, and over the engine modelled from the spec it is empty
    ([num_prefixes] is 0). *)
Theorem construction_checks_algorithm :
  (forall E (eng : LpmTrie Z E) algorithm,
      (algo_str algorithm = "dir24"%string \/
       algo_str algorithm = "stride8"%string ->
       LpmTableIPv4.__init__ (E := E) algorithm
       = Return {| _trie := trie_new (algo_str algorithm); _closed := false;
                   engine_calls := [] |}) /\
      (algo_str algorithm <> "dir24"%string ->
       algo_str algorithm <> "stride8"%string ->
       LpmTableIPv4.__init__ (E := E) algorithm = Raise ValueError)) /\
  (forall E (eng : LpmTrie (list byte) E) algorithm,
      (algo_str algorithm = "wide16"%string \/
       algo_str algorithm = "stride8"%string ->
       LpmTableIPv6.__init__ (E := E) algorithm
       = Return {| _trie := trie_new (algo_str algorithm); _closed := false;
                   engine_calls := [] |}) /\
      (algo_str algorithm <> "wide16"%string ->
       algo_str algorithm <> "stride8"%string ->
       LpmTableIPv6.__init__ (E := E) algorithm = Raise ValueError)) /\
  (forall E (eng : LpmTrie Z E),
      LpmTableIPv4.__init__ (E := E) (AlgEnum WIDE16) = Raise ValueError /\
      LpmTableIPv4.__init__ (E := E) (AlgStr "wide16") = Raise ValueError) /\
  (forall E (eng : LpmTrie (list byte) E),
      LpmTableIPv6.__init__ (E := E) (AlgEnum DIR24) = Raise ValueError /\
      LpmTableIPv6.__init__ (E := E) (AlgStr "dir24") = Raise ValueError) /\
  (forall algorithm (t : table Z lpm_trie),
      LpmTableIPv4.__init__ algorithm = Return t ->
      LpmTableIPv4.num_prefixes t = 0 /\
      LpmTableIPv4.closed t = false /\
      LpmTableIPv4.algorithm t = algo_str algorithm) /\
  (forall algorithm (t : table (list byte) lpm_trie),
      LpmTableIPv6.__init__ algorithm = Return t ->
      LpmTableIPv6.num_prefixes t = 0 /\
      LpmTableIPv6.closed t = false /\
      LpmTableIPv6.algorithm t = algo_str algorithm).
Proof.
  split; [|split; [|split; [|split; [|split]]]].
  - intros E eng algorithm. unfold LpmTableIPv4.__init__. split.
    + intros Hs. rewrite bool_decide_eq_true_2; [done|].
      rewrite !elem_of_cons. tauto.
    + intros H1 H2. rewrite bool_decide_eq_false_2; [done|].
      rewrite !elem_of_cons, elem_of_nil. tauto.
  - intros E eng algorithm. unfold LpmTableIPv6.__init__. split.
    + intros Hs. rewrite bool_decide_eq_true_2; [done|].
      rewrite !elem_of_cons. tauto.
    + intros H1 H2. rewrite bool_decide_eq_false_2; [done|].
      rewrite !elem_of_cons, elem_of_nil. tauto.
  - intros E eng. split; reflexivity.
  - intros E eng. split; reflexivity.
  - intros algorithm t. unfold LpmTableIPv4.__init__.
    destruct (negb _); [done|]. by intros [= <-].
  - intros algorithm t. unfold LpmTableIPv6.__init__.
    destruct (negb _); [done|]. by intros [= <-].
Qed.

End Modelled.

(** ** Deleting what was inserted *)

Section Removal.
Context `{Ipaddress}.

Lemma masked_network_valid W addr len :
  0 <= addr < 2 ^ W -> 0 <= len <= W ->
  valid_network W {| network_address := Z.land addr (_ip_int_from_prefix W len);
                     prefixlen := len |}.
Proof.
  intros Ha Hl. split; [by apply masked_range|]. split; [done|].
  apply masked_idempotent.
Qed.

(** X10.  [delete] reads its prefix exactly as [insert] does.  For
    every string that reads as an address [addr] and a prefix length
    [len] of the family, whatever the host bits of [addr], the delete is,
    outcome and table alike, the delete of the masked network
    [addr & netmask, len], given as an object or under any other
    spelling; and the key the engine's [delete] receives (the packed
    masked address, 4 or 16 bytes, and the length) is the very key the
    engine's [add] receives when the same string is inserted.  So a route
    can be deleted under any spelling of the prefix it was inserted
    under.  Both classes, any engine. *)
Theorem delete_masks_host_bits :
  (forall s addr len,
      ip4_network_of_string s = Some (addr, len) ->
      0 <= addr < 2 ^ 32 -> 0 <= len <= 32 ->
      let net := Z.land addr (_ip_int_from_prefix 32 len) in
      let n := {| network_address := net; prefixlen := len |} in
      (forall E (eng : LpmTrie Z E) (t : table Z E),
          LpmTableIPv4.delete (PrefixStr s) t
          = LpmTableIPv4.delete (PrefixNet n) t) /\
      (forall E (eng : LpmTrie Z E) (t : table Z E) s',
          ip4_network_of_string s' = Some (net, len) ->
          LpmTableIPv4.delete (PrefixStr s) t
          = LpmTableIPv4.delete (PrefixStr s') t) /\
      (forall E (eng : LpmTrie Z E) (t t' : table Z E) nh,
          LpmTableIPv4.closed t = false -> LpmTableIPv4.closed t' = false ->
          0 <= nh <= 0xFFFFFFFF ->
          let bs := LpmTableIPv4.packed net in
          engine_calls (snd (LpmTableIPv4.insert (PrefixStr s) nh t))
          = engine_calls t ++ [CallAdd bs len nh] /\
          engine_calls (snd (LpmTableIPv4.delete (PrefixStr s) t'))
          = engine_calls t' ++ [CallDelete bs len] /\
          length bs = 4%nat /\ int_from_bytes bs = net)) /\
  (forall s addr len,
      ip6_network_of_string s = Some (addr, len) ->
      0 <= addr < 2 ^ 128 -> 0 <= len <= 128 ->
      let net := Z.land addr (_ip_int_from_prefix 128 len) in
      let n := {| network_address := net; prefixlen := len |} in
      (forall E (eng : LpmTrie (list byte) E) (t : table (list byte) E),
          LpmTableIPv6.delete (PrefixStr s) t
          = LpmTableIPv6.delete (PrefixNet n) t) /\
      (forall E (eng : LpmTrie (list byte) E) (t : table (list byte) E) s',
          ip6_network_of_string s' = Some (net, len) ->
          LpmTableIPv6.delete (PrefixStr s) t
          = LpmTableIPv6.delete (PrefixStr s') t) /\
      (forall E (eng : LpmTrie (list byte) E) (t t' : table (list byte) E) nh,
          LpmTableIPv6.closed t = false -> LpmTableIPv6.closed t' = false ->
          0 <= nh <= 0xFFFFFFFF ->
          let bs := LpmTableIPv6.packed net in
          engine_calls (snd (LpmTableIPv6.insert (PrefixStr s) nh t))
          = engine_calls t ++ [CallAdd bs len nh] /\
          engine_calls (snd (LpmTableIPv6.delete (PrefixStr s) t'))
          = engine_calls t' ++ [CallDelete bs len] /\
          length bs = 16%nat /\ int_from_bytes bs = net)).
Proof.
  split.
  - intros s addr len Hs Ha Hl net n.
    pose proof (IPv4Network_masks s addr len Hs Ha Hl) as Hn.
    pose proof (masked_network_valid 32 addr len Ha Hl) as (Hr & _ & Hm).
    simpl in Hr, Hm. fold net in Hr, Hm, Hn. fold n in Hn.
    split; [|split].
    + intros E eng t. by apply delete4_str.
    + intros E eng t s' Hs'.
      rewrite (delete4_str t s n Hn). symmetry. apply delete4_str.
      rewrite (IPv4Network_masks s' net len Hs' Hr Hl). subst n.
      by rewrite Hm.
    + intros E eng t t' nh Hc Hc' Hnh bs.
      rewrite (insert4_str t s n nh Hn), insert4_net by done.
      rewrite (delete4_str t' s n Hn), delete4_net by done.
      split; [done|]. split; [done|]. split; [apply int_to_bytes_length|].
      by apply packed4_roundtrip.
  - intros s addr len Hs Ha Hl net n.
    pose proof (IPv6Network_masks s addr len Hs Ha Hl) as Hn.
    pose proof (masked_network_valid 128 addr len Ha Hl) as (Hr & _ & Hm).
    simpl in Hr, Hm. fold net in Hr, Hm, Hn. fold n in Hn.
    split; [|split].
    + intros E eng t. by apply delete6_str.
    + intros E eng t s' Hs'.
      rewrite (delete6_str t s n Hn). symmetry. apply delete6_str.
      rewrite (IPv6Network_masks s' net len Hs' Hr Hl). subst n.
      by rewrite Hm.
    + intros E eng t t' nh Hc Hc' Hnh bs.
      rewrite (insert6_str t s n nh Hn), insert6_net by done.
      rewrite (delete6_str t' s n Hn), delete6_net by done.
      split; [done|]. split; [done|]. split; [apply int_to_bytes_length|].
      by apply packed6_roundtrip.
Qed.

(** *** On the modelled engine *)

Lemma lookup4_same_routes (t t' : table Z lpm_trie) addr :
  _closed t = _closed t' ->
  lpm_routes (_trie t) = lpm_routes (_trie t') ->
  fst (LpmTableIPv4.lookup addr t) = fst (LpmTableIPv4.lookup addr t').
Proof.
  intros Hc Hr.
  destruct (lookup4_inv t addr)
    as [[Hc1 ->]|[(Hc1 & Ha & ->)|(Hc1 & a & Ha & _ & ->)]];
    rewrite Hc in Hc1.
  - by rewrite lookup4_closed.
  - pose proof (addr_int_of_cases addr) as Hk. rewrite Ha in Hk.
    by rewrite (lookup4_unreadable t' addr _ Hc1 Hk).
  - pose proof (addr_int_of_cases addr) as Hk. rewrite Ha in Hk.
    destruct Hk as [Hk _]. rewrite (lookup4_open t' addr _ Hc1 Hk).
    simpl. unfold lpm_lookup. by rewrite Hr.
Qed.

Lemma lookup6_same_routes (t t' : table (list byte) lpm_trie) addr :
  _closed t = _closed t' ->
  lpm_routes (_trie t) = lpm_routes (_trie t') ->
  fst (LpmTableIPv6.lookup addr t) = fst (LpmTableIPv6.lookup addr t').
Proof.
  intros Hc Hr.
  destruct (lookup6_inv t addr)
    as [[Hc1 ->]|[(Hc1 & Ha & ->)|(Hc1 & a & Ha & _ & ->)]];
    rewrite Hc in Hc1.
  - by rewrite lookup6_closed.
  - pose proof (addr_bytes_of_cases addr) as Hk. rewrite Ha in Hk.
    by rewrite (lookup6_unreadable t' addr _ Hc1 Hk).
  - pose proof (addr_bytes_of_cases addr) as Hk. rewrite Ha in Hk.
    destruct Hk as [Hk _]. rewrite (lookup6_open t' addr _ Hc1 Hk).
    simpl. unfold lpm_lookup. by rewrite Hr.
Qed.

Lemma insert_delete4_lpm (t : table Z lpm_trie) n nh :
  _closed t = false -> 0 <= nh <= 0xFFFFFFFF -> valid_network 32 n ->
  exists t1 t2,
    LpmTableIPv4.insert (PrefixNet n) nh t = (Return tt, t1) /\
    LpmTableIPv4.delete (PrefixNet n) t1 = (Return tt, t2) /\
    _closed t2 = false /\
    lpm_routes (_trie t2)
    = base.delete (network_address n, prefixlen n) (lpm_routes (_trie t)).
Proof.
  intros Hc Hnh Hv.
  destruct (insert4_lpm t n nh Hc Hnh Hv) as (t1 & Hi & Hc1 & Hr1).
  exists t1.
  destruct (Hv) as (Ha & Hl & _).
  rewrite delete4_net by done. simpl. unfold lpm_delete.
  rewrite packed4_roundtrip by done. rewrite Hr1, lookup_insert_eq.
  eexists. split; [done|]. split; [reflexivity|]. simpl.
  split; [done|]. apply delete_insert_eq.
Qed.

Lemma insert_delete6_lpm (t : table (list byte) lpm_trie) n nh :
  _closed t = false -> 0 <= nh <= 0xFFFFFFFF -> valid_network 128 n ->
  exists t1 t2,
    LpmTableIPv6.insert (PrefixNet n) nh t = (Return tt, t1) /\
    LpmTableIPv6.delete (PrefixNet n) t1 = (Return tt, t2) /\
    _closed t2 = false /\
    lpm_routes (_trie t2)
    = base.delete (network_address n, prefixlen n) (lpm_routes (_trie t)).
Proof.
  intros Hc Hnh Hv.
  destruct (insert6_lpm t n nh Hc Hnh Hv) as (t1 & Hi & Hc1 & Hr1).
  exists t1.
  destruct (Hv) as (Ha & Hl & _).
  rewrite delete6_net by done. simpl. unfold lpm_delete.
  rewrite packed6_roundtrip by done. rewrite Hr1, lookup_insert_eq.
  eexists. split; [done|]. split; [reflexivity|]. simpl.
  split; [done|]. apply delete_insert_eq.
Qed.

Lemma cycles4_lpm (k : nat) (t : table Z lpm_trie) p q n nh :
  _closed t = false -> 0 <= nh <= 0xFFFFFFFF -> valid_network 32 n ->
  network_of4 p = Some n -> network_of4 q = Some n ->
  lpm_routes (_trie t) !! (network_address n, prefixlen n) = None ->
  exists tk,
    for_each apply4 (concat (replicate k [Insert p nh; Delete q])) t
    = (Return tt, tk) /\
    _closed tk = false /\ lpm_routes (_trie tk) = lpm_routes (_trie t).
Proof.
  intros Hc Hnh Hv Hp Hq. revert t Hc.
  induction k as [|k IH]; intros t Hc Hk; simpl.
  { by exists t. }
  destruct (insert_delete4_lpm t n nh Hc Hnh Hv)
    as (t1 & t2 & Hi & Hd & Hc2 & Hr).
  rewrite delete_id in Hr by done.
  destruct (IH t2 Hc2) as (tk & Hf & Hck & Hrk); [by rewrite Hr|].
  exists tk. unfold bind.
  rewrite (insert4_network_of t p n nh Hp), Hi.
  rewrite (delete4_network_of t1 q n Hq), Hd.
  split; [exact Hf|]. split; [done|]. by rewrite Hrk.
Qed.

Lemma cycles6_lpm (k : nat) (t : table (list byte) lpm_trie) p q n nh :
  _closed t = false -> 0 <= nh <= 0xFFFFFFFF -> valid_network 128 n ->
  network_of6 p = Some n -> network_of6 q = Some n ->
  lpm_routes (_trie t) !! (network_address n, prefixlen n) = None ->
  exists tk,
    for_each apply6 (concat (replicate k [Insert p nh; Delete q])) t
    = (Return tt, tk) /\
    _closed tk = false /\ lpm_routes (_trie tk) = lpm_routes (_trie t).
Proof.
  intros Hc Hnh Hv Hp Hq. revert t Hc.
  induction k as [|k IH]; intros t Hc Hk; simpl.
  { by exists t. }
  destruct (insert_delete6_lpm t n nh Hc Hnh Hv)
    as (t1 & t2 & Hi & Hd & Hc2 & Hr).
  rewrite delete_id in Hr by done.
  destruct (IH t2 Hc2) as (tk & Hf & Hck & Hrk); [by rewrite Hr|].
  exists tk. unfold bind.
  rewrite (insert6_network_of t p n nh Hp), Hi.
  rewrite (delete6_network_of t1 q n Hq), Hd.
  split; [exact Hf|]. split; [done|]. by rewrite Hrk.
Qed.

(** X11.  Insert, then delete, over the engine modelled from the spec
    (a store of routes keyed by network and length).  On an open table,
    for a legal next hop and two prefix arguments that denote the same
    network (objects or strings, under any spelling), inserting under
    the one and deleting under the other both succeed; afterwards the
    table stores exactly the routes it stored before, less that prefix.
    If the prefix was not stored before, any number of such
    insert-and-delete rounds runs without an exception and changes
    nothing that can be observed: the table is open, [num_prefixes] is
    what it was and every [lookup] answers as before.  Both classes. *)
Theorem insert_then_delete_restores :
  (forall (t : table Z lpm_trie) p q n nh,
      LpmTableIPv4.closed t = false ->
      genuine_prefix 32 p -> genuine_prefix 32 q ->
      network_of4 p = Some n -> network_of4 q = Some n ->
      0 <= nh <= 0xFFFFFFFF ->
      (exists t1 t2,
          LpmTableIPv4.insert p nh t = (Return tt, t1) /\
          LpmTableIPv4.delete q t1 = (Return tt, t2) /\
          LpmTableIPv4.closed t2 = false /\
          forall x l h,
            stored t2 x l h
            <-> stored t x l h /\
                (x, l) <> (network_address n, prefixlen n)) /\
      ((forall h, ~ stored t (network_address n) (prefixlen n) h) ->
       forall k : nat,
       exists tk,
         for_each apply4 (concat (replicate k [Insert p nh; Delete q])) t
         = (Return tt, tk) /\
         LpmTableIPv4.closed tk = false /\
         LpmTableIPv4.num_prefixes tk = LpmTableIPv4.num_prefixes t /\
         forall addr,
           fst (LpmTableIPv4.lookup addr tk)
           = fst (LpmTableIPv4.lookup addr t))) /\
  (forall (t : table (list byte) lpm_trie) p q n nh,
      LpmTableIPv6.closed t = false ->
      genuine_prefix 128 p -> genuine_prefix 128 q ->
      network_of6 p = Some n -> network_of6 q = Some n ->
      0 <= nh <= 0xFFFFFFFF ->
      (exists t1 t2,
          LpmTableIPv6.insert p nh t = (Return tt, t1) /\
          LpmTableIPv6.delete q t1 = (Return tt, t2) /\
          LpmTableIPv6.closed t2 = false /\
          forall x l h,
            stored t2 x l h
            <-> stored t x l h /\
                (x, l) <> (network_address n, prefixlen n)) /\
      ((forall h, ~ stored t (network_address n) (prefixlen n) h) ->
       forall k : nat,
       exists tk,
         for_each apply6 (concat (replicate k [Insert p nh; Delete q])) t
         = (Return tt, tk) /\
         LpmTableIPv6.closed tk = false /\
         LpmTableIPv6.num_prefixes tk = LpmTableIPv6.num_prefixes t /\
         forall addr,
           fst (LpmTableIPv6.lookup addr tk)
           = fst (LpmTableIPv6.lookup addr t))).
Proof.
  split.
  - intros t p q n nh Hc Hgp Hgq Hp Hq Hnh.
    pose proof (network_of4_valid p n Hgp Hp) as Hv. split.
    + destruct (insert_delete4_lpm t n nh Hc Hnh Hv)
        as (t1 & t2 & Hi & Hd & Hc2 & Hr).
      exists t1, t2.
      rewrite (insert4_network_of t p n nh Hp).
      rewrite (delete4_network_of t1 q n Hq).
      split; [done|]. split; [done|]. split; [done|].
      intros x l h. unfold stored. rewrite Hr, lookup_delete_Some.
      split; intros [? ?]; split; try done; congruence.
    + intros Hnone k.
      assert (Hk : lpm_routes (_trie t) !! (network_address n, prefixlen n)
                   = None).
      { destruct (_ !! _) as [h|] eqn:Hh; [|done]. by destruct (Hnone h). }
      destruct (cycles4_lpm k t p q n nh Hc Hnh Hv Hp Hq Hk)
        as (tk & Hf & Hck & Hrk).
      exists tk. split; [done|]. split; [done|]. split.
      * unfold LpmTableIPv4.num_prefixes. simpl. unfold lpm_num_prefixes.
        by rewrite Hrk.
      * intros addr. apply lookup4_same_routes; [|done]. by rewrite Hck.
  - intros t p q n nh Hc Hgp Hgq Hp Hq Hnh.
    pose proof (network_of6_valid p n Hgp Hp) as Hv. split.
    + destruct (insert_delete6_lpm t n nh Hc Hnh Hv)
        as (t1 & t2 & Hi & Hd & Hc2 & Hr).
      exists t1, t2.
      rewrite (insert6_network_of t p n nh Hp).
      rewrite (delete6_network_of t1 q n Hq).
      split; [done|]. split; [done|]. split; [done|].
      intros x l h. unfold stored. rewrite Hr, lookup_delete_Some.
      split; intros [? ?]; split; try done; congruence.
    + intros Hnone k.
      assert (Hk : lpm_routes (_trie t) !! (network_address n, prefixlen n)
                   = None).
      { destruct (_ !! _) as [h|] eqn:Hh; [|done]. by destruct (Hnone h). }
      destruct (cycles6_lpm k t p q n nh Hc Hnh Hv Hp Hq Hk)
        as (tk & Hf & Hck & Hrk).
      exists tk. split; [done|]. split; [done|]. split.
      * unfold LpmTableIPv6.num_prefixes. simpl. unfold lpm_num_prefixes.
        by rewrite Hrk.
      * intros addr. apply lookup6_same_routes; [|done]. by rewrite Hck.
Qed.

End Removal.

(** ** The scenarios, run *)

Import Text Examples.

Lemma stored_after_elem (network_of : prefix_arg -> option Network)
  us net len nh :
  stored_after network_of us net len nh ->
  exists p, Insert p nh ∈ us /\
            network_of p = Some {| network_address := net; prefixlen := len |}.
Proof.
  intros (us1 & us2 & p & -> & Hp & _). exists p. split; [|done].
  apply elem_of_app. right. by left.
Qed.

(** Witness of C1: the scenario of the spec, on both families. *)
Lemma lookup_longest_prefix_match_witness :
  fst (LpmTableIPv4.lookup (AddrStr "192.168.1.1") table4) = Return (Some 24) /\
  fst (LpmTableIPv4.lookup (AddrStr "8.8.8.8") table4) = Return None /\
  fst (LpmTableIPv6.lookup (AddrStr "2001:db8:1::1") table6)
  = Return (Some 48).
Proof.
  destruct (lookup_longest_prefix_match (H := text_ipaddress)) as [H4 H6].
  split; [|split].
  - destruct (H4 (AlgEnum DIR24) scenario4 new4 table4
                (AddrStr "192.168.1.1") 0xC0A80101) as [Hhit _].
    + reflexivity.
    + repeat constructor.
    + vm_compute. reflexivity.
    + exact I.
    + reflexivity.
    + apply (Hhit 0xC0A80100 24 24).
      * split; [|split].
        -- exists [Insert (PrefixStr "192.168.0.0/16") 16],
             [Insert (PrefixStr "192.168.1.128/25") 25],
             (PrefixStr "192.168.1.0/24").
           split; [reflexivity|]. split; [reflexivity|].
           repeat constructor. vm_compute. discriminate.
        -- split; [lia|reflexivity].
        -- intros net' len' nh' Hs Hc.
           apply stored_after_elem in Hs as (p & Hin & Hp).
           scenario_cases Hin; injection Hin as -> ->;
             vm_compute in Hp; injection Hp as <- <-; try lia.
           destruct Hc as [_ Hc]. vm_compute in Hc. discriminate Hc.
      * unfold INVALID_NEXT_HOP. lia.
  - destruct (H4 (AlgEnum DIR24) scenario4 new4 table4
                (AddrStr "8.8.8.8") 0x08080808) as [_ Hmiss].
    + reflexivity.
    + repeat constructor.
    + vm_compute. reflexivity.
    + exact I.
    + reflexivity.
    + apply Hmiss. intros net' len' nh' Hs [_ Hc].
      apply stored_after_elem in Hs as (p & Hin & Hp).
      scenario_cases Hin; injection Hin as -> ->;
        vm_compute in Hp; injection Hp as <- <-;
        vm_compute in Hc; discriminate Hc.
  - destruct (H6 (AlgEnum WIDE16) scenario6 new6 table6
                (AddrStr "2001:db8:1::1")
                0x20010db8000100000000000000000001) as [Hhit _].
    + reflexivity.
    + repeat constructor.
    + vm_compute. reflexivity.
    + exact I.
    + reflexivity.
    + apply (Hhit 0x20010db8000100000000000000000000 48 48).
      * split; [|split].
        -- exists [Insert (PrefixStr "2001:db8::/32") 32], [],
             (PrefixStr "2001:db8:1::/48").
           split; [reflexivity|]. split; [reflexivity|]. constructor.
        -- split; [lia|reflexivity].
        -- intros net' len' nh' Hs Hc.
           apply stored_after_elem in Hs as (p & Hin & Hp).
           scenario_cases Hin; injection Hin as -> ->;
             vm_compute in Hp; injection Hp as <- <-; lia.
      * unfold INVALID_NEXT_HOP. lia.
Defined.

(** Witness of C4: deleting 192.168.1.0/24 gives 192.168.1.1 back to
    192.168.0.0/16, and deleting 2001:db8:1::/48 gives 2001:db8:1::1 back
    to 2001:db8::/32. *)
Lemma delete_restores_less_specific_witness :
  fst (LpmTableIPv4.lookup (AddrStr "192.168.1.1")
         (snd (LpmTableIPv4.delete (PrefixStr "192.168.1.0/24") table4)))
  = Return (Some 16) /\
  fst (LpmTableIPv6.lookup (AddrStr "2001:db8:1::1")
         (snd (LpmTableIPv6.delete (PrefixStr "2001:db8:1::/48") table6)))
  = Return (Some 32).
Proof.
  destruct (delete_restores_less_specific (H := text_ipaddress)) as [H4 H6].
  split.
  - destruct (H4 (AlgEnum DIR24) scenario4 new4 table4
                (snd (LpmTableIPv4.delete (PrefixStr "192.168.1.0/24") table4))
                (PrefixStr "192.168.1.0/24")
                {| network_address := 0xC0A80100; prefixlen := 24 |} 24
                (AddrStr "192.168.1.1") 0xC0A80101) as [Hnext _].
    + reflexivity.
    + repeat constructor.
    + vm_compute. reflexivity.
    + exact I.
    + reflexivity.
    + vm_compute. reflexivity.
    + exact I.
    + reflexivity.
    + split; [|split].
      * exists [Insert (PrefixStr "192.168.0.0/16") 16],
          [Insert (PrefixStr "192.168.1.128/25") 25],
          (PrefixStr "192.168.1.0/24").
        split; [reflexivity|]. split; [reflexivity|].
        repeat constructor. vm_compute. discriminate.
      * split; [simpl; lia|reflexivity].
      * intros net' len' nh' Hs Hc.
        apply stored_after_elem in Hs as (p & Hin & Hp).
        scenario_cases Hin; injection Hin as -> ->;
          vm_compute in Hp; injection Hp as <- <-; simpl; try lia.
        destruct Hc as [_ Hc]. vm_compute in Hc. discriminate Hc.
    + apply (Hnext 0xC0A80000 16 16).
      * split; [|split].
        -- split; [|simpl; lia].
           exists [], [Insert (PrefixStr "192.168.1.0/24") 24;
                       Insert (PrefixStr "192.168.1.128/25") 25],
             (PrefixStr "192.168.0.0/16").
           split; [reflexivity|]. split; [reflexivity|].
           repeat constructor; vm_compute; discriminate.
        -- split; [lia|reflexivity].
        -- intros net' len' nh' [Hs Hlt] Hc. simpl in Hlt.
           apply stored_after_elem in Hs as (p & Hin & Hp).
           scenario_cases Hin; injection Hin as -> ->;
             vm_compute in Hp; injection Hp as <- <-; lia.
      * unfold INVALID_NEXT_HOP. lia.
  - destruct (H6 (AlgEnum WIDE16) scenario6 new6 table6
                (snd (LpmTableIPv6.delete (PrefixStr "2001:db8:1::/48") table6))
                (PrefixStr "2001:db8:1::/48")
                {| network_address := 0x20010db8000100000000000000000000;
                   prefixlen := 48 |} 48
                (AddrStr "2001:db8:1::1")
                0x20010db8000100000000000000000001) as [Hnext _].
    + reflexivity.
    + repeat constructor.
    + vm_compute. reflexivity.
    + exact I.
    + reflexivity.
    + vm_compute. reflexivity.
    + exact I.
    + reflexivity.
    + split; [|split].
      * exists [Insert (PrefixStr "2001:db8::/32") 32], [],
          (PrefixStr "2001:db8:1::/48").
        split; [reflexivity|]. split; [reflexivity|]. constructor.
      * split; [simpl; lia|reflexivity].
      * intros net' len' nh' Hs Hc.
        apply stored_after_elem in Hs as (p & Hin & Hp).
        scenario_cases Hin; injection Hin as -> ->;
          vm_compute in Hp; injection Hp as <- <-; simpl; lia.
    + apply (Hnext 0x20010db8000000000000000000000000 32 32).
      * split; [|split].
        -- split; [|simpl; lia].
           exists [], [Insert (PrefixStr "2001:db8:1::/48") 48],
             (PrefixStr "2001:db8::/32").
           split; [reflexivity|]. split; [reflexivity|].
           repeat constructor; vm_compute; discriminate.
        -- split; [lia|reflexivity].
        -- intros net' len' nh' [Hs Hlt] Hc. simpl in Hlt.
           apply stored_after_elem in Hs as (p & Hin & Hp).
           scenario_cases Hin; injection Hin as -> ->;
             vm_compute in Hp; injection Hp as <- <-; lia.
      * unfold INVALID_NEXT_HOP. lia.
Defined.

(** Witness of C5: [test_insert_update], where 192.168.0.0/16 is the only
    prefix and 192.168.1.1 goes from 100 to 200; and the scenario table,
    where 192.168.2.1 is answered by the /16 and sees the new next hop,
    while 192.168.1.1, which the /24 covers as well, is answered as
    before. *)
Lemma reinsert_updates_next_hop_witness :
  (exists t',
      LpmTableIPv4.insert (PrefixStr "192.168.0.0/16") 200
        (snd (LpmTableIPv4.insert (PrefixStr "192.168.0.0/16") 100 new4))
      = (Return tt, t') /\
      LpmTableIPv4.num_prefixes t' = 1 /\
      fst (LpmTableIPv4.lookup (AddrStr "192.168.1.1")
             (snd (LpmTableIPv4.insert (PrefixStr "192.168.0.0/16") 100 new4)))
      = Return (Some 100) /\
      fst (LpmTableIPv4.lookup (AddrStr "192.168.1.1") t')
      = Return (Some 200)) /\
  (exists t',
      LpmTableIPv4.insert (PrefixStr "192.168.0.0/16") 200 table4
      = (Return tt, t') /\
      LpmTableIPv4.num_prefixes t' = LpmTableIPv4.num_prefixes table4 /\
      fst (LpmTableIPv4.lookup (AddrStr "192.168.2.1") table4)
      = Return (Some 16) /\
      fst (LpmTableIPv4.lookup (AddrStr "192.168.2.1") t')
      = Return (Some 200) /\
      fst (LpmTableIPv4.lookup (AddrStr "192.168.1.1") t')
      = fst (LpmTableIPv4.lookup (AddrStr "192.168.1.1") table4)).
Proof.
  destruct (reinsert_updates_next_hop (H := text_ipaddress)) as [H4 _].
  split.
  - destruct (H4 (snd (LpmTableIPv4.insert (PrefixStr "192.168.0.0/16") 100
                         new4))
                (PrefixStr "192.168.0.0/16")
                {| network_address := 0xC0A80000; prefixlen := 16 |} 100 200)
      as (t' & Hins & _ & Hnum & _ & _ & Hlook & _).
    + reflexivity.
    + exact I.
    + reflexivity.
    + vm_compute. reflexivity.
    + lia.
    + exists t'. split; [exact Hins|]. split; [exact Hnum|]. clear Hins Hnum.
      apply (Hlook (AddrStr "192.168.1.1") 0xC0A80101).
      * exact I.
      * reflexivity.
      * split; [simpl; lia|reflexivity].
      * intros net' len' nh' Hs _.
        destruct (history4_fresh (H := text_ipaddress) (AlgEnum DIR24)
                    [Insert (PrefixStr "192.168.0.0/16") 100] new4
                    (snd (LpmTableIPv4.insert (PrefixStr "192.168.0.0/16")
                            100 new4))) as [_ Hst];
          [reflexivity|repeat constructor|vm_compute; reflexivity|].
        apply Hst in Hs.
        apply stored_after_elem in Hs as (p & Hin & Hp).
        scenario_cases Hin; injection Hin as -> ->;
          vm_compute in Hp; injection Hp as <- <-; simpl; lia.
  - destruct (H4 table4 (PrefixStr "192.168.0.0/16")
                {| network_address := 0xC0A80000; prefixlen := 16 |} 16 200)
      as (t' & Hins & _ & Hnum & _ & _ & Hlook & Hframe).
    + reflexivity.
    + exact I.
    + reflexivity.
    + vm_compute. reflexivity.
    + lia.
    + exists t'. split; [exact Hins|]. split; [exact Hnum|]. clear Hins Hnum.
      destruct (Hlook (AddrStr "192.168.2.1") 0xC0A80201) as [Hold Hnew].
      * exact I.
      * reflexivity.
      * split; [simpl; lia|reflexivity].
      * intros net' len' nh' Hs [_ Hc].
        destruct (history4_fresh (H := text_ipaddress) (AlgEnum DIR24)
                    scenario4 new4 table4) as [_ Hst];
          [reflexivity|repeat constructor|vm_compute; reflexivity|].
        apply Hst in Hs.
        apply stored_after_elem in Hs as (p & Hin & Hp).
        scenario_cases Hin; injection Hin as -> ->;
          vm_compute in Hp; injection Hp as <- <-; simpl; try lia;
          vm_compute in Hc; discriminate Hc.
      * split; [exact Hold|]. split; [exact Hnew|].
        apply (Hframe (AddrStr "192.168.1.1") 0xC0A80101).
        -- exact I.
        -- reflexivity.
        -- right. exists 0xC0A80100, 24, 24.
           split; [vm_compute; reflexivity|].
           split; [split; [lia|reflexivity]|simpl; lia].
Defined.

(** Counterexample to C2 as stated: on a new, open table the insert of
    10.0.0.0/8 with next hop 0xFFFFFFFF does not fail.  It returns, the
    sentinel is stored as the next hop of the prefix, and a lookup under
    the prefix then reports [None]. *)
Lemma insert_sentinel_counterexample :
  LpmTableIPv4.closed new4 = false /\
  LpmTableIPv4.insert (PrefixStr "10.0.0.0/8") 0xFFFFFFFF new4
  = (Return tt, sentinel4) /\
  stored sentinel4 0x0A000000 8 0xFFFFFFFF /\
  engine_calls sentinel4
  = [CallAdd [Byte.x0a; Byte.x00; Byte.x00; Byte.x00] 8 0xFFFFFFFF] /\
  fst (LpmTableIPv4.lookup (AddrStr "10.1.2.3") sentinel4) = Return None /\
  LpmTableIPv6.insert (PrefixStr "fd00::/8") 0xFFFFFFFF new6
  = (Return tt, sentinel6).
Proof. repeat split; vm_compute; reflexivity. Qed.

(** Witness of C2 as the code has it: out of range on either side is a
    [ValueError], the sentinel is not, and reaches the engine. *)
Lemma insert_checks_next_hop_range_witness :
  fst (LpmTableIPv4.insert (PrefixStr "10.0.0.0/8") 0x100000000 new4)
  = Raise ValueError /\
  fst (LpmTableIPv4.insert (PrefixStr "10.0.0.0/8") (-1) new4)
  = Raise ValueError /\
  fst (LpmTableIPv4.insert (PrefixStr "10.0.0.0/8") 0xFFFFFFFF new4)
  <> Raise ValueError /\
  engine_calls
    (snd (LpmTableIPv4.insert (PrefixStr "10.0.0.0/8") 0xFFFFFFFF new4))
  = [CallAdd [Byte.x0a; Byte.x00; Byte.x00; Byte.x00] 8 0xFFFFFFFF] /\
  fst (LpmTableIPv6.insert (PrefixStr "fd00::/8") 0x100000000 new6)
  = Raise ValueError /\
  fst (LpmTableIPv6.insert (PrefixStr "fd00::/8") 0xFFFFFFFF new6)
  = Return tt.
Proof.
  destruct (insert_checks_next_hop_range (H := text_ipaddress)
              (E4 := lpm_trie) (E6 := lpm_trie)) as (Hv4 & Hs4 & Hv6 & Hs6).
  split; [apply Hv4; [reflexivity|lia]|].
  split; [apply Hv4; [reflexivity|lia]|].
  split.
  { intros Hr. apply Hv4 in Hr; [|reflexivity]. apply Hr. lia. }
  split.
  { rewrite (Hs4 new4 (PrefixStr "10.0.0.0/8")
               {| network_address := 0x0A000000; prefixlen := 8 |});
      reflexivity. }
  split; [apply Hv6; [reflexivity|lia]|].
  rewrite (Hs6 new6 (PrefixStr "fd00::/8")
             {| network_address := 0xfd000000000000000000000000000000;
                prefixlen := 8 |}); reflexivity.
Defined.

(** Witness of C3: a batch of strings and an object on the scenario
    table, and the empty batch. *)
Lemma lookup_batch_agrees_with_lookup_witness :
  (exists rs,
      fst (LpmTableIPv4.lookup_batch
             [AddrStr "192.168.1.1"; AddrStr "10.0.0.1"; AddrObj 0xC0A80181]
             table4) = Return rs /\
      length rs = 3%nat /\
      Forall2 (fun a r => fst (LpmTableIPv4.lookup a table4) = Return r)
        [AddrStr "192.168.1.1"; AddrStr "10.0.0.1"; AddrObj 0xC0A80181] rs) /\
  LpmTableIPv4.lookup_batch [] table4 = (Return [], table4) /\
  (exists rs,
      fst (LpmTableIPv6.lookup_batch
             [AddrStr "2001:db8:1::1"; AddrStr "2001:db8:ffff::1"] table6)
      = Return rs /\
      length rs = 2%nat /\
      Forall2 (fun a r => fst (LpmTableIPv6.lookup a table6) = Return r)
        [AddrStr "2001:db8:1::1"; AddrStr "2001:db8:ffff::1"] rs) /\
  LpmTableIPv6.lookup_batch [] table6 = (Return [], table6).
Proof.
  destruct (lookup_batch_agrees_with_lookup (H := text_ipaddress)
              (E4 := lpm_trie) (E6 := lpm_trie)) as (Hb4 & He4 & Hb6 & He6).
  split.
  { apply Hb4.
    - exact lpm_ipv4_batch_as_single.
    - reflexivity.
    - repeat constructor; eexists; vm_compute; reflexivity. }
  split; [apply He4; reflexivity|].
  split.
  { apply Hb6.
    - exact lpm_ipv6_batch_as_single.
    - reflexivity.
    - repeat constructor; eexists; vm_compute; reflexivity. }
  apply He6. reflexivity.
Defined.

(** Witness of C6: the scenario tables, closed. *)
Lemma closed_table_rejects_operations_witness :
  LpmTableIPv4.closed closed4 = true /\
  LpmTableIPv4.insert (PrefixStr "10.0.0.0/8") 200 closed4
  = (Raise LpmClosedError, closed4) /\
  LpmTableIPv4.delete (PrefixStr "192.168.0.0/16") closed4
  = (Raise LpmClosedError, closed4) /\
  LpmTableIPv4.lookup (AddrStr "192.168.1.1") closed4
  = (Raise LpmClosedError, closed4) /\
  LpmTableIPv4.lookup_batch [AddrStr "192.168.1.1"] closed4
  = (Raise LpmClosedError, closed4) /\
  LpmTableIPv6.closed closed6 = true /\
  LpmTableIPv6.insert (PrefixStr "fd00::/8") 200 closed6
  = (Raise LpmClosedError, closed6) /\
  LpmTableIPv6.delete (PrefixStr "2001:db8::/32") closed6
  = (Raise LpmClosedError, closed6) /\
  LpmTableIPv6.lookup (AddrStr "2001:db8::1") closed6
  = (Raise LpmClosedError, closed6) /\
  LpmTableIPv6.lookup_batch [AddrStr "2001:db8::1"] closed6
  = (Raise LpmClosedError, closed6).
Proof.
  destruct (closed_table_rejects_operations (H := text_ipaddress)
              (E4 := lpm_trie) (E6 := lpm_trie)) as (Hc4 & Hc6 & H4 & H6).
  split; [apply Hc4|].
  destruct (H4 closed4 (PrefixStr "10.0.0.0/8") 200 (AddrStr "192.168.1.1")
              [AddrStr "192.168.1.1"] (Hc4 table4)) as (Hi & _).
  destruct (H4 closed4 (PrefixStr "192.168.0.0/16") 200 (AddrStr "192.168.1.1")
              [AddrStr "192.168.1.1"] (Hc4 table4)) as (_ & Hd & Hl & Hb).
  split; [exact Hi|]. split; [exact Hd|]. split; [exact Hl|].
  split; [exact Hb|].
  split; [apply Hc6|].
  destruct (H6 closed6 (PrefixStr "fd00::/8") 200 (AddrStr "2001:db8::1")
              [AddrStr "2001:db8::1"] (Hc6 table6)) as (Hi6 & _).
  destruct (H6 closed6 (PrefixStr "2001:db8::/32") 200 (AddrStr "2001:db8::1")
              [AddrStr "2001:db8::1"] (Hc6 table6)) as (_ & Hd6 & Hl6 & Hb6).
  split; [exact Hi6|]. split; [exact Hd6|]. split; [exact Hl6|]. exact Hb6.
Defined.

(** Witness of C8: 192.168.1.77/24 is inserted as 192.168.1.0/24, and
    2001:db8:1::5/48 as 2001:db8:1::/48. *)
Lemma insert_masks_host_bits_witness :
  IPv4Network "192.168.1.77/24" false
  = Return {| network_address := 0xC0A80100; prefixlen := 24 |} /\
  IPv4Network "192.168.1.77/24" true = Raise ValueError /\
  LpmTableIPv4.insert (PrefixStr "192.168.1.77/24") 100 new4
  = LpmTableIPv4.insert (PrefixStr "192.168.1.0/24") 100 new4 /\
  (exists t',
      LpmTableIPv4.insert (PrefixStr "192.168.1.77/24") 100 new4
      = (Return tt, t') /\
      stored t' 0xC0A80100 24 100) /\
  IPv6Network "2001:db8:1::5/48" false
  = Return {| network_address := 0x20010db8000100000000000000000000;
              prefixlen := 48 |} /\
  LpmTableIPv6.insert (PrefixStr "2001:db8:1::5/48") 100 new6
  = LpmTableIPv6.insert (PrefixStr "2001:db8:1::/48") 100 new6.
Proof.
  destruct (insert_masks_host_bits (H := text_ipaddress))
    as (H4 & _ & H6 & _).
  destruct (H4 "192.168.1.77/24"%string 0xC0A8014D 24)
    as (Hn & _ & _ & Hstr & _ & Hst); [reflexivity|lia|lia|].
  destruct (H6 "2001:db8:1::5/48"%string
              0x20010db8000100000000000000000005 48)
    as (Hn6 & _ & _ & Hstr6 & _ & _); [reflexivity|lia|lia|].
  split; [exact Hn|].
  split; [reflexivity|].
  split; [apply (Hstr lpm_trie lpm_ipv4 new4 100 "192.168.1.0/24"%string);
          reflexivity|].
  split.
  { destruct (Hst new4 100) as (t' & Hins & Hs & _); [reflexivity|lia|].
    exists t'. split; [exact Hins|exact Hs]. }
  split; [exact Hn6|].
  apply (Hstr6 lpm_trie lpm_ipv6 new6 100 "2001:db8:1::/48"%string).
  reflexivity.
Defined.

(** Witness of C9: the tags of the tests. *)
Lemma construction_checks_algorithm_witness :
  LpmTableIPv4.__init__ (AlgStr "stride8")
  = Return {| _trie := lpm_new "stride8"; _closed := false;
              engine_calls := [] |} /\
  LpmTableIPv4.__init__ (E := lpm_trie) (AlgStr "invalid") = Raise ValueError /\
  LpmTableIPv6.__init__ (AlgEnum WIDE16) = Return new6 /\
  LpmTableIPv6.__init__ (E := lpm_trie) (AlgStr "dir24") = Raise ValueError /\
  LpmTableIPv4.num_prefixes new4 = 0 /\
  LpmTableIPv6.num_prefixes new6 = 0.
Proof.
  destruct construction_checks_algorithm
    as (H4 & H6 & _ & _ & He4 & He6).
  split.
  { apply (H4 lpm_trie lpm_ipv4 (AlgStr "stride8")). by right. }
  split.
  { apply (H4 lpm_trie lpm_ipv4 (AlgStr "invalid")); simpl; discriminate. }
  split.
  { apply (H6 lpm_trie lpm_ipv6 (AlgEnum WIDE16)). by left. }
  split.
  { apply (H6 lpm_trie lpm_ipv6 (AlgStr "dir24")); simpl; discriminate. }
  split.
  { apply (He4 (AlgEnum DIR24) new4). reflexivity. }
  apply (He6 (AlgEnum WIDE16) new6). reflexivity.
Defined.

(** Witness of C10: a stored sentinel and a miss give the same [None];
    any other next hop comes back as it is. *)
Lemma lookup_never_returns_sentinel_witness :
  fst (LpmTableIPv4.lookup (AddrStr "10.1.2.3") sentinel4) = Return None /\
  fst (LpmTableIPv4.lookup (AddrStr "10.1.2.3") new4) = Return None /\
  fst (LpmTableIPv4.lookup (AddrStr "192.168.1.1") table4) = Return (Some 24) /\
  (exists rs,
      fst (LpmTableIPv4.lookup_batch
             [AddrStr "10.1.2.3"; AddrStr "192.168.1.1"] sentinel4)
      = Return rs /\ Some 0xFFFFFFFF ∉ rs) /\
  fst (LpmTableIPv6.lookup (AddrStr "fd00::1") sentinel6) = Return None.
Proof.
  destruct (lookup_never_returns_sentinel (H := text_ipaddress)
              (E4 := lpm_trie) (E6 := lpm_trie))
    as (_ & _ & Hnb4 & Hl4 & Hb4 & _ & _ & Hl6 & _).
  split.
  { destruct (Hl4 sentinel4 (AddrStr "10.1.2.3") 0x0A010203) as [Hiff _];
      [reflexivity|reflexivity|]. apply Hiff. vm_compute. reflexivity. }
  split.
  { destruct (Hl4 new4 (AddrStr "10.1.2.3") 0x0A010203) as [Hiff _];
      [reflexivity|reflexivity|]. apply Hiff. vm_compute. reflexivity. }
  split.
  { destruct (Hl4 table4 (AddrStr "192.168.1.1") 0xC0A80101) as [_ Hsome];
      [reflexivity|reflexivity|].
    rewrite Hsome; [vm_compute; reflexivity|vm_compute; discriminate]. }
  split.
  { destruct (Hb4 sentinel4 [AddrStr "10.1.2.3"; AddrStr "192.168.1.1"]
                [0x0A010203; 0xC0A80101]) as (rs & Hrs & _);
      [reflexivity|discriminate|reflexivity|].
    exists rs. split; [exact Hrs|]. by apply (Hnb4 _ _ _ Hrs). }
  destruct (Hl6 sentinel6 (AddrStr "fd00::1")
              (LpmTableIPv6.packed 0xfd000000000000000000000000000001))
    as [Hiff _]; [reflexivity|reflexivity|].
  apply Hiff. vm_compute. reflexivity.
Defined.

(** ** Sessions, run *)

Import Sessions.

(** Witness of X1: a next hop out of range and a prefix length out of
    range, on fresh tables. *)
Lemma insert_outcomes_witness :
  (_closed new4 = false /\ ~ (0 <= -1 <= 0xFFFFFFFF) /\
   snd (LpmTableIPv4.insert (PrefixStr "10.0.0.0/8") (-1) new4) = new4) /\
  (_closed new6 = false /\ 0 <= 2 <= 0xFFFFFFFF /\
   network_of6 (PrefixStr "2001:db8::/129") = None /\
   snd (LpmTableIPv6.insert (PrefixStr "2001:db8::/129") 2 new6) = new6).
Proof.
  split.
  - exact (proj1 (insert_outcomes (H := text_ipaddress) (E4 := lpm_trie)
                    (E6 := lpm_trie)) new4 (PrefixStr "10.0.0.0/8") (-1)).
  - exact (proj2 (insert_outcomes (H := text_ipaddress) (E4 := lpm_trie)
                    (E6 := lpm_trie)) new6 (PrefixStr "2001:db8::/129") 2).
Defined.

(** Witness of X2: a prefix that is not stored (the engine modelled from
    the spec reports a failure), and an argument that is no prefix. *)
Lemma delete_outcomes_witness :
  (fst (LpmTableIPv4.delete (PrefixStr "10.0.0.0/8") new4)
   = Raise LpmDeleteError /\
   _closed new4 = false /\
   exists n, network_of4 (PrefixStr "10.0.0.0/8") = Some n /\
     (fst (LpmTableIPv4.delete (PrefixStr "10.0.0.0/8") new4) = Return tt
      <-> fst (trie_delete (LpmTableIPv4.packed (network_address n))
                 (prefixlen n) (_trie new4)) = 0) /\
     snd (LpmTableIPv4.delete (PrefixStr "10.0.0.0/8") new4)
     = log (CallDelete (LpmTableIPv4.packed (network_address n)) (prefixlen n))
         (snd (trie_delete (LpmTableIPv4.packed (network_address n))
                 (prefixlen n) (_trie new4))) new4) /\
  (_closed new6 = false /\ network_of6 PrefixOther = None /\
   snd (LpmTableIPv6.delete PrefixOther new6) = new6).
Proof.
  split; [split; [vm_compute; reflexivity|]|].
  - exact (proj1 (delete_outcomes (H := text_ipaddress) (E4 := lpm_trie)
                    (E6 := lpm_trie)) new4 (PrefixStr "10.0.0.0/8")).
  - exact (proj2 (delete_outcomes (H := text_ipaddress) (E4 := lpm_trie)
                    (E6 := lpm_trie)) new6 PrefixOther).
Defined.

(** Witness of X3: a hit on the scenario table, and a string that is no
    address. *)
Lemma lookup_outcomes_witness :
  (_closed table4 = false /\
   exists a, address_of4 (AddrStr "192.168.1.1") = Some a /\
     Some 24
     = next_hop_or_None
         (trie_lookup (int_from_bytes (LpmTableIPv4.packed a)) (_trie table4)) /\
     snd (LpmTableIPv4.lookup (AddrStr "192.168.1.1") table4)
     = log (CallLookup (int_from_bytes (LpmTableIPv4.packed a)))
         (_trie table4) table4 /\
     (genuine_addr 32 (AddrStr "192.168.1.1") ->
      int_from_bytes (LpmTableIPv4.packed a) = a)) /\
  (_closed new6 = false /\ address_of6 (AddrStr "2001:db8:::1") = None /\
   snd (LpmTableIPv6.lookup (AddrStr "2001:db8:::1") new6) = new6).
Proof.
  split.
  - exact (proj1 (lookup_outcomes (H := text_ipaddress) (E4 := lpm_trie)
                    (E6 := lpm_trie)) table4 (AddrStr "192.168.1.1")).
  - exact (proj2 (lookup_outcomes (H := text_ipaddress) (E4 := lpm_trie)
                    (E6 := lpm_trie)) new6 (AddrStr "2001:db8:::1")).
Defined.

(** Witness of X4: a batch with one string that is no address, and a
    batch on a closed table. *)
Lemma lookup_batch_outcomes_witness :
  (_closed table4 = false /\
   snd (LpmTableIPv4.lookup_batch [AddrStr "10.1.2.3"; AddrStr "10.1.2"] table4)
   = table4 /\
   Exists (fun x => address_of4 x = None)
     [AddrStr "10.1.2.3"; AddrStr "10.1.2"]) /\
  (_closed closed6 = true /\
   snd (LpmTableIPv6.lookup_batch [AddrStr "2001:db8::1"] closed6) = closed6).
Proof.
  split.
  - exact (proj1 (lookup_batch_outcomes (H := text_ipaddress)
                    (E4 := lpm_trie) (E6 := lpm_trie))
             table4 [AddrStr "10.1.2.3"; AddrStr "10.1.2"]).
  - exact (proj2 (lookup_batch_outcomes (H := text_ipaddress)
                    (E4 := lpm_trie) (E6 := lpm_trie))
             closed6 [AddrStr "2001:db8::1"]).
Defined.

(** Witness of X5: 192.168.1.1 and 2001:db8::1. *)
Lemma packed_keys_round_trip_witness :
  (length (LpmTableIPv4.packed 0xC0A80101) = 4%nat /\
   int_from_bytes (LpmTableIPv4.packed 0xC0A80101) = 0xC0A80101 /\
   LpmTableIPv4.addr_int_of (AddrObj 0xC0A80101) = Return 0xC0A80101) /\
  (length (LpmTableIPv6.packed 0x20010db8000000000000000000000001) = 16%nat /\
   int_from_bytes (LpmTableIPv6.packed 0x20010db8000000000000000000000001)
   = 0x20010db8000000000000000000000001 /\
   LpmTableIPv6.addr_bytes_of (AddrObj 0x20010db8000000000000000000000001)
   = Return (LpmTableIPv6.packed 0x20010db8000000000000000000000001)).
Proof.
  destruct (packed_keys_round_trip (H := text_ipaddress))
    as (H4 & _ & _ & H6 & _).
  split.
  - apply H4. unfold valid_address. lia.
  - apply H6. unfold valid_address. lia.
Defined.

(** Witness of X6: the sessions, on fresh tables over the modelled
    engine; and calls on the closed scenario tables. *)
Lemma engine_never_used_after_close_witness :
  engine_protocol (run call4 session4 new4) /\
  run call4 session4 closed4 = closed4 /\
  engine_protocol (run call6 session6 new6) /\
  run call6 session6 closed6 = closed6.
Proof.
  destruct (engine_never_used_after_close (H := text_ipaddress)
              (E4 := lpm_trie) (E6 := lpm_trie)) as (Hp4 & Hf4 & Hp6 & Hf6).
  split; [|split; [|split]].
  - apply (Hp4 (AlgEnum DIR24)). reflexivity.
  - apply Hf4. vm_compute. reflexivity.
  - apply (Hp6 (AlgEnum WIDE16)). reflexivity.
  - apply Hf6. vm_compute. reflexivity.
Defined.

(** Witness of X7: [exception_safety] of [examples/context_manager.py],
    a body that inserts a route and then raises. *)
Lemma with_block_closes_table_witness :
  fst (with_ (A := unit) LpmTableIPv4.__enter__ LpmTableIPv4.__exit__
         (LpmTableIPv4.insert (PrefixStr "192.168.0.0/16") 100 ;;;
          raise ValueError)%py new4)
  = Raise ValueError /\
  LpmTableIPv4.closed
    (snd (with_ (A := unit) LpmTableIPv4.__enter__ LpmTableIPv4.__exit__
            (LpmTableIPv4.insert (PrefixStr "192.168.0.0/16") 100 ;;;
             raise ValueError)%py new4)) = true /\
  (exists calls,
      engine_calls
        (snd (with_ LpmTableIPv4.__enter__ LpmTableIPv4.__exit__
                (for_each call4 session4) new4))
      = calls ++ [CallClose] /\ CallClose ∉ calls) /\
  (exists calls,
      engine_calls
        (snd (with_ LpmTableIPv6.__enter__ LpmTableIPv6.__exit__
                (for_each call6 session6) new6))
      = calls ++ [CallClose] /\ CallClose ∉ calls).
Proof.
  destruct (with_block_closes_table (H := text_ipaddress)
              (E4 := lpm_trie) (E6 := lpm_trie)) as (Hw4 & Hs4 & _ & Hs6).
  pose proof (Hw4 unit
                (LpmTableIPv4.insert (PrefixStr "192.168.0.0/16") 100 ;;;
                 raise ValueError)%py new4) as Hx.
  cbv zeta in Hx. destruct Hx as (Hf & _ & Hc).
  split; [exact Hf|]. split; [exact Hc|]. split.
  - apply (Hs4 (AlgEnum DIR24)). reflexivity.
  - apply (Hs6 (AlgEnum WIDE16)). reflexivity.
Defined.

(** Witness of X8: a table dropped after one insert, and one dropped
    after its session. *)
Lemma finaliser_closes_once_witness :
  (exists t',
      LpmTableIPv4.__del__
        (Some (run call4 [MInsert (PrefixStr "192.168.0.0/16") 100] new4))
      = (Return tt, Some t') /\
      LpmTableIPv4.closed t' = true /\
      (exists calls,
          engine_calls t' = calls ++ [CallClose] /\ CallClose ∉ calls) /\
      (LpmTableIPv4.closed
         (run call4 [MInsert (PrefixStr "192.168.0.0/16") 100] new4) = true ->
       t' = run call4 [MInsert (PrefixStr "192.168.0.0/16") 100] new4)) /\
  (exists t',
      LpmTableIPv6.__del__ (Some (run call6 session6 new6))
      = (Return tt, Some t') /\
      LpmTableIPv6.closed t' = true /\
      (exists calls,
          engine_calls t' = calls ++ [CallClose] /\ CallClose ∉ calls) /\
      (LpmTableIPv6.closed (run call6 session6 new6) = true ->
       t' = run call6 session6 new6)).
Proof.
  destruct (finaliser_closes_once (H := text_ipaddress)
              (E4 := lpm_trie) (E6 := lpm_trie)) as (Hd4 & _ & Hd6 & _).
  split.
  - apply (Hd4 (AlgEnum DIR24)). reflexivity.
  - apply (Hd6 (AlgEnum WIDE16)). reflexivity.
Defined.

(** Witness of X9: the [ValueError] of a negative next hop passes a
    handler of [LpmError]; the error of a delete does not. *)
Lemma exceptions_outside_LpmError_witness :
  escapes_LpmError
    (fst (LpmTableIPv4.insert (PrefixStr "10.0.0.0/8") (-1) new4)) /\
  ~ escapes_LpmError (fst (LpmTableIPv4.delete (PrefixStr "10.0.0.0/8") new4)) /\
  escapes_LpmError (fst (LpmTableIPv6.lookup (AddrStr "2001:db8:::1") new6)).
Proof.
  destruct (exceptions_outside_LpmError (H := text_ipaddress)
              (E4 := lpm_trie) (E6 := lpm_trie))
    as (Hi4 & Hd4 & _ & _ & _ & _ & _ & Hl6 & _).
  split; [|split].
  - apply Hi4. split; [reflexivity|lia].
  - apply Hd4.
  - apply Hl6. split; [reflexivity|vm_compute; reflexivity].
Defined.

(** Witness of X10: 192.168.1.77/24 is deleted as 192.168.1.0/24. *)
Lemma delete_masks_host_bits_witness :
  LpmTableIPv4.delete (PrefixStr "192.168.1.77/24") table4
  = LpmTableIPv4.delete (PrefixStr "192.168.1.0/24") table4 /\
  fst (LpmTableIPv4.delete (PrefixStr "192.168.1.77/24") table4) = Return tt /\
  LpmTableIPv6.delete (PrefixStr "2001:db8:1::5/48") table6
  = LpmTableIPv6.delete (PrefixStr "2001:db8:1::/48") table6.
Proof.
  destruct (delete_masks_host_bits (H := text_ipaddress)) as (H4 & H6).
  split; [|split].
  - destruct (H4 "192.168.1.77/24"%string 0xC0A8014D 24) as (_ & Hs & _);
      [reflexivity|lia|lia|].
    apply (Hs lpm_trie lpm_ipv4 table4 "192.168.1.0/24"%string).
    vm_compute. reflexivity.
  - vm_compute. reflexivity.
  - destruct (H6 "2001:db8:1::5/48"%string
                0x20010db8000100000000000000000005 48) as (_ & Hs & _);
      [vm_compute; reflexivity|lia|lia|].
    apply (Hs lpm_trie lpm_ipv6 table6 "2001:db8:1::/48"%string).
    vm_compute. reflexivity.
Defined.

(** Witness of X11: [test_repeated_insert_delete_ipv4] of
    [test_memory.py], a hundred rounds on the scenario table, the prefix
    spelt in two ways. *)
Lemma insert_then_delete_restores_witness :
  (exists tk,
      for_each apply4
        (concat (replicate 100 [Insert (PrefixStr "10.0.0.77/8") 200;
                                Delete (PrefixStr "10.0.0.0/8")])) table4
      = (Return tt, tk) /\
      LpmTableIPv4.closed tk = false /\
      LpmTableIPv4.num_prefixes tk = LpmTableIPv4.num_prefixes table4 /\
      forall addr,
        fst (LpmTableIPv4.lookup addr tk)
        = fst (LpmTableIPv4.lookup addr table4)) /\
  (exists tk,
      for_each apply6
        (concat (replicate 100 [Insert (PrefixStr "fd00::1/8") 200;
                                Delete (PrefixStr "fd00::/8")])) table6
      = (Return tt, tk) /\
      LpmTableIPv6.closed tk = false /\
      LpmTableIPv6.num_prefixes tk = LpmTableIPv6.num_prefixes table6 /\
      forall addr,
        fst (LpmTableIPv6.lookup addr tk)
        = fst (LpmTableIPv6.lookup addr table6)).
Proof.
  destruct (insert_then_delete_restores (H := text_ipaddress)) as (H4 & H6).
  split.
  - destruct (H4 table4 (PrefixStr "10.0.0.77/8") (PrefixStr "10.0.0.0/8")
                {| network_address := 0x0A000000; prefixlen := 8 |} 200)
      as (_ & Hk); [reflexivity|exact I|exact I| | |lia|].
    + vm_compute. reflexivity.
    + vm_compute. reflexivity.
    + apply Hk. intros h Hh. vm_compute in Hh. discriminate Hh.
  - destruct (H6 table6 (PrefixStr "fd00::1/8") (PrefixStr "fd00::/8")
                {| network_address := 0xfd000000000000000000000000000000;
                   prefixlen := 8 |} 200)
      as (_ & Hk); [reflexivity|exact I|exact I| | |lia|].
    + vm_compute. reflexivity.
    + vm_compute. reflexivity.
    + apply Hk. intros h Hh. vm_compute in Hh. discriminate Hh.
Defined.

(** Witness of X12: the sessions close their tables; a session of
    inserts and lookups alone does not. *)
Lemma closed_iff_close_called_witness :
  LpmTableIPv4.closed (run call4 session4 new4) = true /\
  LpmTableIPv4.closed
    (run call4 [MInsert (PrefixStr "10.0.0.0/8") 1;
                MLookup (AddrStr "10.1.2"); MDelete PrefixOther] new4)
  = false /\
  LpmTableIPv6.closed (run call6 session6 new6) = true.
Proof.
  destruct (closed_iff_close_called (H := text_ipaddress)
              (E4 := lpm_trie) (E6 := lpm_trie)) as (H4 & _ & H6 & _).
  split; [|split].
  - apply (H4 (AlgEnum DIR24) new4 session4). reflexivity.
  - apply (H4 (AlgEnum DIR24) new4). reflexivity.
  - apply (H6 (AlgEnum WIDE16) new6 session6). reflexivity.
Defined.

(** ** The generators of [examples/batch_lookup.py] *)

(** Arithmetic with the tests [>=?] of the loops. *)
Ltac geb_lia :=
  repeat match goal with
         | H : (_ >=? _) = true |- _ =>
             rewrite Z.geb_leb in H; apply Z.leb_le in H
         | H : (_ >=? _) = false |- _ =>
             rewrite Z.geb_leb in H; apply Z.leb_gt in H
         end;
  lia.

Import batch_lookup.

Lemma range_length n : length (range n) = Z.to_nat n.
Proof. unfold range. by rewrite length_map, length_seq. Qed.

Lemma elem_of_range n i : i ∈ range n <-> 0 <= i < n.
Proof.
  unfold range. rewrite list_elem_of_fmap. split.
  - intros (k & -> & Hk). apply elem_of_seq in Hk. lia.
  - intros Hi. exists (Z.to_nat i). split; [lia|]. apply elem_of_seq. lia.
Qed.

Lemma NoDup_range n : NoDup (range n).
Proof.
  unfold range. apply NoDup_fmap_2; [|apply NoDup_seq].
  intros x y. lia.
Qed.

Lemma appends_one {V} count (v : V) :
  appends count (append_and_check count v) [v].
Proof.
  intros acc Hacc. unfold append_and_check. rewrite length_app. simpl.
  destruct (Z.of_nat (length acc + 1) >=? count) eqn:Hc; [|done].
  replace (Z.to_nat count - length acc)%nat
    with (S (Z.to_nat count - length acc - 1)) by geb_lia.
  simpl. by rewrite take_nil.
Qed.

Lemma appends_for_in {X V} count (xs : list X)
  (B : X -> list V -> result (list V + list V)) (items : X -> list V) :
  (forall x, x ∈ xs -> appends count (B x) (items x)) ->
  appends count (for_in xs B) (xs ≫= items).
Proof.
  induction xs as [|x xs IH]; intros HB acc Hacc.
  - simpl. rewrite Nat.add_0_r, app_nil_r.
    destruct (Z.of_nat (length acc) >=? count) eqn:Hc; [geb_lia|done].
  - cbn [for_in]. rewrite bind_cons, (HB x) by (by left || done).
    rewrite length_app.
    destruct (Z.of_nat (length acc + length (items x)) >=? count) eqn:Hx.
    + destruct (Z.of_nat (length acc + (length (items x) + length (xs ≫= items)))
                >=? count) eqn:Hall; [|geb_lia].
      by rewrite take_app_le by geb_lia.
    + rewrite IH;
        [|intros y Hy; apply HB; by right|rewrite length_app; geb_lia].
      rewrite length_app, <- Nat.add_assoc.
      destruct (Z.of_nat (length acc + (length (items x) + length (xs ≫= items)))
                >=? count) eqn:Hall; [|by rewrite app_assoc].
      rewrite take_app, (take_ge (items x)) by geb_lia.
      rewrite <- app_assoc.
      by replace (Z.to_nat count - (length acc + length (items x)))%nat
        with (Z.to_nat count - length acc - length (items x))%nat by lia.
Qed.

Lemma appends_from_empty {V} count (B : list V -> result (list V + list V))
  vs :
  0 < count -> appends count B vs ->
  returned (B []) = Return (take (Z.to_nat count) vs).
Proof.
  intros Hc HB. rewrite HB by (simpl; lia). simpl.
  destruct (Z.of_nat (length vs) >=? count) eqn:Hl; simpl.
  - by rewrite Nat.sub_0_r.
  - by rewrite take_ge by geb_lia.
Qed.

Lemma for_in_skip {X R A} (xs : list X) (B : X -> A -> result (R + A)) a :
  (forall x a', B x a' = Return (inr a')) -> for_in xs B a = Return (inr a).
Proof.
  intros HB. revert a. induction xs as [|x xs IH]; intros a; simpl; [done|].
  by rewrite HB.
Qed.

Lemma for_in_app {X R A} (xs ys : list X) (B : X -> A -> result (R + A)) a :
  for_in (xs ++ ys) B a
  = match for_in xs B a with
    | Return (inr a') => for_in ys B a'
    | r => r
    end.
Proof.
  revert a. induction xs as [|x xs IH]; intros a; simpl; [done|].
  destruct (B x a) as [[r|a']|e]; [done|apply IH|done].
Qed.

Lemma range_nonpos n : n <= 0 -> range n = [].
Proof. intros Hn. unfold range. by replace (Z.to_nat n) with 0%nat by lia. Qed.

Lemma range_head n : 0 < n -> exists tl, range n = 0 :: tl.
Proof.
  intros Hn. unfold range. destruct (Z.to_nat n) as [|m] eqn:Hm; [lia|].
  simpl. eauto.
Qed.

Lemma range_split n m :
  0 <= n <= m -> exists tl, range (m + 1) = range n ++ n :: tl.
Proof.
  intros Hn. unfold range.
  replace (Z.to_nat (m + 1)) with (Z.to_nat n + S (Z.to_nat (m - n)))%nat by lia.
  rewrite seq_app, map_app. simpl. rewrite Z2Nat.id by lia. eauto.
Qed.

Lemma bind_length_const {X V} (xs : list X) (f : X -> list V) (c : nat) :
  (forall x, x ∈ xs -> length (f x) = c) ->
  length (xs ≫= f) = (length xs * c)%nat.
Proof.
  induction xs as [|x xs IH]; intros Hf; [done|].
  rewrite bind_cons, length_app, IH, Hf; [simpl; lia|by left|].
  intros y Hy. apply Hf. by right.
Qed.

Import Text Engine.

(** *** Dotted quads, written and read back *)

Lemma string_app_cons x (a b : string) :
  String x a +:+ b = String x (a +:+ b).
Proof. reflexivity. Qed.

Lemma string_app_empty_l (a : string) : "" +:+ a = a.
Proof. reflexivity. Qed.

Lemma string_app_assoc (a b c : string) : (a +:+ b) +:+ c = a +:+ (b +:+ c).
Proof.
  induction a as [|x a IH]; [done|]. by rewrite !string_app_cons, IH.
Qed.

Lemma string_app_empty_r (a : string) : a +:+ "" = a.
Proof. induction a as [|x a IH]; [done|]. by rewrite string_app_cons, IH. Qed.

Lemma free_of_app c (a b : string) :
  free_of c (a +:+ b) = free_of c a && free_of c b.
Proof.
  induction a as [|x a IH]; [done|].
  rewrite string_app_cons. cbn [free_of]. by rewrite IH, andb_assoc.
Qed.

Lemma split_on_free c (s1 s2 cur : string) :
  free_of c s1 = true ->
  split_on c (s1 +:+ s2) cur = split_on c s2 (cur +:+ s1).
Proof.
  revert cur. induction s1 as [|x s1 IH]; intros cur Hf.
  - by rewrite string_app_empty_l, string_app_empty_r.
  - cbn [free_of] in Hf. apply andb_true_iff in Hf as [Hx Hf].
    apply negb_true_iff in Hx.
    rewrite string_app_cons. cbn [split_on]. rewrite Hx, (IH _ Hf).
    by rewrite string_app_assoc.
Qed.

Lemma split_on_sep c (s cur : string) :
  split_on c (String c s) cur = cur :: split_on c s "".
Proof. cbn [split_on]. by rewrite Ascii.eqb_refl. Qed.

Lemma split_on_free_end c (s cur : string) :
  free_of c s = true -> split_on c s cur = [cur +:+ s].
Proof.
  intros Hf. rewrite <- (string_app_empty_r s) at 1.
  by rewrite split_on_free.
Qed.

Lemma split_quad (a b c d : string) :
  free_of "." a = true -> free_of "." b = true ->
  free_of "." c = true -> free_of "." d = true ->
  split_on "." (a +:+ "." +:+ b +:+ "." +:+ c +:+ "." +:+ d) ""
  = [a; b; c; d].
Proof.
  intros Ha Hb Hc Hd.
  rewrite split_on_free, string_app_cons, split_on_sep by done.
  rewrite !string_app_empty_l.
  rewrite split_on_free, string_app_cons, split_on_sep by done.
  rewrite !string_app_empty_l.
  rewrite split_on_free, string_app_cons, split_on_sep by done.
  rewrite !string_app_empty_l.
  by rewrite split_on_free_end.
Qed.

Lemma lor_octet a b :
  0 <= a -> 0 <= b < 256 -> Z.lor (Z.shiftl a 8) b = a * 256 + b.
Proof.
  intros Ha Hb.
  assert (Hl : Z.land (Z.shiftl a 8) b = 0).
  { apply Z.bits_inj'. intros i Hi. rewrite Z.land_spec, Z.bits_0.
    destruct (Z_lt_le_dec i 8) as [Hlt|Hge].
    - by rewrite Z.shiftl_spec_low.
    - rewrite (testbit_above 8 b i) by (simpl; lia).
      by rewrite andb_false_r. }
  rewrite <- Z.lxor_lor, <- Z.add_nocarry_lxor by done.
  by rewrite Z.shiftl_mul_pow2 by lia.
Qed.

Lemma join_quad (a b c d : string) (x y z w : Z) :
  parse_octet a = Some x -> parse_octet b = Some y ->
  parse_octet c = Some z -> parse_octet d = Some w ->
  0 <= x < 256 -> 0 <= y < 256 -> 0 <= z < 256 -> 0 <= w < 256 ->
  join_parts parse_octet 8 [a; b; c; d] 0 = Some (quad x y z w).
Proof.
  intros Ha Hb Hc Hd Hx Hy Hz Hw. cbn [join_parts].
  rewrite Ha. cbn [join_parts]. rewrite Hb. cbn [join_parts].
  rewrite Hc. cbn [join_parts]. rewrite Hd. f_equal.
  rewrite (lor_octet 0 x) by lia.
  rewrite (lor_octet (0 * 256 + x) y) by lia.
  rewrite (lor_octet ((0 * 256 + x) * 256 + y) z) by lia.
  rewrite lor_octet by lia. unfold quad. lia.
Qed.

Lemma ip4_quad (a b c d : string) (x y z w : Z) :
  free_of "." a = true -> free_of "." b = true ->
  free_of "." c = true -> free_of "." d = true ->
  parse_octet a = Some x -> parse_octet b = Some y ->
  parse_octet c = Some z -> parse_octet d = Some w ->
  0 <= x < 256 -> 0 <= y < 256 -> 0 <= z < 256 -> 0 <= w < 256 ->
  ip4_int_from_string (a +:+ "." +:+ b +:+ "." +:+ c +:+ "." +:+ d)
  = Some (quad x y z w).
Proof.
  intros. unfold ip4_int_from_string. rewrite split_quad by done.
  simpl. by apply join_quad.
Qed.

Lemma octet_str k :
  0 <= k <= 255 ->
  parse_octet (str k) = Some k /\
  free_of "." (str k) = true /\ free_of "/" (str k) = true.
Proof.
  intros Hk.
  assert (Hall : forallb (fun n =>
                    bool_decide (parse_octet (str (Z.of_nat n))
                                 = Some (Z.of_nat n))
                    && free_of "." (str (Z.of_nat n))
                    && free_of "/" (str (Z.of_nat n))) (seq 0 256) = true)
    by (vm_compute; reflexivity).
  rewrite forallb_forall in Hall.
  assert (Hin : In (Z.to_nat k) (seq 0 256)) by (apply in_seq; lia).
  apply Hall in Hin. rewrite Z2Nat.id in Hin by lia.
  apply andb_true_iff in Hin as [Hin Hs].
  apply andb_true_iff in Hin as [Hp Hd].
  by apply bool_decide_eq_true in Hp.
Qed.

Lemma quad_range x y z w :
  0 <= x < 256 -> 0 <= y < 256 -> 0 <= z < 256 -> 0 <= w < 256 ->
  0 <= quad x y z w < 2 ^ 32.
Proof. intros. unfold quad. lia. Qed.

Lemma IPv4Address_quad i j k :
  0 <= i <= 255 -> 0 <= j <= 255 -> 0 <= k <= 255 ->
  IPv4Address (str i +:+ "." +:+ str j +:+ "." +:+ str k +:+ ".1")
  = Return (quad i j k 1).
Proof.
  intros Hi Hj Hk.
  destruct (octet_str i Hi) as (Pi & Fi & _).
  destruct (octet_str j Hj) as (Pj & Fj & _).
  destruct (octet_str k Hk) as (Pk & Fk & _).
  assert (Hs : str i +:+ "." +:+ str j +:+ "." +:+ str k +:+ ".1"
               = str i +:+ "." +:+ str j +:+ "." +:+ str k +:+ "." +:+ "1")
    by reflexivity.
  unfold IPv4Address, ip4_address_of_string, text_ipaddress.
  rewrite Hs, (ip4_quad _ _ _ _ i j k 1) by (done || lia).
  pose proof (quad_range i j k 1) as Hr. unfold make_address, _ALL_ONES.
  destruct (0 <=? quad i j k 1) eqn:H1; [|lia].
  destruct (quad i j k 1 <=? 2 ^ 32 - 1) eqn:H2; [done|lia].
Qed.

(** *** The routes *)

Lemma land_high_bits x :
  0 <= x < 2 ^ 16 ->
  Z.land (x * 65536) (_ip_int_from_prefix 32 16) = x * 65536.
Proof.
  intros Hx. change 65536 with (2 ^ 16). rewrite <- Z.shiftl_mul_pow2 by lia.
  apply Z.bits_inj'. intros i Hi.
  rewrite Z.land_spec, netmask_testbit by lia.
  destruct (Z_lt_le_dec i 16) as [Hlt|Hge].
  - rewrite Z.shiftl_spec_low by lia. done.
  - rewrite Z.shiftl_spec by lia.
    destruct (32 - 16 <=? i) eqn:H1; [|lia].
    destruct (i <? 32) eqn:H2; simpl; [by rewrite andb_true_r|].
    rewrite (testbit_above 16 x (i - 16)) by lia. done.
Qed.

Lemma IPv4Network_route i j strict :
  0 <= i <= 255 -> 0 <= j <= 255 ->
  IPv4Network (str i +:+ "." +:+ str j +:+ ".0.0/16") strict
  = Return {| network_address := (i * 256 + j) * 65536; prefixlen := 16 |}.
Proof.
  intros Hi Hj.
  destruct (octet_str i Hi) as (Pi & Fi & Si).
  destruct (octet_str j Hj) as (Pj & Fj & Sj).
  assert (Hs : str i +:+ "." +:+ str j +:+ ".0.0/16"
               = (str i +:+ "." +:+ str j +:+ "." +:+ "0" +:+ "." +:+ "0")
                 +:+ "/16").
  { rewrite !string_app_assoc. reflexivity. }
  assert (Hf : free_of "/" (str i +:+ "." +:+ str j +:+ "." +:+ "0" +:+ "."
                            +:+ "0") = true).
  { rewrite !free_of_app, Si, Sj. reflexivity. }
  unfold IPv4Network, ip4_network_of_string, text_ipaddress,
    network_from_string.
  rewrite Hs, split_on_free, string_app_empty_l, split_on_sep by done.
  change (split_on "/" "16" "") with ["16"%string].
  rewrite (ip4_quad _ _ _ _ i j 0 0) by (done || lia).
  change (prefix_from_string 32 "16") with (Some 16).
  replace (quad i j 0 0) with ((i * 256 + j) * 65536) by (unfold quad; lia).
  unfold make_network, _ALL_ONES.
  destruct (0 <=? (i * 256 + j) * 65536) eqn:H1; [|lia].
  destruct ((i * 256 + j) * 65536 <=? 2 ^ 32 - 1) eqn:H2; [|lia].
  simpl negb. cbv iota. 
  rewrite land_high_bits by lia. by rewrite Z.eqb_refl.
Qed.

Lemma generate_test_routes_take count :
  generate_test_routes count
  = Return (take (Z.to_nat count) (route_grid count)).
Proof.
  unfold generate_test_routes, route_grid. cbv zeta.
  destruct (Z_le_gt_dec count 0) as [Hc|Hc].
  - rewrite (range_nonpos (Z.min count 256)) by lia.
    by replace (Z.to_nat count) with 0%nat by lia.
  - apply appends_from_empty; [lia|].
    apply appends_for_in. intros i _.
    apply appends_for_in. intros j _.
    apply (appends_one count (_, _)).
Qed.

Lemma elem_of_route_grid count r :
  r ∈ route_grid count <->
  exists i j, 0 <= i < Z.min count 256 /\
              0 <= j < Z.min (count / 256 + 1) 256 /\
              r = (str i +:+ "." +:+ str j +:+ ".0.0/16", i * 256 + j).
Proof.
  unfold route_grid. rewrite list_elem_of_bind. split.
  - intros (i & Hr & Hi). apply list_elem_of_bind in Hr as (j & Hr & Hj).
    apply list_elem_of_singleton in Hr.
    apply elem_of_range in Hi, Hj. eauto.
  - intros (i & j & Hi & Hj & ->). exists i. split; [|by apply elem_of_range].
    apply list_elem_of_bind. exists j. split; [|by apply elem_of_range].
    by apply list_elem_of_singleton.
Qed.

Lemma route_grid_length count :
  0 <= count ->
  (Z.to_nat count `min` length (route_grid count))%nat
  = Z.to_nat (Z.min count 65536).
Proof.
  intros Hc. unfold route_grid.
  rewrite (bind_length_const _ _ (Z.to_nat (Z.min (count / 256 + 1) 256))).
  2:{ intros i _. rewrite (bind_length_const _ _ 1%nat) by done.
      rewrite range_length. lia. }
  rewrite range_length.
  pose proof (Z.div_mod count 256 ltac:(lia)) as Hd.
  pose proof (Z.mod_pos_bound count 256 ltac:(lia)) as Hm.
  destruct (Z_lt_le_dec count 256) as [H1|H1].
  - rewrite Z.div_small by lia. simpl Z.min.
    replace (Z.min (0 + 1) 256) with 1 by lia. lia.
  - replace (Z.min count 256) with 256 by lia.
    destruct (Z_lt_le_dec count 65536) as [H2|H2].
    + replace (Z.min (count / 256 + 1) 256) with (count / 256 + 1) by lia.
      lia.
    + replace (Z.min (count / 256 + 1) 256) with 256 by lia.
      change (Z.to_nat 256 * Z.to_nat 256)%nat with (Z.to_nat 65536). lia.
Qed.

Lemma NoDup_route_grid_hops count : NoDup (route_grid count).*2.
Proof.
  apply NoDup_fmap_2_strong.
  - intros x y Hx Hy Hxy.
    apply elem_of_route_grid in Hx as (i & j & Hi & Hj & ->).
    apply elem_of_route_grid in Hy as (i' & j' & Hi' & Hj' & ->).
    simpl in Hxy.
    assert (i = i') as -> by lia. assert (j = j') as -> by lia. done.
  - unfold route_grid. apply NoDup_bind; [| |apply NoDup_range].
    + intros i i' y Hi Hi' Hy Hy'.
      apply list_elem_of_bind in Hy as (j & Hy & Hj).
      apply list_elem_of_bind in Hy' as (j' & Hy' & Hj').
      apply list_elem_of_singleton in Hy, Hy'. subst y.
      apply elem_of_range in Hj, Hj'. injection Hy' as _ He. lia.
    + intros i Hi. apply NoDup_bind; [| |apply NoDup_range].
      * intros j j' y _ _ Hy Hy'.
        apply list_elem_of_singleton in Hy, Hy'. subst y.
        injection Hy' as _ He. lia.
      * intros j _. apply NoDup_singleton.
Qed.

Lemma route_take_length count :
  length (take (Z.to_nat count) (route_grid count))
  = Z.to_nat (Z.min count 65536).
Proof.
  rewrite length_take. destruct (Z_le_gt_dec 0 count) as [Hc|Hc].
  - by apply route_grid_length.
  - replace (Z.to_nat count) with 0%nat by lia.
    by replace (Z.to_nat (Z.min count 65536)) with 0%nat by lia.
Qed.

Lemma NoDup_route_take count :
  NoDup (take (Z.to_nat count) (route_grid count)).*2.
Proof.
  rewrite fmap_take. eapply sublist_NoDup; [|apply sublist_take].
  apply NoDup_route_grid_hops.
Qed.

Lemma route_take_readable count r :
  r ∈ take (Z.to_nat count) (route_grid count) ->
  (exists i j,
      0 <= i <= 255 /\ 0 <= j <= 255 /\
      r = (str i +:+ "." +:+ str j +:+ ".0.0/16", i * 256 + j)) /\
  0 <= r.2 <= 0xFFFF /\
  forall strict,
    IPv4Network r.1 strict
    = Return {| network_address := r.2 * 65536; prefixlen := 16 |}.
Proof.
  intros Hr. apply subseteq_take in Hr.
  apply elem_of_route_grid in Hr as (i & j & Hi & Hj & ->).
  split; [exists i, j; repeat (split; [lia|]); done|].
  split; [simpl; lia|].
  intros strict. simpl. apply IPv4Network_route; lia.
Qed.

(** X13. [generate_test_routes(count)] never raises.  It returns
    [min(count, 65536)] routes (none for a negative [count]): the first
    ones of the grid of its two loops.  Each route is a string
    [i.j.0.0/16] of two octets with the next hop [i * 256 + j], a legal
    next hop; [ipaddress] reads the string, strictly or not, as the
    network of length 16 at the address [next_hop * 65536]; and no two
    routes have the same next hop, so no two are the same network. *)
Theorem generate_test_routes_spec (count : Z) :
  exists routes,
    generate_test_routes count = Return routes /\
    routes = take (Z.to_nat count) (route_grid count) /\
    length routes = Z.to_nat (Z.min count 65536) /\
    NoDup routes.*2 /\
    Forall (fun r =>
              (exists i j,
                  0 <= i <= 255 /\ 0 <= j <= 255 /\
                  r = (str i +:+ "." +:+ str j +:+ ".0.0/16", i * 256 + j)) /\
              0 <= r.2 <= 0xFFFF /\
              forall strict,
                IPv4Network r.1 strict
                = Return {| network_address := r.2 * 65536;
                            prefixlen := 16 |}) routes.
Proof.
  eexists. split; [apply generate_test_routes_take|].
  split; [done|]. split; [apply route_take_length|].
  split; [apply NoDup_route_take|].
  apply Forall_forall. intros r Hr. by apply (route_take_readable count).
Qed.

(** *** The addresses *)

Lemma address_body count i j k :
  0 <= i <= 255 -> 0 <= j <= 255 -> 0 <= k <= 255 ->
  appends count
    (fun addresses =>
       match IPv4Address (str i +:+ "." +:+ str j +:+ "." +:+ str k +:+ ".1")
       with
       | Raise e => Raise e
       | Return addr =>
           let addresses := addresses ++ [addr] in
           if Z.of_nat (length addresses) >=? count
           then Return (inl addresses)
           else Return (inr addresses)
       end)
    [quad i j k 1].
Proof.
  intros Hi Hj Hk acc Hacc. rewrite IPv4Address_quad by done.
  by apply (appends_one count (quad i j k 1)).
Qed.

Lemma generate_test_addresses_take count :
  0 < count < 2 ^ 24 ->
  generate_test_addresses count
  = Return (take (Z.to_nat count) (address_grid count)).
Proof.
  intros Hc. unfold generate_test_addresses, address_grid. cbv zeta.
  assert (count / 65536 + 1 <= 256).
  { assert (count / 65536 < 256); [|lia].
    apply Z.div_lt_upper_bound; lia. }
  apply appends_from_empty; [lia|].
  apply appends_for_in. intros i Hi%elem_of_range.
  apply appends_for_in. intros j Hj%elem_of_range.
  apply appends_for_in. intros k Hk%elem_of_range.
  apply address_body; lia.
Qed.

Lemma elem_of_address_grid count a :
  a ∈ address_grid count <->
  exists i j k, 0 <= i < 256 /\ 0 <= j < 256 /\
                0 <= k < count / 65536 + 1 /\ a = quad i j k 1.
Proof.
  unfold address_grid. rewrite list_elem_of_bind. split.
  - intros (i & Ha & Hi). apply list_elem_of_bind in Ha as (j & Ha & Hj).
    apply list_elem_of_bind in Ha as (k & Ha & Hk).
    apply list_elem_of_singleton in Ha.
    apply elem_of_range in Hi, Hj, Hk. eauto 10.
  - intros (i & j & k & Hi & Hj & Hk & ->).
    exists i. split; [|by apply elem_of_range].
    apply list_elem_of_bind. exists j. split; [|by apply elem_of_range].
    apply list_elem_of_bind. exists k. split; [|by apply elem_of_range].
    by apply list_elem_of_singleton.
Qed.

Lemma address_grid_length count :
  0 <= count ->
  (Z.to_nat count `min` length (address_grid count))%nat = Z.to_nat count.
Proof.
  intros Hc. unfold address_grid.
  rewrite (bind_length_const _ _ (256 * Z.to_nat (count / 65536 + 1))%nat).
  2:{ intros i _.
      rewrite (bind_length_const _ _ (Z.to_nat (count / 65536 + 1))).
      - by rewrite range_length.
      - intros j _. rewrite (bind_length_const _ _ 1%nat) by done.
        rewrite range_length. lia. }
  rewrite range_length.
  pose proof (Z.div_mod count 65536 ltac:(lia)) as Hd.
  pose proof (Z.mod_pos_bound count 65536 ltac:(lia)) as Hm.
  assert (0 <= count / 65536) by (apply Z.div_pos; lia).
  change (Z.to_nat 256) with 256%nat. lia.
Qed.

Lemma quad_inj i j k i' j' k' :
  0 <= j < 256 -> 0 <= k < 256 -> 0 <= j' < 256 -> 0 <= k' < 256 ->
  quad i j k 1 = quad i' j' k' 1 -> i = i' /\ j = j' /\ k = k'.
Proof. unfold quad. lia. Qed.

Lemma NoDup_address_grid count :
  count / 65536 + 1 <= 256 -> NoDup (address_grid count).
Proof.
  intros HK. unfold address_grid. apply NoDup_bind; [| |apply NoDup_range].
  - intros i i' y Hi Hi' Hy Hy'.
    apply list_elem_of_bind in Hy as (j & Hy & Hj).
    apply list_elem_of_bind in Hy as (k & Hy & Hk).
    apply list_elem_of_bind in Hy' as (j' & Hy' & Hj').
    apply list_elem_of_bind in Hy' as (k' & Hy' & Hk').
    apply list_elem_of_singleton in Hy, Hy'. subst y.
    apply elem_of_range in Hj, Hj', Hk, Hk'.
    apply quad_inj in Hy'; lia.
  - intros i Hi. apply NoDup_bind; [| |apply NoDup_range].
    + intros j j' y Hj Hj' Hy Hy'.
      apply list_elem_of_bind in Hy as (k & Hy & Hk).
      apply list_elem_of_bind in Hy' as (k' & Hy' & Hk').
      apply list_elem_of_singleton in Hy, Hy'. subst y.
      apply elem_of_range in Hj, Hj', Hk, Hk'.
      apply quad_inj in Hy'; lia.
    + intros j Hj. apply NoDup_bind; [| |apply NoDup_range].
      * intros k k' y Hk Hk' Hy Hy'.
        apply list_elem_of_singleton in Hy, Hy'. subst y.
        apply elem_of_range in Hk, Hk'.
        apply elem_of_range in Hj.
        apply quad_inj in Hy'; lia.
      * intros k _. apply NoDup_singleton.
Qed.

Lemma generate_test_addresses_overflow count :
  2 ^ 24 <= count ->
  generate_test_addresses count = Raise AddressValueError.
Proof.
  intros Hc. unfold generate_test_addresses. cbv zeta.
  assert (HK : 256 <= count / 65536) by (apply Z.div_le_lower_bound; lia).
  destruct (range_split 256 (count / 65536)) as (tlk & ->); [lia|].
  destruct (range_head 256) as (tl & Htl); [lia|].
  rewrite Htl at 1. cbn [for_in]. rewrite Htl at 1. cbn [for_in].
  rewrite for_in_app.
  rewrite (appends_for_in count (range 256) _ (fun k => [quad 0 0 k 1]));
    [| |simpl; lia].
  2:{ intros k Hk%elem_of_range. apply address_body; lia. }
  rewrite (bind_length_const _ _ 1%nat), range_length by done.
  destruct (Z.of_nat (length [] + Z.to_nat 256 * 1) >=? count) eqn:Hl.
  { rewrite Z.geb_leb in Hl. apply Z.leb_le in Hl. simpl in Hl. lia. }
  cbn [for_in].
  assert (Hbad : IPv4Address
                   (str 0 +:+ "." +:+ str 0 +:+ "." +:+ str 256 +:+ ".1")
                 = Raise AddressValueError) by (vm_compute; reflexivity).
  rewrite Hbad. reflexivity.
Qed.

(** X14. [generate_test_addresses(count)], with the addresses read as
    [ipaddress] reads them.  For [0 < count < 2 ** 24] it returns exactly
    [count] addresses, all different: the first ones of the grid of its
    three loops, each an address [i.j.k.1] of the family with
    [k <= count // 65536].  A negative [count] gives the empty list, and
    [count = 0] gives one address, [0.0.0.1], not none: the test of the
    length comes after the append.  From [count = 2 ** 24] on the call
    raises [AddressValueError]: the innermost loop reaches [k = 256]
    before [count] addresses are there, and [0.0.256.1] is no address. *)
Theorem generate_test_addresses_spec (count : Z) :
  (count < 0 -> generate_test_addresses count = Return []) /\
  (count = 0 -> generate_test_addresses count = Return [quad 0 0 0 1]) /\
  (0 < count < 2 ^ 24 ->
   exists addresses,
     generate_test_addresses count = Return addresses /\
     addresses = take (Z.to_nat count) (address_grid count) /\
     length addresses = Z.to_nat count /\
     NoDup addresses /\
     Forall (fun a =>
               0 <= a < 2 ^ 32 /\
               exists i j k,
                 0 <= i <= 255 /\ 0 <= j <= 255 /\
                 0 <= k <= count / 65536 /\ k <= 255 /\
                 a = quad i j k 1 /\
                 IPv4Address
                   (str i +:+ "." +:+ str j +:+ "." +:+ str k +:+ ".1")
                 = Return a) addresses) /\
  (2 ^ 24 <= count -> generate_test_addresses count = Raise AddressValueError).
Proof.
  split; [|split; [|split]].
  - intros Hc. unfold generate_test_addresses. cbv zeta.
    assert (count / 65536 + 1 <= 0).
    { assert (count / 65536 < 0); [|lia].
      apply Z.div_lt_upper_bound; lia. }
    rewrite for_in_skip; [done|]. intros i a.
    rewrite for_in_skip; [done|]. intros j a'.
    by rewrite range_nonpos.
  - intros ->. vm_compute. reflexivity.
  - intros Hc.
    assert (HK : count / 65536 + 1 <= 256).
    { assert (count / 65536 < 256); [|lia].
      apply Z.div_lt_upper_bound; lia. }
    eexists. split; [by apply generate_test_addresses_take|].
    split; [done|]. split; [|split].
    + rewrite length_take. apply address_grid_length. lia.
    + eapply sublist_NoDup; [|apply sublist_take].
      by apply NoDup_address_grid.
    + apply Forall_forall. intros a Ha. apply subseteq_take in Ha.
      apply elem_of_address_grid in Ha as (i & j & k & Hi & Hj & Hk & ->).
      split; [apply quad_range; lia|].
      exists i, j, k. do 4 (split; [lia|]).
      split; [done|]. apply IPv4Address_quad; lia.
  - apply generate_test_addresses_overflow.
Qed.

(** *** Loading the generated routes *)

Lemma route_map_snoc routes r :
  route_map (routes ++ [r]) = <[(r.2 * 65536, 16) := r.2]> (route_map routes).
Proof. unfold route_map. by rewrite foldl_app. Qed.

Lemma lookup_route_map routes net len nh :
  route_map routes !! (net, len) = Some nh <->
  len = 16 /\ net = nh * 65536 /\ nh ∈ routes.*2.
Proof.
  induction routes as [|r routes IH] using rev_ind.
  - unfold route_map. simpl. rewrite lookup_empty. split; [done|].
    intros (_ & _ & Hin). by apply elem_of_nil in Hin.
  - rewrite route_map_snoc, lookup_insert_Some, IH, fmap_app. simpl.
    rewrite elem_of_app, list_elem_of_singleton. split.
    + intros [[[= <- <-] <-]|(_ & -> & -> & Hin)]; eauto.
    + intros (-> & -> & [Hin| ->]); [|by left].
      destruct (decide (r.2 = nh)) as [<-|Hne]; [by left|].
      right. split; [|done]. intros [= ?]. lia.
Qed.

Lemma route_map_size routes :
  NoDup routes.*2 -> size (route_map routes) = length routes.
Proof.
  induction routes as [|r routes IH] using rev_ind; intros Hnd; [done|].
  rewrite fmap_app in Hnd. apply NoDup_app in Hnd as (Hnd & Hfresh & _).
  rewrite route_map_snoc, map_size_insert_None.
  - rewrite IH, length_app by done. simpl. lia.
  - destruct (route_map routes !! (r.2 * 65536, 16)) as [nh|] eqn:Hl; [|done].
    apply lookup_route_map in Hl as (_ & Hk & Hin).
    assert (nh = r.2) as -> by lia.
    exfalso. apply (Hfresh _ Hin). simpl. by left.
Qed.

Lemma truncate_16 a : truncate 32 a 16 = a / 65536 * 65536.
Proof.
  unfold truncate. simpl.
  by rewrite Z.shiftl_mul_pow2, Z.shiftr_div_pow2 by lia.
Qed.

(** What the engine answers once it holds the routes. *)
Lemma served_lpm routes (e : lpm_trie) a :
  lpm_routes e = route_map routes ->
  Forall (fun r => 0 <= r.2 <= 0xFFFF) routes ->
  0 <= a < 2 ^ 32 ->
  next_hop_or_None (lpm_lookup 32 a e) = served routes a.
Proof.
  intros HR Hnh Ha. unfold lpm_lookup, served. rewrite HR.
  destruct (lpm_lookup_longest 32 (route_map routes) a Ha) as [Hhit Hmiss].
  destruct (decide (a / 65536 ∈ routes.*2)) as [Hin|Hout].
  - rewrite (Hhit (a / 65536 * 65536) 16 (a / 65536)).
    + apply next_hop_or_None_Some.
      apply list_elem_of_fmap in Hin as (r & Hr & Hin).
      rewrite Forall_forall in Hnh. specialize (Hnh r Hin).
      unfold INVALID_NEXT_HOP. lia.
    + by apply lookup_route_map.
    + apply covers_truncate; [done|]. split; [lia|apply truncate_16].
    + intros net' len' nh' Hst _.
      apply lookup_route_map in Hst as (-> & _). lia.
  - rewrite Hmiss; [done|].
    intros net len nh Hst Hcov.
    apply lookup_route_map in Hst as (-> & -> & Hin).
    apply covers_truncate in Hcov as [_ Hcov]; [|done].
    rewrite truncate_16 in Hcov.
    assert (a / 65536 = nh) as <- by lia. done.
Qed.

Lemma insert_routes_lpm routes (t : table Z lpm_trie) :
  _closed t = false ->
  Forall (fun r => 0 <= r.2 <= 0xFFFF /\
                   IPv4Network r.1 false
                   = Return {| network_address := r.2 * 65536;
                               prefixlen := 16 |}) routes ->
  exists t',
    insert_routes routes t = (Return tt, t') /\
    _closed t' = false /\
    lpm_routes (_trie t')
    = foldl (fun R r => <[(r.2 * 65536, 16) := r.2]> R)
        (lpm_routes (_trie t)) routes.
Proof.
  revert t. induction routes as [|[s nh] routes IH]; intros t Hc Hok.
  - by exists t.
  - apply Forall_cons in Hok as [[Hnh Hnet] Hok]. simpl in Hnh, Hnet.
    destruct (insert4_lpm t {| network_address := nh * 65536;
                               prefixlen := 16 |} nh Hc)
      as (t1 & Hins & Hc1 & HR1); [lia| |].
    { split; [simpl; lia|]. split; [simpl; lia|].
      simpl. apply land_high_bits. lia. }
    destruct (IH t1 Hc1 Hok) as (t' & Hrun & Hc' & HR').
    exists t'. split; [|split; [done|]].
    + unfold insert_routes in *. cbn [for_each]. unfold bind.
      by rewrite (insert4_str _ _ _ _ Hnet), Hins.
    + rewrite HR', HR1. done.
Qed.

Lemma to_addr_array_objects addrs :
  Forall (valid_address 32) addrs ->
  LpmTableIPv4.to_addr_array (map AddrObj addrs) = Return addrs.
Proof.
  induction 1 as [|a addrs Ha _ IH]; [done|].
  simpl. by rewrite IH, packed4_roundtrip.
Qed.

Lemma quad_div i j k l :
  0 <= k <= 255 -> 0 <= l <= 255 -> quad i j k l / 65536 = i * 256 + j.
Proof.
  intros Hk Hl. symmetry. apply (Z.div_unique _ _ _ (k * 256 + l)).
  - left. lia.
  - unfold quad. lia.
Qed.

Lemma route_grid_full count i j :
  65536 <= count -> 0 <= i <= 255 -> 0 <= j <= 255 ->
  i * 256 + j ∈ (take (Z.to_nat count) (route_grid count)).*2.
Proof.
  intros Hc Hi Hj.
  assert (256 <= count / 256) by (apply Z.div_le_lower_bound; lia).
  rewrite take_ge.
  - apply list_elem_of_fmap. eexists (_, _). split; [done|].
    apply elem_of_route_grid. exists i, j. repeat (split; [lia|]). done.
  - pose proof (route_grid_length count ltac:(lia)) as Hlen.
    replace (Z.min count 65536) with 65536 in Hlen by lia.
    unfold route_grid in *.
    rewrite (bind_length_const _ _ (Z.to_nat (Z.min (count / 256 + 1) 256))).
    2:{ intros x _. rewrite (bind_length_const _ _ 1%nat) by done.
        rewrite range_length. lia. }
    rewrite range_length.
    replace (Z.min count 256) with 256 by lia.
    replace (Z.min (count / 256 + 1) 256) with 256 by lia.
    change (Z.to_nat 256 * Z.to_nat 256)%nat with (Z.to_nat 65536). lia.
Qed.

(** X15. The generated routes, loaded and looked up, over the engine
    modelled from the spec.  On a just constructed table the loop
    [for prefix, next_hop in routes: table.insert(prefix, next_hop)] over
    the routes of [generate_test_routes(count)] runs without an exception
    and leaves the table open with as many prefixes as there are routes,
    [min(count, 65536)] (none for a negative [count]).  From then on the
    table answers an address of the family with its two leading octets as
    one number, [a // 65536], if that is the next hop of one of the
    routes, and with [None] if not; [lookup_batch] gives the same answers
    in the order of the addresses.  So [i.j.k.l] is answered [i * 256 + j]
    when the route [i.j.0.0/16] was generated; from [count = 65536] on
    every address has an answer, and for [count <= 0] none has. *)
Theorem generated_routes_serve_lookups (count : Z)
  (algorithm : algorithm_arg) (t0 : table Z lpm_trie)
  (routes : list (string * Z)) :
  LpmTableIPv4.__init__ algorithm = Return t0 ->
  generate_test_routes count = Return routes ->
  exists t,
    insert_routes routes t0 = (Return tt, t) /\
    LpmTableIPv4.closed t = false /\
    LpmTableIPv4.num_prefixes t = Z.of_nat (length routes) /\
    LpmTableIPv4.num_prefixes t = Z.max 0 (Z.min count 65536) /\
    (forall a, valid_address 32 a ->
       fst (LpmTableIPv4.lookup (AddrObj a) t) = Return (served routes a)) /\
    (forall addrs, Forall (valid_address 32) addrs ->
       fst (LpmTableIPv4.lookup_batch (map AddrObj addrs) t)
       = Return (map (served routes) addrs)) /\
    (forall i j k l,
       0 <= k <= 255 -> 0 <= l <= 255 ->
       (str i +:+ "." +:+ str j +:+ ".0.0/16", i * 256 + j) ∈ routes ->
       served routes (quad i j k l) = Some (i * 256 + j)) /\
    (65536 <= count ->
     forall a, valid_address 32 a -> served routes a = Some (a / 65536)) /\
    (count <= 0 -> forall a, served routes a = None).
Proof.
  intros Hinit Hgen.
  rewrite generate_test_routes_take in Hgen. injection Hgen as Htake.
  symmetry in Htake.
  assert (Hlen : length routes = Z.to_nat (Z.min count 65536))
    by (rewrite Htake; apply route_take_length).
  assert (Hnd : NoDup routes.*2) by (rewrite Htake; apply NoDup_route_take).
  assert (Hall : Forall (fun r =>
                   0 <= r.2 <= 0xFFFF /\
                   IPv4Network r.1 false
                   = Return {| network_address := r.2 * 65536;
                               prefixlen := 16 |}) routes).
  { apply Forall_forall. intros r Hr. rewrite Htake in Hr.
    apply route_take_readable in Hr as (_ & Hnh & Hnet). by split. }
  destruct (init4_fresh _ _ Hinit) as (Hc0 & HR0 & _).
  destruct (insert_routes_lpm routes t0 Hc0 Hall) as (t & Hrun & Hc & HR).
  rewrite HR0 in HR. change (foldl _ ∅ routes) with (route_map routes) in HR.
  assert (Hhops : Forall (fun r => 0 <= r.2 <= 0xFFFF) routes).
  { eapply Forall_impl; [exact Hall|]. by intros r (Hnh & _). }
  assert (Hnum : LpmTableIPv4.num_prefixes t = Z.of_nat (length routes)).
  { unfold LpmTableIPv4.num_prefixes. simpl. unfold lpm_num_prefixes.
    by rewrite HR, route_map_size. }
  exists t. split; [done|]. split; [done|]. split; [done|].
  split; [rewrite Hnum, Hlen; lia|].
  split; [|split; [|split; [|split]]].
  - intros a Ha.
    rewrite (lookup4_open t (AddrObj a) a Hc)
      by (simpl; by rewrite packed4_roundtrip).
    simpl. f_equal. by apply served_lpm.
  - intros addrs Hv. destruct addrs as [|a addrs].
    { by rewrite lookup_batch4_empty. }
    rewrite (lookup_batch4_open t _ (a :: addrs) Hc)
      by (done || by apply to_addr_array_objects).
    simpl fst. f_equal.
    rewrite length_map.
    change (trie_lookup_batch (a :: addrs)
              (replicate (length (a :: addrs)) 0) (_trie t))
      with (lpm_lookup_batch (fun k => lpm_lookup 32 k (_trie t))
              (a :: addrs) (replicate (length (a :: addrs)) 0)).
    rewrite lpm_lookup_batch_map by (simpl; by rewrite length_replicate).
    rewrite map_map. apply map_ext_Forall.
    eapply Forall_impl; [exact Hv|]. intros x Hx. by apply served_lpm.
  - intros i j k l Hk Hl Hin. unfold served.
    rewrite quad_div by done.
    destruct (decide (i * 256 + j ∈ routes.*2)) as [|Hno]; [done|].
    exfalso. apply Hno. apply list_elem_of_fmap. by eexists (_, _).
  - intros Hcount a [Ha1 Ha2]. unfold served.
    destruct (decide (a / 65536 ∈ routes.*2)) as [|Hno]; [done|].
    exfalso. apply Hno. rewrite Htake.
    assert (0 <= a / 65536 < 65536).
    { split; [apply Z.div_pos; lia|apply Z.div_lt_upper_bound; lia]. }
    pose proof (Z.div_mod (a / 65536) 256 ltac:(lia)) as Hd.
    pose proof (Z.mod_pos_bound (a / 65536) 256 ltac:(lia)) as Hm.
    rewrite Hd at 1. rewrite (Z.mul_comm 256).
    apply route_grid_full; [done| |lia].
    split; [apply Z.div_pos; lia|].
    assert (a / 65536 / 256 < 256); [|lia].
    apply Z.div_lt_upper_bound; lia.
  - intros Hcount a. unfold served.
    assert (routes = []) as ->; [|done].
    apply length_zero_iff_nil. lia.
Qed.

(** *** The generators at the counts of the example *)

Import Examples.

Lemma generate_test_routes_spec_witness :
  exists routes,
    generate_test_routes 1000 = Return routes /\
    length routes = Z.to_nat (Z.min 1000 65536) /\
    NoDup routes.*2.
Proof.
  destruct (generate_test_routes_spec 1000)
    as (routes & Hgen & _ & Hlen & Hnd & _).
  exists routes. split; [exact Hgen|]. split; [exact Hlen|exact Hnd].
Defined.

Lemma generate_test_addresses_spec_witness :
  (exists addresses,
      generate_test_addresses 10000 = Return addresses /\
      length addresses = Z.to_nat 10000 /\
      NoDup addresses) /\
  generate_test_addresses (-1) = Return [] /\
  generate_test_addresses 0 = Return [quad 0 0 0 1] /\
  generate_test_addresses (2 ^ 24) = Raise AddressValueError.
Proof.
  split; [|split; [|split]].
  - destruct (generate_test_addresses_spec 10000) as (_ & _ & Hmid & _).
    destruct Hmid as (addresses & Hgen & _ & Hlen & Hnd & _); [lia|].
    exists addresses. split; [exact Hgen|]. split; [exact Hlen|exact Hnd].
  - destruct (generate_test_addresses_spec (-1)) as (Hneg & _).
    exact (Hneg ltac:(lia)).
  - destruct (generate_test_addresses_spec 0) as (_ & Hzero & _).
    exact (Hzero eq_refl).
  - destruct (generate_test_addresses_spec (2 ^ 24)) as (_ & _ & _ & Hbig).
    exact (Hbig ltac:(lia)).
Defined.

Lemma generated_routes_serve_lookups_witness :
  exists t,
    insert_routes (take (Z.to_nat 1000) (route_grid 1000)) new4
    = (Return tt, t) /\
    LpmTableIPv4.num_prefixes t = Z.max 0 (Z.min 1000 65536) /\
    fst (LpmTableIPv4.lookup (AddrObj (quad 10 2 3 1)) t)
    = Return (Some 2562) /\
    fst (LpmTableIPv4.lookup (AddrObj (quad 10 4 3 1)) t) = Return None /\
    fst (LpmTableIPv4.lookup_batch
           [AddrObj (quad 10 2 3 1); AddrObj (quad 250 0 0 1)] t)
    = Return [Some 2562; None].
Proof.
  destruct (generated_routes_serve_lookups 1000 (AlgEnum DIR24) new4
              (take (Z.to_nat 1000) (route_grid 1000)))
    as (t & Hrun & _ & _ & Hnum & Hlook & Hbatch & _).
  - reflexivity.
  - vm_compute. reflexivity.
  - exists t. split; [exact Hrun|]. split; [exact Hnum|].
    assert (Hhit : served (take (Z.to_nat 1000) (route_grid 1000))
                     (quad 10 2 3 1) = Some 2562)
      by (vm_compute; reflexivity).
    assert (Hmiss : served (take (Z.to_nat 1000) (route_grid 1000))
                      (quad 10 4 3 1) = None)
      by (vm_compute; reflexivity).
    assert (Hmiss' : served (take (Z.to_nat 1000) (route_grid 1000))
                       (quad 250 0 0 1) = None)
      by (vm_compute; reflexivity).
    split; [|split].
    + rewrite Hlook by (unfold valid_address, quad; lia). by rewrite Hhit.
    + rewrite Hlook by (unfold valid_address, quad; lia). by rewrite Hmiss.
    + assert (Hv : Forall (valid_address 32)
                     [quad 10 2 3 1; quad 250 0 0 1])
        by (repeat constructor; unfold quad; lia).
      pose proof (Hbatch _ Hv) as Hb. cbn [map] in Hb.
      by rewrite Hb, Hhit, Hmiss'.
Defined.
